(** * ArtifyMe API: a shallow embedding of the request handlers and services

    The backend is modelled by explicit state passing.  A handler is a
    function from the state it can touch (relational tables, the Redis
    store, the trace of outbound third-party calls) to a result and a
    new state.  A rejected promise or a thrown exception is the [Throw]
    result; writes made before the throw stay in the state, as they do
    in the source (nothing is rolled back).  A handler runs to its end
    before the next request is taken, except in [Interleaving], where the
    handlers of POST /start take turns at the [await] that follows the
    check of the credits.  A route function takes [req.body] as the
    object its code reads fields from; [Server] gives the webhook routes
    the body they get behind the parser that [server.ts] mounts on them.

    Part I holds the model, one module per source file.  Part II holds
    the properties. *)

From Stdlib Require Import ZArith Lia Ascii String.
From stdpp Require Import base option list strings pretty gmap fin_maps.

Open Scope Z_scope.

(* ===================================================================== *)
(** * Part I: model                                                       *)
(* ===================================================================== *)

(** ** Effects: state and exceptions *)

Inductive error :=
| ZodError
| RecordNotFound          (* Prisma P2025: update of a missing row *)
| UniqueViolation         (* Prisma P2002: create with a taken unique key *)
| INVALID_TOKEN
| KEYCLOAK_DISABLE_FAILED
| RangeError              (* crypto.timingSafeEqual on buffers of different length *)
| TypeError
| URIError
| WRONGTYPE               (* Redis: the key holds a value of another type *)
| OVERFLOW                (* Redis: the increment or the expiry time would overflow *)
| UpstreamError.          (* a failed call to a third party, or a failed transaction *)

Inductive res (A : Type) :=
| Ret (a : A)
| Throw (e : error).
Arguments Ret {A} a.
Arguments Throw {A} e.

Definition Eff (S A : Type) : Type := S → res A * S.

#[global] Instance Eff_ret {S} : MRet (Eff S) := λ A a s, (Ret a, s).

#[global] Instance Eff_bind {S} : MBind (Eff S) := λ A B f m s,
  match m s with
  | (Ret a, s') => f a s'
  | (Throw e, s') => (Throw e, s')
  end.

Definition throw {S A} (e : error) : Eff S A := λ s, (Throw e, s).

(** [try { m } catch (e) { h e }] *)
Definition try_catch {S A} (m : Eff S A) (h : error → Eff S A) : Eff S A := λ s,
  match m s with
  | (Ret a, s') => (Ret a, s')
  | (Throw e, s') => h e s'
  end.

Definition get_state {S} : Eff S S := λ s, (Ret s, s).
Definition modify {S} (f : S → S) : Eff S unit := λ s, (Ret tt, f s).

(** Run a computation on a component [B] of a larger state [S]. *)
Definition zoom {S B A} (proj : S → B) (inj : B → S → S) (m : Eff B A) : Eff S A := λ s,
  let '(r, b) := m (proj s) in (r, inj b s).

(** ** JavaScript objects and JSON *)

Module Js.

(** The values that occur in job records: strings, and [undefined] for a
    missing property or an omitted optional argument. *)
Inductive value :=
| Undefined
| Str (s : string).

#[global] Instance value_eq_dec : EqDecision value.
Proof. solve_decision. Defined.

(** An object is a finite map from property names to values. *)
Abbreviation obj := (gmap string value).

(** [{ ...base, ...more }]: properties of [more] overwrite those of [base]. *)
Definition spread (base more : obj) : obj := more ∪ base.

(** [o.k]: reading a missing property gives [undefined]. *)
Definition prop (o : obj) (k : string) : value := default Undefined (o !! k).

(** JSON text is kept abstract: a serialised flat object is represented by
    the string-valued map that [JSON.parse] reads back from it.
    [JSON.stringify] omits every property whose value is [undefined]. *)
Abbreviation json := (gmap string string).

Definition JSON_stringify (o : obj) : json :=
  omap (λ v, match v with Str s => Some s | Undefined => None end) o.

Definition JSON_parse (j : json) : obj := Str <$> j.

End Js.

(** ** services/redis.service.ts *)

Module Redis.
Import Js.

(** String keys hold a serialised value and an optional time to live in
    seconds; list keys hold serialised items, most recent first.  They are
    kept in two maps over the one key space: reading as a string a key that
    holds a list fails with WRONGTYPE.  The only list key is
    ['transformation:queue']; the job ids the routes make are UUIDs, so no
    status key ['transformation:<id>'] they write coincides with it (a
    string written over the queue is not modelled), but a status can be
    asked for any id.  The passing of time (a key disappearing once its
    time to live has elapsed) is not modelled here. *)
Record redis := {
  kv : gmap string (json * option nat);
  lists : gmap string (list json);
  published : list (string * json);   (* (channel, message), oldest first *)
}.

Definition empty_redis : redis := {| kv := ∅; lists := ∅; published := [] |}.

Definition setex (key : string) (seconds : nat) (data : json) : Eff redis unit :=
  modify (λ r, {| kv := <[key := (data, Some seconds)]> (kv r);
                  lists := lists r; published := published r |}).

Definition set (key : string) (data : json) : Eff redis unit :=
  modify (λ r, {| kv := <[key := (data, None)]> (kv r);
                  lists := lists r; published := published r |}).

(** [GET key]: the string, [null] for a missing key, and an error reply for
    a key that holds a list. *)
Definition get (key : string) : Eff redis (option json) :=
  λ r, match kv r !! key with
       | Some (data, _) => (Ret (Some data), r)
       | None =>
           match lists r !! key with
           | Some _ => (Throw WRONGTYPE, r)
           | None => (Ret None, r)
           end
       end.

Definition lpush (key : string) (item : json) : Eff redis unit :=
  modify (λ r, {| kv := kv r;
                  lists := <[key := item :: default [] (lists r !! key)]> (lists r);
                  published := published r |}).

Definition publish (channel : string) (message : json) : Eff redis unit :=
  modify (λ r, {| kv := kv r; lists := lists r;
                  published := published r ++ [(channel, message)] |}).

(** [if (expireSeconds)]: an omitted argument and 0 are both falsy. *)
Definition setCache (key : string) (value : obj) (expireSeconds : option nat)
  : Eff redis unit :=
  let serialized := JSON_stringify value in
  match expireSeconds with
  | Some (S n) => setex key (S n) serialized
  | _ => set key serialized
  end.

Definition getCache (key : string) : Eff redis (option obj) :=
  data ← get key;
  match data with
  | None => mret None
  | Some d => mret (Some (JSON_parse d))
  end.

Definition publishEvent (channel : string) (data : obj) : Eff redis unit :=
  publish channel (JSON_stringify data).

Record job := {
  id : string;
  userId : string;
  imageUrl : string;
  style : string;
}.

Definition job_obj (j : job) : obj :=
  {[ "id" := Str (id j); "userId" := Str (userId j);
     "imageUrl" := Str (imageUrl j); "style" := Str (style j) ]}.

Inductive job_status := pending | processing | completed | failed.

Definition status_str (s : job_status) : string :=
  match s with
  | pending => "pending"
  | processing => "processing"
  | completed => "completed"
  | failed => "failed"
  end.

Definition status_key (jobId : string) : string := "transformation:" +:+ jobId.

Definition addTransformationJob (j : job) : Eff redis unit :=
  lpush "transformation:queue" (JSON_stringify (job_obj j));;
  setCache (status_key (id j))
           (spread {[ "status" := Str "pending" ]} (job_obj j))
           (Some 3600%nat).

(** [...result] with [result] omitted spreads nothing. *)
Definition result_obj (result : option obj) : obj := default ∅ result.

(** [{ ...existing, status, ...result }] *)
Definition merged_record (existing : obj) (status : job_status) (result : option obj) : obj :=
  spread (<["status" := Str (status_str status)]> existing) (result_obj result).

(** [{ jobId, userId: existing.userId, status, ...result }] *)
Definition completion_event (jobId : string) (existing : obj) (status : job_status)
    (result : option obj) : obj :=
  spread {[ "jobId" := Str jobId; "userId" := prop existing "userId";
            "status" := Str (status_str status) ]}
         (result_obj result).

Definition updateTransformationStatus (jobId : string) (status : job_status)
    (result : option obj) : Eff redis unit :=
  existing ← getCache (status_key jobId);
  match existing with
  | Some ex =>
      setCache (status_key jobId) (merged_record ex status result) (Some 3600%nat);;
      publishEvent "transformation:complete" (completion_event jobId ex status result)
  | None => mret tt
  end.

Definition getTransformationStatus (jobId : string) : Eff redis (option obj) :=
  getCache (status_key jobId).

End Redis.

(** ** String helpers of the JavaScript runtime *)

Module JsString.

(** The strings of the model are JavaScript strings whose code units are
    all below 256 (header values as Node decodes them, Latin-1 text): one
    [ascii] is one code unit. *)

(** [s.split(c)] for a one-character separator. *)
Fixpoint split (c : ascii) (s : string) : list string :=
  match s with
  | EmptyString => [EmptyString]
  | String a s' =>
      if Ascii.eqb a c then EmptyString :: split c s'
      else match split c s' with
           | h :: t => String a h :: t
           | [] => [String a EmptyString]
           end
  end.

(** [s.indexOf(c)]; [None] stands for -1. *)
Fixpoint indexOf (c : ascii) (s : string) : option nat :=
  match s with
  | EmptyString => None
  | String a s' => if Ascii.eqb a c then Some 0%nat else S <$> indexOf c s'
  end.

(** [s.slice(0, n)] and [s.slice(n)]. *)
Fixpoint slice_to (n : nat) (s : string) : string :=
  match n, s with
  | S n', String a s' => String a (slice_to n' s')
  | _, _ => EmptyString
  end.

Fixpoint slice_from (n : nat) (s : string) : string :=
  match n, s with
  | S n', String a s' => slice_from n' s'
  | _, _ => s
  end.

(** The white space and line terminators that [trim] strips, among the
    code units below 256: U+0009 to U+000D, U+0020 and U+00A0. *)
Definition is_space (a : ascii) : bool :=
  let n := Ascii.nat_of_ascii a in
  (Nat.eqb n 32 || (Nat.leb 9 n && Nat.leb n 13) || Nat.eqb n 160)%bool.

Fixpoint trim_start (s : string) : string :=
  match s with
  | String a s' => if is_space a then trim_start s' else s
  | EmptyString => EmptyString
  end.

Fixpoint trim_end (s : string) : string :=
  match s with
  | EmptyString => EmptyString
  | String a s' =>
      match trim_end s' with
      | EmptyString => if is_space a then EmptyString else String a EmptyString
      | t => String a t
      end
  end.

(** [s.trim()] *)
Definition trim (s : string) : string := trim_end (trim_start s).

(** The capital letters below U+0100 are A to Z and U+00C0 to U+00DE
    without the multiplication sign U+00D7; each is 32 below its small
    letter. *)
Definition lower (a : ascii) : ascii :=
  let n := Ascii.nat_of_ascii a in
  if ((Nat.leb 65 n && Nat.leb n 90)
      || (Nat.leb 192 n && Nat.leb n 222 && negb (Nat.eqb n 215)))%bool
  then Ascii.ascii_of_nat (n + 32) else a.

(** [s.toLowerCase()] *)
Fixpoint toLowerCase (s : string) : string :=
  match s with
  | EmptyString => EmptyString
  | String a s' => String (lower a) (toLowerCase s')
  end.

(** A string is truthy when it is not empty; [undefined] is falsy. *)
Definition truthy (s : option string) : bool :=
  match s with
  | Some (String _ _) => true
  | _ => false
  end.

End JsString.

(** ** HTTP responses *)

Module Http.

Inductive scalar :=
| SNull
| SStr (s : string)
| SBool (b : bool)
| SNum (z : Z).

(** [res.status(status).json(body)]; [res.json(body)] answers 200.  Only
    the scalar fields of a body are kept. *)
Record response := {
  status : nat;
  body : list (string * scalar);
}.

Definition json (body : list (string * scalar)) : response :=
  {| status := 200; body := body |}.

Definition error_json (status : nat) (message : string) : response :=
  {| status := status; body := [("error", SStr message)] |}.

End Http.

(** ** The relational store behind the Prisma client *)

Module Prisma.

(** Operations on one table, held as the list of its rows.  A [where]
    clause on a unique column is a predicate that at most one row meets. *)
Section Table.
Context {A : Type}.

Definition findUnique (p : A → bool) (t : list A) : option A := List.find p t.

(** [update]: the changed row and the new table, or [None] when no row
    meets the clause (the client then throws). *)
Fixpoint update (p : A → bool) (f : A → A) (t : list A) : option (A * list A) :=
  match t with
  | [] => None
  | x :: t' =>
      if p x then Some (f x, f x :: t')
      else match update p f t' with
           | Some (y, t'') => Some (y, x :: t'')
           | None => None
           end
  end.

(** [updateMany] changes every row that meets the clause and never throws. *)
Definition updateMany (p : A → bool) (f : A → A) (t : list A) : list A :=
  List.map (λ x, if p x then f x else x) t.

(** [create]: [clash x y] tells whether [x] and [y] agree on a unique
    column; [None] when the new row clashes with a stored one. *)
Definition create (clash : A → A → bool) (x : A) (t : list A) : option (list A) :=
  if List.existsb (clash x) t then None else Some (t ++ [x]).

End Table.

Module User.
Record t := {
  id : string;
  keycloakId : string;
  email : string;
  name : option string;
  credits : Z;
  deletedAt : option Z;
  createdAt : Z;
}.
Definition clash (x y : t) : bool :=
  (String.eqb (id x) (id y) || String.eqb (keycloakId x) (keycloakId y)
   || String.eqb (email x) (email y))%bool.
Definition add_credits (n : Z) (u : t) : t :=
  {| id := id u; keycloakId := keycloakId u; email := email u; name := name u;
     credits := credits u + n; deletedAt := deletedAt u; createdAt := createdAt u |}.
Definition set_deletedAt (d : option Z) (u : t) : t :=
  {| id := id u; keycloakId := keycloakId u; email := email u; name := name u;
     credits := credits u; deletedAt := d; createdAt := createdAt u |}.
End User.

Module Subscription.
Record t := {
  id : string;
  userId : string;
  plan : string;
  billingCycle : string;
  status : string;
  stripeSubscriptionId : option string;
  cancelAtPeriodEnd : bool;
  currentPeriodEnd : Z;
}.
Definition set_status (s : string) (x : t) : t :=
  {| id := id x; userId := userId x; plan := plan x; billingCycle := billingCycle x;
     status := s; stripeSubscriptionId := stripeSubscriptionId x;
     cancelAtPeriodEnd := cancelAtPeriodEnd x; currentPeriodEnd := currentPeriodEnd x |}.
Definition set_period (s : string) (cancel : bool) (periodEnd : Z) (x : t) : t :=
  {| id := id x; userId := userId x; plan := plan x; billingCycle := billingCycle x;
     status := s; stripeSubscriptionId := stripeSubscriptionId x;
     cancelAtPeriodEnd := cancel; currentPeriodEnd := periodEnd |}.
End Subscription.

Module Order.
Record t := {
  id : string;
  userId : string;
  type : string;                    (* 'credits' | 'subscription' *)
  status : string;                  (* 'pending' | 'completed' | 'failed' *)
  amount : Z;
  currency : string;
  metadata_credits : option Z;      (* metadata.credits, when present *)
  paymentProvider : option string;
  paymentId : option string;
}.
Definition set_status (s : string) (x : t) : t :=
  {| id := id x; userId := userId x; type := type x; status := s; amount := amount x;
     currency := currency x; metadata_credits := metadata_credits x;
     paymentProvider := paymentProvider x; paymentId := paymentId x |}.
Definition set_payment (provider pid : string) (x : t) : t :=
  {| id := id x; userId := userId x; type := type x; status := status x;
     amount := amount x; currency := currency x; metadata_credits := metadata_credits x;
     paymentProvider := Some provider; paymentId := Some pid |}.
End Order.

Module Transformation.
Record t := {
  id : string;
  userId : string;
  style : string;
  status : string;                  (* 'pending' | 'completed' | 'failed' *)
  inputImageData : string;
  outputImageUrl : option string;
  errorMessage : option string;
  completedAt : option Z;
}.
(** The update made when the workflow reports back; a field given as
    [undefined] is left as it is. *)
Definition complete (s : string) (out err : option string) (now : Z) (x : t) : t :=
  {| id := id x; userId := userId x; style := style x; status := s;
     inputImageData := inputImageData x;
     outputImageUrl := match out with Some _ => out | None => outputImageUrl x end;
     errorMessage := match err with Some _ => err | None => errorMessage x end;
     completedAt := Some now |}.
End Transformation.

(** A row of [PasswordResetToken] or of [AccountReactivationToken]. *)
Module Token.
Record t := {
  id : string;
  userId : string;
  tokenHash : string;
  expiresAt : Z;                    (* milliseconds since the epoch *)
  usedAt : option Z;
}.
Definition set_usedAt (now : Z) (x : t) : t :=
  {| id := id x; userId := userId x; tokenHash := tokenHash x;
     expiresAt := expiresAt x; usedAt := Some now |}.
End Token.

Record db := {
  users : list User.t;
  subscriptions : list Subscription.t;
  orders : list Order.t;
  transformations : list Transformation.t;
  passwordResetTokens : list Token.t;
  accountReactivationTokens : list Token.t;
}.

Definition empty_db : db :=
  {| users := []; subscriptions := []; orders := []; transformations := [];
     passwordResetTokens := []; accountReactivationTokens := [] |}.

Definition set_users (t : list User.t) (d : db) : db :=
  {| users := t; subscriptions := subscriptions d; orders := orders d;
     transformations := transformations d;
     passwordResetTokens := passwordResetTokens d;
     accountReactivationTokens := accountReactivationTokens d |}.
Definition set_subscriptions (t : list Subscription.t) (d : db) : db :=
  {| users := users d; subscriptions := t; orders := orders d;
     transformations := transformations d;
     passwordResetTokens := passwordResetTokens d;
     accountReactivationTokens := accountReactivationTokens d |}.
Definition set_orders (t : list Order.t) (d : db) : db :=
  {| users := users d; subscriptions := subscriptions d; orders := t;
     transformations := transformations d;
     passwordResetTokens := passwordResetTokens d;
     accountReactivationTokens := accountReactivationTokens d |}.
Definition set_transformations (t : list Transformation.t) (d : db) : db :=
  {| users := users d; subscriptions := subscriptions d; orders := orders d;
     transformations := t;
     passwordResetTokens := passwordResetTokens d;
     accountReactivationTokens := accountReactivationTokens d |}.
Definition set_passwordResetTokens (t : list Token.t) (d : db) : db :=
  {| users := users d; subscriptions := subscriptions d; orders := orders d;
     transformations := transformations d;
     passwordResetTokens := t;
     accountReactivationTokens := accountReactivationTokens d |}.
Definition set_accountReactivationTokens (t : list Token.t) (d : db) : db :=
  {| users := users d; subscriptions := subscriptions d; orders := orders d;
     transformations := transformations d;
     passwordResetTokens := passwordResetTokens d;
     accountReactivationTokens := t |}.

(** The client calls, on a table selected by its projection and setter. *)
Definition find {A} (tbl : db → list A) (p : A → bool) : Eff db (option A) :=
  λ d, (Ret (findUnique p (tbl d)), d).

Definition update_row {A} (tbl : db → list A) (set_tbl : list A → db → db)
    (p : A → bool) (f : A → A) : Eff db A :=
  λ d, match update p f (tbl d) with
       | Some (y, t') => (Ret y, set_tbl t' d)
       | None => (Throw RecordNotFound, d)
       end.

Definition update_rows {A} (tbl : db → list A) (set_tbl : list A → db → db)
    (p : A → bool) (f : A → A) : Eff db unit :=
  modify (λ d, set_tbl (updateMany p f (tbl d)) d).

Definition create_row {A} (tbl : db → list A) (set_tbl : list A → db → db)
    (clash : A → A → bool) (x : A) : Eff db A :=
  λ d, match create clash x (tbl d) with
       | Some t' => (Ret x, set_tbl t' d)
       | None => (Throw UniqueViolation, d)
       end.

Definition by_id {A} (id_of : A → string) (i : string) : A → bool :=
  λ x, String.eqb (id_of x) i.

End Prisma.

(** ** Libraries and services outside the repository *)

Inductive stripe_event :=
| checkout_session_completed (metadata_orderId : option string)
| invoice_paid (subscription : option string) (period_end : option Z)
| customer_subscription_updated (id status : string)
    (cancel_at_period_end : bool) (current_period_end : Z)
| customer_subscription_deleted (id : string)
| other_stripe_event (type : string).

(** Pure functions of third-party libraries, left abstract. *)
Class Externals := {
  (** [bcrypt.compare(secret, hash)] *)
  bcrypt_compare : string → string → bool;
  (** [crypto.createHmac('sha256', key).update(text).digest('hex')] *)
  hmac_sha256_hex : string → string → string;
  (** [JSON.stringify] of a request body, as text *)
  json_text : Js.obj → string;
  (** [stripe.webhooks.constructEvent(payload, header, secret)]; [None]
      when it throws *)
  stripe_constructEvent : string → option string → option string → option stripe_event;
  (** [decodeURIComponent]; [None] when it throws [URIError] *)
  decodeURIComponent : string → option string;
}.

(** ** The state of the whole backend *)

Module World.

(** [req.user], as set by the authentication middleware. *)
Record req_user := {
  id : string;               (* Keycloak sub *)
  email : string;
  name : string;
  roles : list string;
  isAdmin : bool;
}.

(** The value cached under ['auth:v1:<token>']. *)
Record auth_entry := {
  user : req_user;
  blocked : bool;
}.

(** Attempted calls to third parties. *)
Inductive call :=
| N8nTrigger (jobId style : string)
| KeycloakLogout (keycloakUserId : string)
| KeycloakDisable (keycloakUserId : string)
| KeycloakEnable (keycloakUserId : string)
| KeycloakResetPassword (keycloakUserId newPassword : string)
| KeycloakOidcLogout (refreshToken : string)
| KeycloakIntrospect (token : string)
| AsaasCreatePayment (orderId : string)
| StripeCreateCheckout (orderId : string).

(** [auth_cache] holds the keys ['auth:v1:<token>'] of the Redis store with
    their time to live; they are disjoint from the job status keys. *)
Record world := {
  db : Prisma.db;
  redis : Redis.redis;
  auth_cache : gmap string (auth_entry * nat);
  calls : list call;
}.

Definition empty_world : world :=
  {| db := Prisma.empty_db; redis := Redis.empty_redis; auth_cache := ∅; calls := [] |}.

Definition set_db (d : Prisma.db) (w : world) : world :=
  {| db := d; redis := redis w; auth_cache := auth_cache w; calls := calls w |}.
Definition set_redis (r : Redis.redis) (w : world) : world :=
  {| db := db w; redis := r; auth_cache := auth_cache w; calls := calls w |}.
Definition set_auth_cache (c : gmap string (auth_entry * nat)) (w : world) : world :=
  {| db := db w; redis := redis w; auth_cache := c; calls := calls w |}.
Definition set_calls (c : list call) (w : world) : world :=
  {| db := db w; redis := redis w; auth_cache := auth_cache w; calls := c |}.

Definition on_db {A} (m : Eff Prisma.db A) : Eff world A := zoom db set_db m.
Definition on_redis {A} (m : Eff Redis.redis A) : Eff world A := zoom redis set_redis m.

(** An awaited call to a third party: it is recorded, and it rejects when
    the third party (or the configuration needed to reach it) fails. *)
Definition request (c : call) (ok : bool) : Eff world unit :=
  λ w, (if ok then Ret tt else Throw UpstreamError, set_calls (calls w ++ [c]) w).

(** An awaited call that answers a value; [None] when it fails. *)
Definition request_value {A} (c : call) (answer : option A) : Eff world A :=
  λ w, (match answer with Some a => Ret a | None => Throw UpstreamError end,
        set_calls (calls w ++ [c]) w).

(** A call whose promise is not awaited: a rejection is never observed. *)
Definition fire_and_forget (c : call) : Eff world unit :=
  modify (λ w, set_calls (calls w ++ [c]) w).

End World.

(** ** services/keycloak.admin.service.ts *)

Module KeycloakAdmin.
Import World.

(** Whether each admin call succeeds when it is made. *)
Record outcome := {
  logout_ok : bool;
  disable_ok : bool;
  enable_ok : bool;
  reset_ok : bool;
}.

Definition keycloakResetPassword (k : outcome) (keycloakUserId newPassword : string)
  : Eff world unit :=
  request (KeycloakResetPassword keycloakUserId newPassword) (reset_ok k).

Definition keycloakLogoutUser (k : outcome) (keycloakUserId : string) : Eff world unit :=
  request (KeycloakLogout keycloakUserId) (logout_ok k).

Definition keycloakDisableUser (k : outcome) (keycloakUserId : string) : Eff world unit :=
  request (KeycloakDisable keycloakUserId) (disable_ok k).

Definition keycloakEnableUser (k : outcome) (keycloakUserId : string) : Eff world unit :=
  request (KeycloakEnable keycloakUserId) (enable_ok k).

Definition keycloakDisableAndLogoutUser (k : outcome) (keycloakUserId : string)
  : Eff world unit :=
  try_catch (keycloakLogoutUser k keycloakUserId) (λ _, mret tt);;
  try_catch (keycloakDisableUser k keycloakUserId)
            (λ _, throw KEYCLOAK_DISABLE_FAILED).

End KeycloakAdmin.

(** ** routes/transform.routes.ts *)

Module Transform.
Import World.

Definition styles : list string :=
  ["cartoon"; "graffiti"; "watercolor"; "sketch"; "pop-art"; "neon"; "anime";
   "renaissance"; "impressionist"; "minimalist"].

(** [transformRequestSchema.parse(req.body)] *)
Definition parse_style {S} (body_style : option string) : Eff S string :=
  match body_style with
  | Some s => if bool_decide (s ∈ styles) then mret s else throw ZodError
  | None => throw ZodError
  end.

Record start_request := {
  file : option string;        (* req.file: the uploaded buffer, in base64 *)
  body_style : option string;  (* req.body.style *)
  user_id : string;            (* req.user.id *)
}.

Definition no_credits : Http.response :=
  {| Http.status := 402;
     Http.body := [("error", Http.SStr "No credits available");
                   ("code", Http.SStr "NO_CREDITS");
                   ("message", Http.SStr "Please purchase credits or subscribe to continue")] |}.

Definition started (jobId : string) : Http.response :=
  {| Http.status := 202;
     Http.body := [("jobId", Http.SStr jobId);
                   ("status", Http.SStr "pending");
                   ("message", Http.SStr "Transformation started");
                   ("estimatedTime", Http.SStr "30-60 seconds")] |}.

Definition has_active_subscription (sub : option Prisma.Subscription.t) : bool :=
  match sub with
  | Some s => String.eqb (Prisma.Subscription.status s) "active"
  | None => false
  end.

(** POST /start.  [jobId] is the result of [uuidv4()]. *)
Definition start (req : start_request) (jobId : string) : Eff world Http.response :=
  try_catch
    (match file req with
     | None => mret (Http.error_json 400 "No image file provided")
     | Some imageBase64 =>
         style ← parse_style (body_style req);
         let userId := user_id req in
         user ← on_db (Prisma.find Prisma.users
                         (Prisma.by_id Prisma.User.keycloakId userId));
         match user with
         | None => mret (Http.error_json 404 "User not found")
         | Some u =>
             subscription ← on_db (Prisma.find Prisma.subscriptions
                                     (Prisma.by_id Prisma.Subscription.userId
                                                   (Prisma.User.id u)));
             let hasActiveSubscription := has_active_subscription subscription in
             let hasCredits := 0 <? Prisma.User.credits u in
             if (negb hasActiveSubscription && negb hasCredits)%bool
             then mret no_credits
             else
               on_db (Prisma.create_row Prisma.transformations Prisma.set_transformations
                        (λ x y, String.eqb (Prisma.Transformation.id x)
                                           (Prisma.Transformation.id y))
                        {| Prisma.Transformation.id := jobId;
                           Prisma.Transformation.userId := Prisma.User.id u;
                           Prisma.Transformation.style := style;
                           Prisma.Transformation.status := "pending";
                           Prisma.Transformation.inputImageData := imageBase64;
                           Prisma.Transformation.outputImageUrl := None;
                           Prisma.Transformation.errorMessage := None;
                           Prisma.Transformation.completedAt := None |});;
               on_redis (Redis.addTransformationJob
                           {| Redis.id := jobId; Redis.userId := userId;
                              Redis.imageUrl := imageBase64; Redis.style := style |});;
               fire_and_forget (N8nTrigger jobId style);;
               (if (negb hasActiveSubscription && hasCredits)%bool
                then on_db (Prisma.update_row Prisma.users Prisma.set_users
                              (Prisma.by_id Prisma.User.id (Prisma.User.id u))
                              (Prisma.User.add_credits (-1)));; mret tt
                else mret tt);;
               mret (started jobId)
         end
     end)
    (λ e, match e with
          | ZodError => mret (Http.error_json 400 "Validation error")
          | _ => mret (Http.error_json 500 "Failed to start transformation")
          end).

(** The handler gives up control at every [await], and another request
    may be handled before it goes on.  What it has read so far stays in
    its local variables: *)
Record start_pending := {
  pending_image : string;          (* imageBase64 *)
  pending_style : string;          (* style *)
  pending_user : Prisma.User.t;    (* user *)
  pending_active : bool;           (* hasActiveSubscription *)
}.

Definition start_catch (e : error) : Eff world Http.response :=
  match e with
  | ZodError => mret (Http.error_json 400 "Validation error")
  | _ => mret (Http.error_json 500 "Failed to start transformation")
  end.

(** POST /start up to the check of the credits: the request is answered,
    or the handler goes on with what [findUnique] returned. *)
Definition start_check (req : start_request)
  : Eff world (Http.response + start_pending) :=
  try_catch
    (match file req with
     | None => mret (inl (Http.error_json 400 "No image file provided"))
     | Some imageBase64 =>
         style ← parse_style (body_style req);
         let userId := user_id req in
         user ← on_db (Prisma.find Prisma.users
                         (Prisma.by_id Prisma.User.keycloakId userId));
         match user with
         | None => mret (inl (Http.error_json 404 "User not found"))
         | Some u =>
             subscription ← on_db (Prisma.find Prisma.subscriptions
                                     (Prisma.by_id Prisma.Subscription.userId
                                                   (Prisma.User.id u)));
             let hasActiveSubscription := has_active_subscription subscription in
             let hasCredits := 0 <? Prisma.User.credits u in
             if (negb hasActiveSubscription && negb hasCredits)%bool
             then mret (inl no_credits)
             else mret (inr {| pending_image := imageBase64; pending_style := style;
                               pending_user := u;
                               pending_active := hasActiveSubscription |})
         end
     end)
    (λ e, r ← start_catch e; mret (inl r)).

(** POST /start from [prisma.transformation.create] on, with the values
    read before: [hasCredits] is the one computed from the row as it was
    when [findUnique] returned. *)
Definition start_finish (req : start_request) (jobId : string) (p : start_pending)
  : Eff world Http.response :=
  try_catch
    (let u := pending_user p in
     let hasActiveSubscription := pending_active p in
     let hasCredits := 0 <? Prisma.User.credits u in
     on_db (Prisma.create_row Prisma.transformations Prisma.set_transformations
              (λ x y, String.eqb (Prisma.Transformation.id x)
                                 (Prisma.Transformation.id y))
              {| Prisma.Transformation.id := jobId;
                 Prisma.Transformation.userId := Prisma.User.id u;
                 Prisma.Transformation.style := pending_style p;
                 Prisma.Transformation.status := "pending";
                 Prisma.Transformation.inputImageData := pending_image p;
                 Prisma.Transformation.outputImageUrl := None;
                 Prisma.Transformation.errorMessage := None;
                 Prisma.Transformation.completedAt := None |});;
     on_redis (Redis.addTransformationJob
                 {| Redis.id := jobId; Redis.userId := user_id req;
                    Redis.imageUrl := pending_image p;
                    Redis.style := pending_style p |});;
     fire_and_forget (N8nTrigger jobId (pending_style p));;
     (if (negb hasActiveSubscription && hasCredits)%bool
      then on_db (Prisma.update_row Prisma.users Prisma.set_users
                    (Prisma.by_id Prisma.User.id (Prisma.User.id u))
                    (Prisma.User.add_credits (-1)));; mret tt
      else mret tt);;
     mret (started jobId))
    start_catch.

End Transform.

(** ** Requests to /start handled concurrently *)

Module Interleaving.
Import World Transform.

(** A request arrives and its handler runs up to the check of the credits;
    later the [n]-th waiting handler goes on to its end.  The awaits
    inside the second part are further points where handlers may take
    turns; every run of this coarser system is a run of the server. *)
Inductive event :=
| Arrive (req : start_request)
| Resume (n : nat) (jobId : string).

Record state := {
  world_of : world;
  waiting : list (start_request * start_pending);
  answers : list Http.response;
}.

Definition initial (w : world) : state :=
  {| world_of := w; waiting := []; answers := [] |}.

Definition step (s : state) (ev : event) : state :=
  match ev with
  | Arrive req =>
      match start_check req (world_of s) with
      | (Ret (inl r), w) =>
          {| world_of := w; waiting := waiting s; answers := answers s ++ [r] |}
      | (Ret (inr p), w) =>
          {| world_of := w; waiting := waiting s ++ [(req, p)]; answers := answers s |}
      | (Throw _, w) =>
          {| world_of := w; waiting := waiting s; answers := answers s |}
      end
  | Resume n jobId =>
      match waiting s !! n with
      | None => s
      | Some (req, p) =>
          match start_finish req jobId p (world_of s) with
          | (Ret r, w) =>
              {| world_of := w; waiting := delete n (waiting s);
                 answers := answers s ++ [r] |}
          | (Throw _, w) =>
              {| world_of := w; waiting := delete n (waiting s);
                 answers := answers s |}
          end
      end
  end.

Definition run (s : state) (events : list event) : state := foldl step s events.

End Interleaving.

(** ** routes/payment.routes.ts: purchase of credits *)

Module Payment.
Import World.

Record package_info := { credits : Z; priceBRL : Z; priceEUR : Z }.

Definition CREDIT_PACKAGES (packageId : string) : option package_info :=
  if String.eqb packageId "small" then Some {| credits := 10; priceBRL := 1990; priceEUR := 490 |}
  else if String.eqb packageId "medium" then Some {| credits := 50; priceBRL := 7990; priceEUR := 1990 |}
  else if String.eqb packageId "large" then Some {| credits := 150; priceBRL := 19990; priceEUR := 4990 |}
  else None.

Record purchase_request := {
  package : option string;     (* req.body.package *)
  region : option string;      (* req.body.region *)
  user_id : string;            (* req.user.id *)
}.

(** [purchaseCreditsSchema.parse(req.body)] *)
Definition parse_purchase {S} (req : purchase_request) : Eff S (package_info * bool) :=
  match package req, region req with
  | Some p, Some r =>
      match CREDIT_PACKAGES p with
      | Some info =>
          if String.eqb r "BR" then mret (info, true)
          else if String.eqb r "PT" then mret (info, false)
          else throw ZodError
      | None => throw ZodError
      end
  | _, _ => throw ZodError
  end.

(** POST /credits/purchase.  [orderId] is the id the database gives the new
    order; [payment] is what the payment provider answers ([None] when the
    call fails). *)
Definition purchase (req : purchase_request) (orderId : string)
    (payment : option (string * string)) : Eff world Http.response :=
  try_catch
    (parsed ← parse_purchase req;
     let packageInfo : package_info := parsed.1 in
     let isBR : bool := parsed.2 in
     user ← on_db (Prisma.find Prisma.users
                     (Prisma.by_id Prisma.User.keycloakId (user_id req)));
     match user with
     | None => mret (Http.error_json 404 "User not found")
     | Some u =>
         order ← on_db (Prisma.create_row Prisma.orders Prisma.set_orders
                  (λ x y, String.eqb (Prisma.Order.id x) (Prisma.Order.id y))
                  {| Prisma.Order.id := orderId;
                     Prisma.Order.userId := Prisma.User.id u;
                     Prisma.Order.type := "credits";
                     Prisma.Order.status := "pending";
                     Prisma.Order.amount := if isBR then priceBRL packageInfo
                                            else priceEUR packageInfo;
                     Prisma.Order.currency := if isBR then "BRL" else "EUR";
                     Prisma.Order.metadata_credits := Some (credits packageInfo);
                     Prisma.Order.paymentProvider := None;
                     Prisma.Order.paymentId := None |});
         paymentResult ←
           request_value (if isBR then AsaasCreatePayment (Prisma.Order.id order)
                          else StripeCreateCheckout (Prisma.Order.id order))
                         payment;
         let paymentId : string := paymentResult.1 in
         let paymentUrl : string := paymentResult.2 in
         on_db (Prisma.update_row Prisma.orders Prisma.set_orders
                  (Prisma.by_id Prisma.Order.id (Prisma.Order.id order))
                  (Prisma.Order.set_payment (if isBR then "asaas" else "stripe")%string
                                            paymentId));;
         mret (Http.json [("orderId", Http.SStr (Prisma.Order.id order));
                          ("paymentUrl", Http.SStr paymentUrl);
                          ("paymentId", Http.SStr paymentId)])
     end)
    (λ e, match e with
          | ZodError => mret (Http.error_json 400 "Validation error")
          | _ => mret (Http.error_json 500 "Failed to process payment")
          end).

End Payment.

(** ** routes/admin.routes.ts: adding credits *)

Module Admin.
Import World.

(** [req.body.amount]: a JSON number, or a value of another type.  The
    numbers modelled are the whole numbers: the balance is an integer
    column (the Prisma schema is not among the sources), and what the
    update does with a fraction, or with a sum that a 32-bit column does
    not hold, is left out.  The properties of this route stay within
    [INT_MAX]. *)
Inductive amount_value :=
| Number (z : Z)
| NotANumber.

Definition INT_MAX : Z := 2 ^ 31 - 1.

(** POST /users/:userId/credits.  The first test is the [adminOnly] guard
    the router puts before every admin route. *)
Definition add_credits (user : option req_user) (userId : string) (amount : amount_value)
  : Eff world Http.response :=
  if negb (from_option isAdmin false user)
  then mret (Http.error_json 403 "Admin access required")
  else
    try_catch
      (match amount with
       | Number n =>
           if n <=? 0 then mret (Http.error_json 400 "Invalid credits amount")
           else
             u ← on_db (Prisma.update_row Prisma.users Prisma.set_users
                          (Prisma.by_id Prisma.User.id userId)
                          (Prisma.User.add_credits n));
             mret (Http.json [("message",
                                Http.SStr ("Added " +:+ pretty n +:+ " credits to user"));
                              ("newBalance", Http.SNum (Prisma.User.credits u))])
       | NotANumber => mret (Http.error_json 400 "Invalid credits amount")
       end)
      (λ _, mret (Http.error_json 500 "Failed to add credits")).

End Admin.

(** ** routes/webhook.routes.ts *)

Module Webhook.
Import World.

(** [process.env], as far as the webhook routes read it. *)
Record env := {
  N8N_WEBHOOK_SECRET : option string;
  STRIPE_WEBHOOK_SECRET : option string;
  ASAAS_WEBHOOK_TOKEN : option string;
}.

Definition received : Http.response := Http.json [("received", Http.SBool true)].

Definition processing_failed : Http.response :=
  Http.error_json 500 "Webhook processing failed".

(** [crypto.timingSafeEqual] on the bytes of two strings: it throws when
    the lengths differ. *)
Definition timingSafeEqual (a b : string) : res bool :=
  if Nat.eqb (String.length a) (String.length b)
  then Ret (String.eqb a b)
  else Throw RangeError.

(** [verifyN8NSignature(body, signature)], given the text
    [JSON.stringify(body)]. *)
Definition verifySignature `{Externals} (e : env) (text : string)
    (signature : option string) : res bool :=
  if negb (JsString.truthy (N8N_WEBHOOK_SECRET e)) then Ret true
  else
    let expectedSignature :=
      hmac_sha256_hex (default EmptyString (N8N_WEBHOOK_SECRET e)) text in
    timingSafeEqual
      (if JsString.truthy signature then default EmptyString signature else EmptyString)
      expectedSignature.


Definition as_string (v : Js.value) : option string :=
  match v with
  | Js.Str s => Some s
  | Js.Undefined => None
  end.

(** POST /n8n/transformation-complete, for any value of [req.body]: [text]
    is [JSON.stringify(req.body)] and [property] reads a property of
    [req.body].  [signature] is the header [x-n8n-signature]; [now] is
    [new Date()]. *)
Definition n8n_route `{Externals} (e : env) (text : string)
    (property : string → Js.value) (signature : option string) (now : Z)
  : Eff world Http.response :=
  try_catch
    (let jobId := property "jobId" in
     let status := property "status" in
     let outputUrl := property "outputUrl" in
     let error := property "error" in
     verified ← (λ w, (verifySignature e text signature, w));
     if negb verified then mret (Http.error_json 401 "Invalid signature")
     else
       let final := if bool_decide (status = Js.Str "success")
                    then Redis.completed else Redis.failed in
       match jobId with
       | Js.Undefined => throw RecordNotFound
       | Js.Str jobId =>
           on_db (Prisma.update_row Prisma.transformations Prisma.set_transformations
                    (Prisma.by_id Prisma.Transformation.id jobId)
                    (Prisma.Transformation.complete (Redis.status_str final)
                       (as_string outputUrl) (as_string error) now));;
           on_redis (Redis.updateTransformationStatus jobId final
                       (Some {[ "outputUrl" := outputUrl; "error" := error ]}));;
           mret (Http.json [("success", Http.SBool true)])
       end)
    (λ _, mret processing_failed).

(** The route on a body that is an object. *)
Definition n8n_transformation_complete `{Externals} (e : env) (body : Js.obj)
    (signature : option string) (now : Z) : Eff world Http.response :=
  n8n_route e (json_text body) (Js.prop body) signature now.

(** [order.metadata?.credits || 0] *)
Definition order_credits (order : Prisma.Order.t) : Z :=
  default 0 (Prisma.Order.metadata_credits order).

(** The body shared by [handleStripeCheckoutComplete] and
    [handleAsaasPaymentConfirmed], from the order id on. *)
Definition complete_order (orderId : option string) : Eff world unit :=
  if negb (JsString.truthy orderId) then mret tt
  else
    let orderId := default EmptyString orderId in
    order ← on_db (Prisma.update_row Prisma.orders Prisma.set_orders
                     (Prisma.by_id Prisma.Order.id orderId)
                     (Prisma.Order.set_status "completed"));
    order_user ← on_db (Prisma.find Prisma.users
                          (Prisma.by_id Prisma.User.id (Prisma.Order.userId order)));
    if String.eqb (Prisma.Order.type order) "credits" then
      let credits := order_credits order in
      on_db (Prisma.update_row Prisma.users Prisma.set_users
               (Prisma.by_id Prisma.User.id (Prisma.Order.userId order))
               (Prisma.User.add_credits credits));;
      match order_user with
      | None => throw TypeError
      | Some u =>
          on_redis (Redis.publishEvent "notification"
            {[ "userId" := Js.Str (Prisma.User.keycloakId u);
               "type" := Js.Str "credits_added";
               "message" := Js.Str (pretty credits +:+ " créditos adicionados à sua conta!") ]})
      end
    else mret tt.

Definition handleStripeCheckoutComplete (metadata_orderId : option string)
  : Eff world unit :=
  complete_order metadata_orderId.

Definition handleStripeInvoicePaid (subscription : option string) (period_end : option Z)
  : Eff world unit :=
  if negb (JsString.truthy subscription) then mret tt
  else
    on_db (Prisma.update_rows Prisma.subscriptions Prisma.set_subscriptions
      (λ s, bool_decide (Prisma.Subscription.stripeSubscriptionId s = subscription))
      (λ s, Prisma.Subscription.set_period "active"
              (Prisma.Subscription.cancelAtPeriodEnd s)
              (default 0 period_end * 1000) s)).

Definition handleStripeSubscriptionUpdated (id status : string)
    (cancel_at_period_end : bool) (current_period_end : Z) : Eff world unit :=
  on_db (Prisma.update_rows Prisma.subscriptions Prisma.set_subscriptions
    (λ s, bool_decide (Prisma.Subscription.stripeSubscriptionId s = Some id))
    (Prisma.Subscription.set_period
       (if String.eqb status "active" then "active" else "inactive")%string
       cancel_at_period_end (current_period_end * 1000))).

Definition handleStripeSubscriptionDeleted (id : string) : Eff world unit :=
  on_db (Prisma.update_rows Prisma.subscriptions Prisma.set_subscriptions
    (λ s, bool_decide (Prisma.Subscription.stripeSubscriptionId s = Some id))
    (Prisma.Subscription.set_status "cancelled")).

(** POST /stripe.  [payload] is the raw body, [sig] the header
    [stripe-signature]. *)
Definition stripe `{Externals} (e : env) (payload : string) (sig : option string)
  : Eff world Http.response :=
  match stripe_constructEvent payload sig (STRIPE_WEBHOOK_SECRET e) with
  | None => mret (Http.error_json 400 "Invalid signature")
  | Some event =>
      try_catch
        (match event with
         | checkout_session_completed orderId => handleStripeCheckoutComplete orderId
         | invoice_paid subscription period_end =>
             handleStripeInvoicePaid subscription period_end
         | customer_subscription_updated id status cancel period_end =>
             handleStripeSubscriptionUpdated id status cancel period_end
         | customer_subscription_deleted id => handleStripeSubscriptionDeleted id
         | other_stripe_event _ => mret tt
         end;;
         mret received)
        (λ _, mret processing_failed)
  end.

(** The [payment] and [subscription] objects of an Asaas notification, as
    far as the handlers read them. *)
Record asaas_body := {
  event : option string;
  payment : option (option string);        (* payment.externalReference *)
  subscription : option (option string);   (* subscription.externalReference *)
}.

(** Reading [x.externalReference] when [x] is undefined throws. *)
Definition externalReference {S} (x : option (option string)) : Eff S (option string) :=
  match x with
  | Some r => mret r
  | None => throw TypeError
  end.

Definition handleAsaasPaymentConfirmed (payment : option (option string))
  : Eff world unit :=
  orderId ← externalReference payment;
  complete_order orderId.

Definition handleAsaasPaymentFailed (payment : option (option string))
  : Eff world unit :=
  orderId ← externalReference payment;
  if negb (JsString.truthy orderId) then mret tt
  else
    on_db (Prisma.update_row Prisma.orders Prisma.set_orders
             (Prisma.by_id Prisma.Order.id (default EmptyString orderId))
             (Prisma.Order.set_status "failed"));; mret tt.

Definition set_subscription_status (subscription : option (option string))
    (status : string) : Eff world unit :=
  subscriptionId ← externalReference subscription;
  if negb (JsString.truthy subscriptionId) then mret tt
  else
    on_db (Prisma.update_row Prisma.subscriptions Prisma.set_subscriptions
             (Prisma.by_id Prisma.Subscription.id (default EmptyString subscriptionId))
             (Prisma.Subscription.set_status status));; mret tt.

Definition handleAsaasSubscriptionActive (subscription : option (option string))
  : Eff world unit :=
  set_subscription_status subscription "active".

Definition handleAsaasSubscriptionCancelled (subscription : option (option string))
  : Eff world unit :=
  set_subscription_status subscription "cancelled".

Definition event_in (ev : option string) (names : list string) : bool :=
  match ev with
  | Some s => bool_decide (s ∈ names)
  | None => false
  end.

(** POST /asaas.  [token] is the header [asaas-access-token]. *)
Definition asaas (e : env) (body : asaas_body) (token : option string)
  : Eff world Http.response :=
  try_catch
    (if negb (bool_decide (token = ASAAS_WEBHOOK_TOKEN e))
     then mret (Http.error_json 401 "Invalid token")
     else
       (if event_in (event body) ["PAYMENT_CONFIRMED"; "PAYMENT_RECEIVED"]
        then handleAsaasPaymentConfirmed (payment body)
        else if event_in (event body) ["PAYMENT_OVERDUE"; "PAYMENT_DELETED"]
        then handleAsaasPaymentFailed (payment body)
        else if event_in (event body) ["SUBSCRIPTION_CREATED"; "SUBSCRIPTION_RENEWED"]
        then handleAsaasSubscriptionActive (subscription body)
        else if event_in (event body) ["SUBSCRIPTION_DELETED"; "SUBSCRIPTION_INACTIVE"]
        then handleAsaasSubscriptionCancelled (subscription body)
        else mret tt);;
       mret received)
    (λ _, mret processing_failed).

End Webhook.

(** ** The webhook routes as the server mounts them *)

Module Server.
Import World.

(** [server.ts] mounts [express.raw({ type: 'application/json' })] on
    ['/api/webhooks'] before [express.json]: when a webhook route runs on a
    request with a JSON body, [req.body] is the Buffer of the bytes sent,
    not the object they spell.  A Buffer has none of the properties the
    routes destructure, and [JSON.stringify] turns it into the text
    [{type: 'Buffer', data: [...]}].  [payload] is the body as sent, one
    character a byte.  The parser hands a body over when there is one and
    it is not above the limit, 100 kB unless configured; a request without
    a body is left to the parsers that follow, and a larger one is
    refused. *)
Definition raw_limit : Z := 102400.

Definition parsed_raw (payload : string) : Prop :=
  payload ≠ EmptyString ∧ Z.of_nat (String.length payload) ≤ raw_limit.

Definition quote : string := String (Ascii.ascii_of_nat 34) EmptyString.

Fixpoint bytes_text (payload : string) : string :=
  match payload with
  | EmptyString => EmptyString
  | String a EmptyString => pretty (Ascii.N_of_ascii a)
  | String a rest => pretty (Ascii.N_of_ascii a) +:+ "," +:+ bytes_text rest
  end.

(** [JSON.stringify(req.body)] *)
Definition buffer_json (payload : string) : string :=
  "{" +:+ quote +:+ "type" +:+ quote +:+ ":" +:+ quote +:+ "Buffer" +:+ quote
  +:+ "," +:+ quote +:+ "data" +:+ quote +:+ ":[" +:+ bytes_text payload +:+ "]}".

(** [const { event, payment, subscription } = req.body] *)
Definition buffer_asaas_body : Webhook.asaas_body :=
  {| Webhook.event := None; Webhook.payment := None; Webhook.subscription := None |}.

(** POST /api/webhooks/n8n/transformation-complete with a JSON body that
    the parser hands over. *)
Definition n8n `{Externals} (e : Webhook.env) (payload : string)
    (signature : option string) (now : Z) : Eff world Http.response :=
  Webhook.n8n_route e (buffer_json payload) (λ _, Js.Undefined) signature now.

(** POST /api/webhooks/stripe: the route hands the bytes to the Stripe
    library, which is what the raw body is mounted for. *)
Definition stripe `{Externals} (e : Webhook.env) (payload : string)
    (sig : option string) : Eff world Http.response :=
  Webhook.stripe e payload sig.

(** POST /api/webhooks/asaas with a JSON body that the parser hands over. *)
Definition asaas (e : Webhook.env) (payload : string) (token : option string)
  : Eff world Http.response :=
  Webhook.asaas e buffer_asaas_body token.

End Server.

(** ** middleware/keycloak.ts *)

Module Keycloak.
Import World.

Record IntrospectionResponse := {
  active : bool;
  sub : option string;
  email : option string;
  preferred_username : option string;
  name : option string;
  realm_roles : option (list string);    (* realm_access?.roles *)
  client_roles : option (list string);   (* resource_access?.[clientId]?.roles *)
}.

Definition getBearerToken (authorization : option string) : option string :=
  if negb (JsString.truthy authorization) then None
  else
    let parts := JsString.split " " (default EmptyString authorization) in
    let type := parts !! 0%nat in
    let token := parts !! 1%nat in
    if (negb (bool_decide (JsString.toLowerCase <$> type = Some "bearer"%string))
        || negb (JsString.truthy token))%bool
    then None
    else JsString.trim <$> token.

(** [answer] is what the introspection endpoint returns; [None] when the
    call fails. *)
Definition introspectToken (answer : option IntrospectionResponse) (token : string)
  : Eff world (option IntrospectionResponse) :=
  data ← request_value (KeycloakIntrospect token) answer;
  if (negb (active data) || negb (JsString.truthy (sub data)))%bool
  then mret None
  else mret (Some data).

(** [Array.from(new Set(l))]: the first occurrence of each element. *)
Fixpoint uniq (seen l : list string) : list string :=
  match l with
  | [] => []
  | x :: l' => if bool_decide (x ∈ seen) then uniq seen l' else x :: uniq (x :: seen) l'
  end.

(** [a || b] on strings that may be undefined. *)
Definition or_else (a : option string) (b : string) : string :=
  if JsString.truthy a then default EmptyString a else b.

Definition user_of (decoded : IntrospectionResponse) : req_user :=
  let allRoles := uniq [] (default [] (realm_roles decoded)
                           ++ default [] (client_roles decoded)) in
  {| id := default EmptyString (sub decoded);
     World.email := or_else (email decoded) EmptyString;
     World.name := or_else (name decoded) (or_else (preferred_username decoded) EmptyString);
     roles := allRoles;
     isAdmin := bool_decide ("admin"%string ∈ allRoles) |}.

(** What the middleware does with the request: it answers it, or it sets
    [req.user] and calls [next()]. *)
Inductive verdict :=
| Respond (r : Http.response)
| Next (u : req_user).

Definition cacheKey (token : string) : string := "auth:v1:" +:+ token.

Definition keycloakMiddleware (authorization : option string)
    (answer : option IntrospectionResponse) : Eff world verdict :=
  try_catch
    (let token := getBearerToken authorization in
     if negb (JsString.truthy token)
     then mret (Respond (Http.error_json 401 "Authorization header missing or invalid"))
     else
         let token := default EmptyString token in
         w ← get_state;
         match auth_cache w !! cacheKey token with
         | Some (parsed, _) =>
             if blocked parsed
             then mret (Respond (Http.error_json 403 "Conta desativada"))
             else mret (Next (user parsed))
         | None =>
             decoded ← introspectToken answer token;
             match decoded with
             | None => mret (Respond (Http.error_json 401 "Invalid or expired token"))
             | Some decoded =>
                 let user := user_of decoded in
                 dbUser ← on_db (Prisma.find Prisma.users
                                   (Prisma.by_id Prisma.User.keycloakId (id user)));
                 let blocked :=
                   bool_decide (is_Some (dbUser ≫= Prisma.User.deletedAt)) in
                 let ttlSeconds := 60%nat in
                 modify (λ w, set_auth_cache
                                (<[cacheKey token :=
                                     ({| World.user := user; World.blocked := blocked |},
                                      ttlSeconds)]> (auth_cache w)) w);;
                 if blocked
                 then mret (Respond (Http.error_json 403 "Conta desativada"))
                 else mret (Next user)
             end
         end)
    (λ _, mret (Respond (Http.error_json 500 "Auth error"))).

End Keycloak.

(** ** routes/user.routes.ts *)

Module Users.
Import World.

Definition profile (u : Prisma.User.t) (admin : bool) : Http.response :=
  Http.json [("id", Http.SStr (Prisma.User.id u));
             ("email", Http.SStr (Prisma.User.email u));
             ("name", from_option Http.SStr Http.SNull (Prisma.User.name u));
             ("credits", Http.SNum (Prisma.User.credits u));
             ("isAdmin", Http.SBool admin);
             ("createdAt", Http.SNum (Prisma.User.createdAt u))].

Definition disabled : Http.response :=
  {| Http.status := 403; Http.body := [("message", Http.SStr "Conta desativada")] |}.

Definition no_email : Http.response :=
  {| Http.status := 400;
     Http.body := [("message",
        Http.SStr "Token não contém email. Verifique scope/mappers no Keycloak.")] |}.

(** GET /me.  [newId] and [now] are the id and the creation time the
    database gives a new row. *)
Definition get_me (req : req_user) (newId : string) (now : Z) : Eff world Http.response :=
  try_catch
    (let keycloakId := id req in
     user ← on_db (Prisma.find Prisma.users
                     (Prisma.by_id Prisma.User.keycloakId keycloakId));
     if bool_decide (is_Some (user ≫= Prisma.User.deletedAt))
     then mret disabled
     else
       match user with
       | Some u => mret (profile u (isAdmin req))
       | None =>
           if negb (JsString.truthy (Some (email req))) then mret no_email
           else
             u ← on_db (Prisma.create_row Prisma.users Prisma.set_users
                          Prisma.User.clash
                          {| Prisma.User.id := newId;
                             Prisma.User.keycloakId := keycloakId;
                             Prisma.User.email := email req;
                             Prisma.User.name := Some (name req);
                             Prisma.User.credits := 3;
                             Prisma.User.deletedAt := None;
                             Prisma.User.createdAt := now |});
             mret (profile u (isAdmin req))
       end)
    (λ _, mret (Http.error_json 500 "Failed to get user profile")).

(** GET /me as compiled in dist/routes/user.routes.js: the same handler
    without the two guards. *)
Definition get_me_dist (req : req_user) (newId : string) (now : Z)
  : Eff world Http.response :=
  try_catch
    (let keycloakId := id req in
     user ← on_db (Prisma.find Prisma.users
                     (Prisma.by_id Prisma.User.keycloakId keycloakId));
     match user with
     | Some u => mret (profile u (isAdmin req))
     | None =>
         u ← on_db (Prisma.create_row Prisma.users Prisma.set_users
                      Prisma.User.clash
                      {| Prisma.User.id := newId;
                         Prisma.User.keycloakId := keycloakId;
                         Prisma.User.email := email req;
                         Prisma.User.name := Some (name req);
                         Prisma.User.credits := 3;
                         Prisma.User.deletedAt := None;
                         Prisma.User.createdAt := now |});
         mret (profile u (isAdmin req))
     end)
    (λ _, mret (Http.error_json 500 "Failed to get user profile")).

(** DELETE /me.  The handler has no [try]: a failure leaves the request
    unanswered. *)
Definition delete_me (k : KeycloakAdmin.outcome) (req : req_user) (now : Z)
  : Eff world Http.response :=
  let keycloakId := id req in
  dbUser ← on_db (Prisma.find Prisma.users
                    (Prisma.by_id Prisma.User.keycloakId keycloakId));
  match dbUser with
  | Some u =>
      if bool_decide (is_Some (Prisma.User.deletedAt u)) then mret tt
      else
        on_db (Prisma.update_row Prisma.users Prisma.set_users
                 (Prisma.by_id Prisma.User.keycloakId keycloakId)
                 (Prisma.User.set_deletedAt (Some now)));; mret tt
  | None => mret tt
  end;;
  KeycloakAdmin.keycloakDisableAndLogoutUser k keycloakId;;
  mret {| Http.status := 200; Http.body := [("message", Http.SStr "Conta desativada")] |}.

End Users.

(** ** routes/auth.routes.ts: logout *)

Module Auth.
Import World.

Definition logged_out : Http.response :=
  Http.json [("message", Http.SStr "Logged out successfully")].

(** POST /logout.  [body] is [req.body] ([None] when there is none, so that
    reading [refreshToken] from it throws) with its [refreshToken] when it
    is a string; [fetch_ok] tells whether the call to the identity provider
    resolves (an HTTP error status resolves too). *)
Definition logout (body : option (option string)) (fetch_ok : bool)
  : Eff world Http.response :=
  try_catch
    (refreshToken ← match body with
                    | Some rt => mret rt
                    | None => throw TypeError
                    end;
     (if JsString.truthy refreshToken
      then request (KeycloakOidcLogout (default EmptyString refreshToken)) fetch_ok
      else mret tt);;
     mret logged_out)
    (λ _, mret logged_out).

End Auth.

(** ** services/password.reset.service.ts and
       services/account.reactivation.service.ts *)

Module Tokens.
Import World.

(** [!id || !secret] *)
Definition missing (id secret : option string) : bool :=
  (negb (JsString.truthy id) || negb (JsString.truthy secret))%bool.

(** The checks both confirmations make on the stored row; [now] is
    [Date.now()]. *)
Definition check_row {S} (record : option Prisma.Token.t) (now : Z)
  : Eff S Prisma.Token.t :=
  match record with
  | None => throw INVALID_TOKEN
  | Some r =>
      if bool_decide (is_Some (Prisma.Token.usedAt r)) then throw INVALID_TOKEN
      else if Prisma.Token.expiresAt r <? now then throw INVALID_TOKEN
      else mret r
  end.

(** [record.user]: the row the token refers to. *)
Definition token_user (r : Prisma.Token.t) : Eff world Prisma.User.t :=
  u ← on_db (Prisma.find Prisma.users
               (Prisma.by_id Prisma.User.id (Prisma.Token.userId r)));
  match u with
  | Some u => mret u
  | None => throw TypeError
  end.

Definition confirmPasswordReset `{Externals} (k : KeycloakAdmin.outcome) (now : Z)
    (token newPassword : string) : Eff world unit :=
  let parts := JsString.split "." token in
  let id := parts !! 0%nat in
  let secret := parts !! 1%nat in
  if missing id secret then throw INVALID_TOKEN
  else
    let id := default EmptyString id in
    let secret := default EmptyString secret in
    record ← on_db (Prisma.find Prisma.passwordResetTokens
                      (Prisma.by_id Prisma.Token.id id));
    record ← check_row record now;
    user ← token_user record;
    if bool_decide (is_Some (Prisma.User.deletedAt user)) then throw INVALID_TOKEN
    else if negb (bcrypt_compare secret (Prisma.Token.tokenHash record))
    then throw INVALID_TOKEN
    else
      on_db (Prisma.update_row Prisma.passwordResetTokens Prisma.set_passwordResetTokens
               (Prisma.by_id Prisma.Token.id (Prisma.Token.id record))
               (Prisma.Token.set_usedAt now));;
      KeycloakAdmin.keycloakResetPassword k (Prisma.User.keycloakId user) newPassword.

(** [prisma.$transaction([...])]: all the writes or none.  [commits] tells
    whether the database carries the transaction out. *)
Definition transaction (commits : bool) (m : Eff Prisma.db unit) : Eff world unit :=
  λ w, if commits
       then match m (db w) with
            | (Ret _, d') => (Ret tt, set_db d' w)
            | (Throw e, _) => (Throw e, w)
            end
       else (Throw UpstreamError, w).

Definition confirmReactivation `{Externals} (k : KeycloakAdmin.outcome) (commits : bool)
    (now : Z) (token : string) : Eff world unit :=
  match decodeURIComponent token with
  | None => throw URIError
  | Some decoded =>
      let raw := JsString.trim decoded in
      match JsString.indexOf "." raw with
      | None | Some O => throw INVALID_TOKEN
      | Some dot =>
          let id := JsString.slice_to dot raw in
          let secret := JsString.slice_from (S dot) raw in
          if missing (Some id) (Some secret) then throw INVALID_TOKEN
          else
            rec ← on_db (Prisma.find Prisma.accountReactivationTokens
                           (Prisma.by_id Prisma.Token.id id));
            rec ← check_row rec now;
            user ← token_user rec;
            if negb (bool_decide (is_Some (Prisma.User.deletedAt user)))
            then throw INVALID_TOKEN
            else if negb (bcrypt_compare secret (Prisma.Token.tokenHash rec))
            then throw INVALID_TOKEN
            else
              KeycloakAdmin.keycloakEnableUser k (Prisma.User.keycloakId user);;
              try_catch
                (transaction commits
                   (Prisma.update_row Prisma.accountReactivationTokens
                      Prisma.set_accountReactivationTokens
                      (Prisma.by_id Prisma.Token.id (Prisma.Token.id rec))
                      (Prisma.Token.set_usedAt now);;
                    Prisma.update_row Prisma.users Prisma.set_users
                      (Prisma.by_id Prisma.User.id (Prisma.User.id user))
                      (Prisma.User.set_deletedAt None);;
                    mret tt))
                (λ _, KeycloakAdmin.keycloakDisableUser k (Prisma.User.keycloakId user))
      end
  end.

End Tokens.

(** ** The backend as a transition system *)

Module System.
Import World.

(** The credit balance of the user with primary key [userId]. *)
Definition balance (w : world) (userId : string) : option Z :=
  Prisma.User.credits <$>
    Prisma.findUnique (Prisma.by_id Prisma.User.id userId) (Prisma.users (db w)).

(** What the schema and the routes keep true of the stored rows: primary
    keys of users are unique, no balance is negative, and no order grants
    a negative number of credits. *)
Record consistent (w : world) : Prop := {
  user_ids_unique : NoDup (Prisma.User.id <$> Prisma.users (db w));
  credits_nonneg : Forall (λ u, 0 ≤ Prisma.User.credits u) (Prisma.users (db w));
  order_credits_nonneg :
    Forall (λ o, 0 ≤ Webhook.order_credits o) (Prisma.orders (db w));
}.

(** No balance is lower in [w'] than in [w]. *)
Definition never_decreases (w w' : world) : Prop :=
  ∀ userId c, balance w userId = Some c →
    ∃ c', balance w' userId = Some c' ∧ c ≤ c'.

(** The requests that write to the users or to the orders, each handled
    in one piece. *)
Inductive op :=
| GetMe (req : req_user) (newId : string) (now : Z)
| DeleteMe (k : KeycloakAdmin.outcome) (req : req_user) (now : Z)
| Start (req : Transform.start_request) (jobId : string)
| Purchase (req : Payment.purchase_request) (orderId : string)
    (payment : option (string * string))
| StripeWebhook (payload : string) (sig : option string)
| AsaasWebhook (body : Webhook.asaas_body) (token : option string)
| AddCredits (user : option req_user) (userId : string) (amount : Admin.amount_value).

Definition run `{Externals} (e : Webhook.env) (o : op) (w : world) : world :=
  match o with
  | GetMe req newId now => (Users.get_me req newId now w).2
  | DeleteMe k req now => (Users.delete_me k req now w).2
  | Start req jobId => (Transform.start req jobId w).2
  | Purchase req orderId payment => (Payment.purchase req orderId payment w).2
  | StripeWebhook payload sig => (Webhook.stripe e payload sig w).2
  | AsaasWebhook body token => (Webhook.asaas e body token w).2
  | AddCredits user userId amount => (Admin.add_credits user userId amount w).2
  end.

End System.

(** ** An instance of the external functions, and sample rows, for
       evaluating the model on concrete requests *)

Module Sample.

(** The digest of a message is the message itself, a stored hash matches
    the secret it spells, and a Stripe payload is the order id of a
    completed checkout, accepted when the header spells the secret. *)
#[local] Instance externals : Externals := {|
  bcrypt_compare secret hash := String.eqb secret hash;
  hmac_sha256_hex key text := text;
  json_text body := match body !! "jobId" with
                    | Some (Js.Str s) => s
                    | _ => EmptyString
                    end;
  stripe_constructEvent payload header secret :=
    if bool_decide (header = secret ∧ is_Some secret)
    then Some (checkout_session_completed (Some payload))
    else None;
  decodeURIComponent s := Some s;
|}.

Definition env : Webhook.env :=
  {| Webhook.N8N_WEBHOOK_SECRET := Some "n8n-secret";
     Webhook.STRIPE_WEBHOOK_SECRET := Some "whsec";
     Webhook.ASAAS_WEBHOOK_TOKEN := Some "asaas-token" |}.

Definition alice (credits : Z) (deletedAt : option Z) : Prisma.User.t :=
  {| Prisma.User.id := "u1"; Prisma.User.keycloakId := "kc1";
     Prisma.User.email := "alice@example.com"; Prisma.User.name := Some "Alice";
     Prisma.User.credits := credits; Prisma.User.deletedAt := deletedAt;
     Prisma.User.createdAt := 1000 |}.

Definition alice_req : World.req_user :=
  {| World.id := "kc1"; World.email := "alice@example.com"; World.name := "Alice";
     World.roles := ["user"]; World.isAdmin := false |}.

Definition order1 : Prisma.Order.t :=
  {| Prisma.Order.id := "o1"; Prisma.Order.userId := "u1";
     Prisma.Order.type := "credits"; Prisma.Order.status := "pending";
     Prisma.Order.amount := 1990; Prisma.Order.currency := "BRL";
     Prisma.Order.metadata_credits := Some 10;
     Prisma.Order.paymentProvider := Some "asaas";
     Prisma.Order.paymentId := Some "pay_1" |}.

Definition token1 : Prisma.Token.t :=
  {| Prisma.Token.id := "t1"; Prisma.Token.userId := "u1";
     Prisma.Token.tokenHash := "s3cr3t"; Prisma.Token.expiresAt := 5000;
     Prisma.Token.usedAt := None |}.

(** The body of the Asaas notification that confirms the payment of
    [order1], as JSON text:
    [{event: 'PAYMENT_CONFIRMED', payment: {externalReference: 'o1'}}]. *)
Definition asaas_confirmation : string :=
  let q := Server.quote in
  "{" +:+ q +:+ "event" +:+ q +:+ ":" +:+ q +:+ "PAYMENT_CONFIRMED" +:+ q +:+ ","
  +:+ q +:+ "payment" +:+ q +:+ ":{" +:+ q +:+ "externalReference" +:+ q +:+ ":"
  +:+ q +:+ "o1" +:+ q +:+ "}}".

(** A store with one user, one pending order of ten credits, and one
    unused token of each kind. *)
Definition world_with (u : Prisma.User.t) : World.world :=
  World.set_db
    {| Prisma.users := [u]; Prisma.subscriptions := []; Prisma.orders := [order1];
       Prisma.transformations := [];
       Prisma.passwordResetTokens := [token1];
       Prisma.accountReactivationTokens := [token1] |}
    World.empty_world.

End Sample.

(** ** services/redis.service.ts: deleting, sessions, rate limiting,
       connecting *)

Module RedisSessions.
Import Js Redis.

(** [DEL key] removes the key whatever it holds. *)
Definition del (key : string) : Eff redis unit :=
  modify (λ r, {| kv := delete key (kv r); lists := delete key (lists r);
                  published := published r |}).

Definition deleteCache (key : string) : Eff redis unit := del key.

Definition session_key (sessionId : string) : string := "session:" +:+ sessionId.

(** [expireSeconds] defaults to 86400 (24 hours) when the argument is omitted. *)
Definition storeSession (sessionId : string) (data : obj) (expireSeconds : option nat)
  : Eff redis unit :=
  setCache (session_key sessionId) data (Some (default (24 * 3600)%nat expireSeconds)).

Definition getSession (sessionId : string) : Eff redis (option obj) :=
  getCache (session_key sessionId).

Definition deleteSession (sessionId : string) : Eff redis unit :=
  deleteCache (session_key sessionId).

End RedisSessions.

Module RateLimit.

(** The integer keys of the store: a counter and, when the key has a time
    to live, the time at which it expires, in milliseconds on the clock of
    the Redis server.  The keys given to [checkRateLimit] are taken to hold
    no serialised object and no list ([INCR] fails on those); the limit and
    the window are whole numbers; the replies are JavaScript numbers, exact
    up to 2^53. *)
Abbreviation counters := (gmap string (Z * option Z)).

(** What a command run at time [t] finds under [key]: a key is gone once
    the clock has passed its expiry time. *)
Definition live (t : Z) (c : counters) (key : string) : option (Z * option Z) :=
  match c !! key with
  | Some (n, Some d) => if d <? t then None else Some (n, Some d)
  | x => x
  end.




(** [TTL key] at time [t]: -2 for a missing key, -1 for a key without time
    to live, and otherwise the time left, rounded to the nearest second. *)
Definition ttl (key : string) (t : Z) : Eff counters Z :=
  λ c, (Ret match live t c key with
            | None => -2
            | Some (_, None) => -1
            | Some (_, Some d) => (d - t + 500) / 1000
            end, c).

Record verdict := {
  allowed : bool;
  remaining : Z;
  resetAt : Z;
}.





End RateLimit.

Module RedisConnect.

Inductive settlement :=
| Resolved
| Rejected (err : string).

Inductive event :=
| Ready
| Error (err : string)
| Timeout.

(** The closure of [connectRedis]: the [done] flag, whether the two
    listeners are still attached to the client, and every call made to
    [resolve] or [reject], oldest first. *)
Record state := {
  done : bool;
  attached : bool;
  settlements : list settlement;
}.

Definition initial : state := {| done := false; attached := true; settlements := [] |}.

(** [optional]: REDIS_OPTIONAL is "true" or NODE_ENV is not "production". *)
Definition optional (REDIS_OPTIONAL NODE_ENV : option string) : bool :=
  (bool_decide (REDIS_OPTIONAL = Some "true"%string)
   || negb (bool_decide (NODE_ENV = Some "production"%string)))%bool.

Definition finishOk (s : state) : state :=
  if done s then s
  else {| done := true; attached := false; settlements := settlements s ++ [Resolved] |}.

Definition finishFail (opt : bool) (err : string) (s : state) : state :=
  if done s then s
  else {| done := true; attached := false;
          settlements := settlements s ++ [if opt then Resolved else Rejected err] |}.

(** One event: the client emits 'ready' or 'error' (heard only while the
    listeners are attached), or the timer fires. *)
Definition step (opt : bool) (s : state) (e : event) : state :=
  match e with
  | Ready => if attached s then finishOk s else s
  | Error err => if attached s then finishFail opt err s else s
  | Timeout => finishFail opt "Redis connect timeout" s
  end.

Definition run (opt : bool) (events : list event) : state :=
  foldl (step opt) initial events.

End RedisConnect.

(** ** websocket-server.ts *)

(** [jwt.verify(token, JWT_SECRET)]: the [sub] claim and the realm roles of
    a token that verifies, [None] when it throws. *)
Class JwtVerifier := {
  jwt_verify : string → option (string * option (list string));
}.

Module WebSocketServer.
Import Js.

(** What the server writes to a socket. *)
Inductive frame :=
| Connected (userId role : string) (timestamp : Z)
| Pong (timestamp : Z)
| Relayed (type : string) (payload : json).

(** Sockets are numbered.  [clients] is the map from user ids to sets of
    sockets, a set being the list of its elements in insertion order;
    [open] holds the sockets whose [readyState] is OPEN; [sent] and
    [closed] record the calls to [ws.send] and [ws.close], oldest first. *)
Record server := {
  clients : gmap string (list nat);
  open : gset nat;
  sent : list (nat * frame);
  closed : list (nat * Z * string);
}.

Definition initial : server :=
  {| clients := ∅; open := ∅; sent := []; closed := [] |}.

Definition authenticateToken `{JwtVerifier} (token : string) : option (string * string) :=
  match jwt_verify token with
  | Some (sub, realm_roles) =>
      let roles := default [] realm_roles in
      let role := if bool_decide ("admin"%string ∈ roles) then "admin" else "user" in
      Some (sub, role%string)
  | None => None
  end.

(** [set.add(ws)] and [set.delete(ws)] *)
Definition set_add (ws : nat) (l : list nat) : list nat :=
  if bool_decide (ws ∈ l) then l else l ++ [ws].

Definition set_delete (ws : nat) (l : list nat) : list nat :=
  filter (λ x, x ≠ ws) l.

Definition ws_close (ws : nat) (code : Z) (reason : string) (s : server) : server :=
  {| clients := clients s; open := open s ∖ {[ws]}; sent := sent s;
     closed := closed s ++ [(ws, code, reason)] |}.

Definition ws_send (ws : nat) (f : frame) (s : server) : server :=
  {| clients := clients s; open := open s; sent := sent s ++ [(ws, f)];
     closed := closed s |}.

(** The 'connection' handler, for a socket [ws] that has just opened.
    [token] is the [token] parameter of the request URL. *)
Definition on_connection `{JwtVerifier} (ws : nat) (token : option string) (now : Z)
    (s : server) : server :=
  let s := {| clients := clients s; open := open s ∪ {[ws]}; sent := sent s;
              closed := closed s |} in
  if negb (JsString.truthy token) then ws_close ws 4001 "Authentication required" s
  else
    match authenticateToken (default EmptyString token) with
    | None => ws_close ws 4002 "Invalid token" s
    | Some (userId, role) =>
        let set := default [] (clients s !! userId) in
        ws_send ws (Connected userId role now)
          {| clients := <[userId := set_add ws set]> (clients s); open := open s;
             sent := sent s; closed := closed s |}
    end.

(** The 'close' handler that the connection of [ws] as [userId] installed. *)
Definition on_close (ws : nat) (userId : string) (s : server) : server :=
  let s := {| clients := clients s; open := open s ∖ {[ws]}; sent := sent s;
              closed := closed s |} in
  match clients s !! userId with
  | None => s
  | Some set =>
      let set' := set_delete ws set in
      {| clients := match set' with
                    | [] => delete userId (clients s)
                    | _ => <[userId := set']> (clients s)
                    end;
         open := open s; sent := sent s; closed := closed s |}
  end.

(** [handleClientMessage], for a message of the given type. *)
Definition handleClientMessage (ws : nat) (type : string) (now : Z) (s : server)
  : server :=
  if String.eqb type "ping" then ws_send ws (Pong now) s else s.

(** [userId] is undefined when the event carries none. *)
Definition sendToUser (userId : option string) (message : frame) (s : server) : server :=
  match userId ≫= (λ u, clients s !! u) with
  | Some userClients =>
      {| clients := clients s; open := open s;
         sent := sent s ++ ((λ ws, (ws, message)) <$>
                            filter (λ ws, ws ∈ open s) userClients);
         closed := closed s |}
  | None => s
  end.

Definition channels : list string :=
  ["transformation:complete"; "order:update"; "notification"].

(** The function given to [redisSubscriber.subscribe] for [channel],
    applied to a parsed message.  The client is ioredis, which takes that
    function as the callback of the SUBSCRIBE command: it is called once,
    with [(null, count)], when the subscription is set up (there is no
    [userId] to read from [null], the body throws inside its own [try] and
    nothing is sent), and the server installs no 'message' listener, so
    no published message is handed to it.  The [ChannelMessage] step below
    applies it to any message all the same: the runs of the model include
    those of the server. *)
Definition on_channel_message (channel : string) (message : json) (s : server) : server :=
  if bool_decide (channel ∈ channels)
  then sendToUser (message !! "userId") (Relayed channel message) s
  else s.

Inductive event :=
| Connection (ws : nat) (token : option string) (now : Z)
| Close (ws : nat) (userId : string)
| Closing (ws : nat)                      (* the socket leaves the OPEN state *)
| ClientMessage (ws : nat) (type : string) (now : Z)
| ChannelMessage (channel : string) (message : json).

Definition step `{JwtVerifier} (s : server) (e : event) : server :=
  match e with
  | Connection ws token now => on_connection ws token now s
  | Close ws userId => on_close ws userId s
  | Closing ws => {| clients := clients s; open := open s ∖ {[ws]}; sent := sent s;
                     closed := closed s |}
  | ClientMessage ws type now => handleClientMessage ws type now s
  | ChannelMessage channel message => on_channel_message channel message s
  end.

Definition run `{JwtVerifier} (events : list event) : server :=
  foldl step initial events.

(** [ws] has presented, in [events], a token that verifies for [userId]. *)
Definition authenticated_as `{JwtVerifier} (events : list event) (ws : nat)
    (userId : string) : Prop :=
  ∃ token now role,
    Connection ws (Some token) now ∈ events
    ∧ authenticateToken token = Some (userId, role).

(** The registry holds no empty set and no socket twice. *)
Definition tidy (s : server) : Prop :=
  ∀ userId set, clients s !! userId = Some set → set ≠ [] ∧ NoDup set.

(** Every registered socket, and every socket that was sent a relayed
    event, has authenticated as the user concerned. *)
Definition sound `{JwtVerifier} (events : list event) (s : server) : Prop :=
  (∀ u set ws, clients s !! u = Some set → ws ∈ set → authenticated_as events ws u)
  ∧ (∀ ws channel message, (ws, Relayed channel message) ∈ sent s →
       ∃ u, message !! "userId" = Some u ∧ authenticated_as events ws u).

End WebSocketServer.

(** A verifier for evaluating the server on examples: the token ["jwt-" ++ u]
    verifies for user [u], without roles. *)
Module SampleJwt.

#[local] Instance verifier : JwtVerifier := {|
  jwt_verify token :=
    if String.prefix "jwt-" token
    then Some (JsString.slice_from 4 token, None)
    else None;
|}.

End SampleJwt.

(** ** routes/transform.routes.ts: the status of a job *)

Module TransformStatus.
Import World.

Inductive answer :=
| Cached (record : Js.obj)                 (* 200, the cached record as it is *)
| Stored (t : Prisma.Transformation.t)     (* 200, the selected fields of the row *)
| NotFound                                 (* 404 'Transformation not found' *)
| Failed.                                  (* 500 *)

(** [where: { id: jobId, user: { keycloakId: userId } }] *)
Definition owned_by (users : list Prisma.User.t) (jobId userId : string)
    (t : Prisma.Transformation.t) : bool :=
  (String.eqb (Prisma.Transformation.id t) jobId
   && existsb (λ u, String.eqb (Prisma.User.id u) (Prisma.Transformation.userId t)
                    && String.eqb (Prisma.User.keycloakId u) userId)
              users)%bool.

(** GET /status/:jobId.  [userId] is [req.user.id]. *)
Definition get_status (userId jobId : string) : Eff world answer :=
  try_catch
    (redisStatus ← on_redis (Redis.getTransformationStatus jobId);
     match redisStatus with
     | Some record => mret (Cached record)
     | None =>
         w ← get_state;
         transformation ← on_db (Prisma.find Prisma.transformations
                                   (owned_by (Prisma.users (db w)) jobId userId));
         match transformation with
         | None => mret NotFound
         | Some t => mret (Stored t)
         end
     end)
    (λ _, mret Failed).

End TransformStatus.

Module SampleJob.

Definition row : Prisma.Transformation.t :=
  {| Prisma.Transformation.id := "job-1"; Prisma.Transformation.userId := "u1";
     Prisma.Transformation.style := "neon"; Prisma.Transformation.status := "pending";
     Prisma.Transformation.inputImageData := "aGk=";
     Prisma.Transformation.outputImageUrl := None;
     Prisma.Transformation.errorMessage := None;
     Prisma.Transformation.completedAt := None |}.

(** A store with one user and one pending job of that user, not cached. *)
Definition world : World.world :=
  World.set_db
    {| Prisma.users := [Sample.alice 3 None]; Prisma.subscriptions := [];
       Prisma.orders := []; Prisma.transformations := [row];
       Prisma.passwordResetTokens := []; Prisma.accountReactivationTokens := [] |}
    World.empty_world.

End SampleJob.

(** ** middleware/keycloak.ts: optional authentication and the role check *)

Module KeycloakGuards.
Import World Keycloak.

(** [optionalAuth].  It never answers the request: every branch ends in
    [next()].  The result is [req.user] as the handler finds it;
    [req_user0] is [req.user] as the middleware found it. *)
Definition optionalAuth (authorization : option string)
    (answer : option IntrospectionResponse) (req_user0 : option req_user)
  : Eff world (option req_user) :=
  try_catch
    (let token := getBearerToken authorization in
     if negb (JsString.truthy token) then mret req_user0
     else
       decoded ← introspectToken answer (default EmptyString token);
       match decoded with
       | None => mret req_user0
       | Some decoded => mret (Some (user_of decoded))
       end)
    (λ _, mret req_user0).

(** What a middleware has done when its promise settles: whether it has
    called [next()] (and with which [req.user]), and the answers it has
    sent, in order. *)
Record passage := {
  next_called : option (option req_user);
  responses : list Http.response;
}.

(** [options.requiredRoles.some(role => req.user.roles.includes(role))] *)
Definition has_some_role (requiredRoles : list string) (u : req_user) : bool :=
  existsb (λ role, bool_decide (role ∈ roles u)) requiredRoles.

(** The middleware made by [keycloakMiddlewareWithRoles(options)]: it
    awaits [keycloakMiddleware], which has called [next()] itself when it
    accepts the token, and looks at the roles afterwards. *)
Definition keycloakMiddlewareWithRoles (requiredRoles : list string)
    (authorization : option string) (answer : option IntrospectionResponse)
    (req_user0 : option req_user) : Eff world passage :=
  v ← keycloakMiddleware authorization answer;
  let first := match v with
               | Next u => {| next_called := Some (Some u); responses := [] |}
               | Respond r => {| next_called := None; responses := [r] |}
               end in
  let req_user := match v with Next u => Some u | Respond _ => req_user0 end in
  match req_user with
  | Some u =>
      if negb (has_some_role requiredRoles u)
      then mret {| next_called := next_called first;
                   responses := responses first
                                ++ [Http.error_json 403 "Insufficient permissions"] |}
      else mret first
  | None => mret first
  end.

End KeycloakGuards.

(** ** routes/payment.routes.ts: cancelling a subscription *)

Module Subscriptions.
Import World.

(** [data: { cancelAtPeriodEnd: true }] *)
Definition cancel_at_period_end (x : Prisma.Subscription.t) : Prisma.Subscription.t :=
  Prisma.Subscription.set_period (Prisma.Subscription.status x) true
    (Prisma.Subscription.currentPeriodEnd x) x.

(** POST /subscription/cancel.  [user.subscription] is the row whose
    [userId] is the user's primary key. *)
Definition cancel (user_id : string) : Eff world Http.response :=
  try_catch
    (user ← on_db (Prisma.find Prisma.users
                     (Prisma.by_id Prisma.User.keycloakId user_id));
     subscription ← match user with
                    | Some u =>
                        on_db (Prisma.find Prisma.subscriptions
                                 (Prisma.by_id Prisma.Subscription.userId
                                               (Prisma.User.id u)))
                    | None => mret None
                    end;
     match subscription with
     | None => mret (Http.error_json 404 "No active subscription found")
     | Some s =>
         on_db (Prisma.update_row Prisma.subscriptions Prisma.set_subscriptions
                  (Prisma.by_id Prisma.Subscription.id (Prisma.Subscription.id s))
                  cancel_at_period_end);;
         mret (Http.json
                 [("message",
                   Http.SStr "Subscription will be cancelled at the end of the current period");
                  ("cancelAt", Http.SNum (Prisma.Subscription.currentPeriodEnd s))])
     end)
    (λ _, mret (Http.error_json 500 "Failed to cancel subscription")).

End Subscriptions.

(** ** routes/admin.routes.ts: reactivating a user *)

Module AdminUsers.
Import World.

Definition reactivated : Http.response :=
  {| Http.status := 200; Http.body := [("message", Http.SStr "Usuário reativado")] |}.

Definition reactivation_failed : Http.response :=
  {| Http.status := 500;
     Http.body := [("message", Http.SStr "Falha ao reativar usuário")] |}.

(** POST /users/:keycloakId/reactivate, behind the [adminOnly] guard of the
    router: the row first, Keycloak second. *)
Definition reactivate (k : KeycloakAdmin.outcome) (user : option req_user)
    (keycloakId : string) : Eff world Http.response :=
  if negb (from_option isAdmin false user)
  then mret (Http.error_json 403 "Admin access required")
  else
    try_catch
      (on_db (Prisma.update_row Prisma.users Prisma.set_users
                (Prisma.by_id Prisma.User.keycloakId keycloakId)
                (Prisma.User.set_deletedAt None));;
       KeycloakAdmin.keycloakEnableUser k keycloakId;;
       mret reactivated)
      (λ _, mret reactivation_failed).

End AdminUsers.

(** ** services/password.reset.service.ts and
       services/account.reactivation.service.ts: requesting a token;
       routes/auth.routes.ts: the two request routes *)

(** [encodeURIComponent], left abstract. *)
Class UriEncoder := {
  encodeURIComponent : string → string;
}.

Module TokenRequests.
Import World.

(** What [sendMail] is given.  The HTML body is a fixed text around the
    link. *)
Record mail := {
  to : string;
  subject : string;
  link : string;
}.

(** The backend together with the mails handed to [sendMail]. *)
Record state := {
  world : World.world;
  outbox : list mail;
}.

Definition set_world (w : World.world) (s : state) : state :=
  {| world := w; outbox := outbox s |}.

Definition on_world {A} (m : Eff World.world A) : Eff state A := zoom world set_world m.

(** [sendMail]: it rejects when the mail provider does. *)
Definition sendMail (mail_ok : bool) (m : mail) : Eff state unit :=
  λ s, (if mail_ok then Ret tt else Throw UpstreamError,
        {| world := world s; outbox := outbox s ++ [m] |}).

(** What a request draws from outside: [crypto.randomBytes(32)] in hex,
    its [bcrypt.hash], the id the database gives the new row, and
    [Date.now()]. *)
Record draw := {
  secret : string;
  tokenHash : string;
  newId : string;
  now : Z;
}.

(** [base.replace(/\/$/, "")] *)
Fixpoint strip_trailing_slash (s : string) : string :=
  match s with
  | EmptyString => EmptyString
  | String a EmptyString => if Ascii.eqb a "/" then EmptyString else s
  | String a s' => String a (strip_trailing_slash s')
  end.

Definition base (FRONTEND_URL : option string) : string :=
  strip_trailing_slash (Keycloak.or_else FRONTEND_URL "http://localhost:3000").

Definition buildResetLink `{UriEncoder} (FRONTEND_URL : option string) (token : string)
  : string :=
  base FRONTEND_URL +:+ "/reset-password?token=" +:+ encodeURIComponent token.

Definition buildLink `{UriEncoder} (FRONTEND_URL : option string) (token : string)
  : string :=
  base FRONTEND_URL +:+ "/reactivate?token=" +:+ encodeURIComponent token.

(** [nowPlusMinutes(30)], in milliseconds. *)
Definition TTL_MINUTES : Z := 30.
Definition nowPlusMinutes (now minutes : Z) : Z := now + minutes * 60 * 1000.

Definition by_email (emailNorm : string) : Prisma.User.t → bool :=
  λ u, String.eqb (Prisma.User.email u) emailNorm.

Definition new_token (d : draw) (u : Prisma.User.t) : Prisma.Token.t :=
  {| Prisma.Token.id := newId d; Prisma.Token.userId := Prisma.User.id u;
     Prisma.Token.tokenHash := tokenHash d;
     Prisma.Token.expiresAt := nowPlusMinutes (now d) TTL_MINUTES;
     Prisma.Token.usedAt := None |}.

Definition token_clash (x y : Prisma.Token.t) : bool :=
  String.eqb (Prisma.Token.id x) (Prisma.Token.id y).

Definition requestPasswordReset `{UriEncoder} (FRONTEND_URL : option string) (d : draw)
    (mail_ok : bool) (email : string) : Eff state unit :=
  let emailNorm := JsString.toLowerCase (JsString.trim email) in
  user ← on_world (on_db (Prisma.find Prisma.users (by_email emailNorm)));
  match user with
  | None => mret tt
  | Some u =>
      if bool_decide (is_Some (Prisma.User.deletedAt u)) then mret tt
      else
        record ← on_world (on_db
          (Prisma.create_row Prisma.passwordResetTokens Prisma.set_passwordResetTokens
             token_clash (new_token d u)));
        let token := Prisma.Token.id record +:+ "." +:+ secret d in
        sendMail mail_ok {| to := emailNorm; subject := "Redefinição de senha";
                            link := buildResetLink FRONTEND_URL token |}
  end.

Definition requestReactivation `{UriEncoder} (FRONTEND_URL : option string) (d : draw)
    (mail_ok : bool) (email : string) : Eff state unit :=
  let emailNorm := JsString.toLowerCase (JsString.trim email) in
  user ← on_world (on_db (Prisma.find Prisma.users (by_email emailNorm)));
  match user with
  | None => mret tt
  | Some u =>
      if negb (bool_decide (is_Some (Prisma.User.deletedAt u))) then mret tt
      else
        rec ← on_world (on_db
          (Prisma.create_row Prisma.accountReactivationTokens
             Prisma.set_accountReactivationTokens token_clash (new_token d u)));
        let token := Prisma.Token.id rec +:+ "." +:+ secret d in
        sendMail mail_ok {| to := emailNorm; subject := "Reativação de conta";
                            link := buildLink FRONTEND_URL token |}
  end.

Definition reset_requested : Http.response :=
  {| Http.status := 200;
     Http.body := [("message", Http.SStr
       "Se o email existir, você receberá instruções para redefinir a senha.")] |}.

Definition reactivation_requested : Http.response :=
  {| Http.status := 200;
     Http.body := [("message", Http.SStr
       "Se o email existir, enviaremos instruções de reativação.")] |}.

(** POST /password-reset.  [body_email] is [req.body.email] when the schema
    accepts the body; the schema is parsed outside the [try]. *)
Definition password_reset `{UriEncoder} (FRONTEND_URL : option string) (d : draw)
    (mail_ok : bool) (body_email : option string) : Eff state Http.response :=
  match body_email with
  | None => throw ZodError
  | Some email =>
      try_catch (requestPasswordReset FRONTEND_URL d mail_ok email) (λ _, mret tt);;
      mret reset_requested
  end.

(** POST /reactivate-request *)
Definition reactivate_request `{UriEncoder} (FRONTEND_URL : option string) (d : draw)
    (mail_ok : bool) (body_email : option string) : Eff state Http.response :=
  match body_email with
  | None => throw ZodError
  | Some email =>
      try_catch (requestReactivation FRONTEND_URL d mail_ok email) (λ _, mret tt);;
      mret reactivation_requested
  end.

End TokenRequests.

(** ** routes/payment.routes.ts: subscribing *)

Module Subscribe.
Import World.

Record plan_info := {
  monthlyBRL : Z;
  yearlyBRL : Z;
  monthlyEUR : Z;
  yearlyEUR : Z;
  transformations : Z;
}.

Definition SUBSCRIPTION_PLANS (plan : string) : option plan_info :=
  if String.eqb plan "basic"
  then Some {| monthlyBRL := 2990; yearlyBRL := 28710; monthlyEUR := 790;
               yearlyEUR := 7580; transformations := 20 |}
  else if String.eqb plan "pro"
  then Some {| monthlyBRL := 5990; yearlyBRL := 57510; monthlyEUR := 1490;
               yearlyEUR := 14310; transformations := 50 |}
  else if String.eqb plan "premium"
  then Some {| monthlyBRL := 9990; yearlyBRL := 95910; monthlyEUR := 2490;
               yearlyEUR := 23910; transformations := -1 |}
  else None.

Record subscribe_request := {
  body_plan : option string;          (* req.body.plan *)
  body_billingCycle : option string;  (* req.body.billingCycle *)
  body_region : option string;        (* req.body.region *)
  user_id : string;                   (* req.user.id *)
}.

Record parsed := {
  plan : string;
  planInfo : plan_info;
  billingCycle : string;
  region : string;
}.

(** [subscribeSchema.parse(req.body)] *)
Definition parse_subscribe {S} (req : subscribe_request) : Eff S parsed :=
  match body_plan req, body_billingCycle req, body_region req with
  | Some p, Some c, Some r =>
      match SUBSCRIPTION_PLANS p with
      | Some info =>
          if (bool_decide (c ∈ ["monthly"; "yearly"]%string)
              && bool_decide (r ∈ ["BR"; "PT"]%string))%bool
          then mret {| plan := p; planInfo := info; billingCycle := c; region := r |}
          else throw ZodError
      | None => throw ZodError
      end
  | _, _, _ => throw ZodError
  end.

(** What the route hands to [createAsaasSubscription] or to
    [createStripeSubscription] (the two redirect addresses of the latter
    are left out). *)
Record SubscriptionRequest := {
  userId : string;
  request_plan : string;
  request_billingCycle : string;
  amount : Z;
  customerEmail : string;
  customerName : option string;
}.

Definition amount_of (p : parsed) : Z :=
  let isYearly := String.eqb (billingCycle p) "yearly" in
  if String.eqb (region p) "BR"
  then (if isYearly then yearlyBRL (planInfo p) else monthlyBRL (planInfo p))
  else (if isYearly then yearlyEUR (planInfo p) else monthlyEUR (planInfo p)).

Definition request_of (p : parsed) (u : Prisma.User.t) : SubscriptionRequest :=
  {| userId := Prisma.User.id u; request_plan := plan p;
     request_billingCycle := billingCycle p; amount := amount_of p;
     customerEmail := Prisma.User.email u; customerName := Prisma.User.name u |}.

Definition already_subscribed : Http.response :=
  {| Http.status := 400;
     Http.body := [("error", Http.SStr "Already subscribed");
                   ("message", Http.SStr
                      "Please cancel current subscription before subscribing to a new plan")] |}.

(** POST /subscribe.  [provider isBR request] is what the provider of the
    region answers (the subscription id and the payment address), [None]
    when the call fails. *)
Definition subscribe (req : subscribe_request)
    (provider : bool → SubscriptionRequest → option (string * string))
  : Eff world Http.response :=
  try_catch
    (p ← parse_subscribe req;
     user ← on_db (Prisma.find Prisma.users
                     (Prisma.by_id Prisma.User.keycloakId (user_id req)));
     match user with
     | None => mret (Http.error_json 404 "User not found")
     | Some u =>
         subscription ← on_db (Prisma.find Prisma.subscriptions
                                 (Prisma.by_id Prisma.Subscription.userId
                                               (Prisma.User.id u)));
         if Transform.has_active_subscription subscription
         then mret already_subscribed
         else
           match provider (String.eqb (region p) "BR") (request_of p u) with
           | Some (subscriptionId, paymentUrl) =>
               mret (Http.json [("subscriptionId", Http.SStr subscriptionId);
                                ("paymentUrl", Http.SStr paymentUrl)])
           | None => throw UpstreamError
           end
     end)
    (λ e, match e with
          | ZodError => mret (Http.error_json 400 "Validation error")
          | _ => mret (Http.error_json 500 "Failed to create subscription")
          end).

End Subscribe.

(** ** The requests served on the backend state *)

Module Backend.
Import World.

Inductive incoming :=
| Core (o : System.op)
| Authenticate (authorization : option string)
    (answer : option Keycloak.IntrospectionResponse)
| JobStatus (userId jobId : string)
| WorkflowCallback (body : Js.obj) (signature : option string) (now : Z)
| WorkflowCallbackJson (payload : string) (signature : option string) (now : Z)
| StartArrives (req : Transform.start_request)
| StartGoesOn (req : Transform.start_request) (jobId : string)
    (p : Transform.start_pending)
| SubscribeTo (req : Subscribe.subscribe_request)
    (provider : bool → Subscribe.SubscriptionRequest → option (string * string))
| CancelSubscription (user_id : string)
| AdminReactivate (k : KeycloakAdmin.outcome) (user : option req_user)
    (keycloakId : string)
| ConfirmPasswordReset (k : KeycloakAdmin.outcome) (now : Z) (token newPassword : string)
| ConfirmReactivation (k : KeycloakAdmin.outcome) (commits : bool) (now : Z)
    (token : string).

Definition serve `{Externals} (e : Webhook.env) (r : incoming) (w : world) : world :=
  match r with
  | Core o => System.run e o w
  | Authenticate authorization answer =>
      (Keycloak.keycloakMiddleware authorization answer w).2
  | JobStatus userId jobId => (TransformStatus.get_status userId jobId w).2
  | WorkflowCallback body signature now =>
      (Webhook.n8n_transformation_complete e body signature now w).2
  | WorkflowCallbackJson payload signature now =>
      (Server.n8n e payload signature now w).2
  | StartArrives req => (Transform.start_check req w).2
  | StartGoesOn req jobId p => (Transform.start_finish req jobId p w).2
  | SubscribeTo req provider => (Subscribe.subscribe req provider w).2
  | CancelSubscription user_id => (Subscriptions.cancel user_id w).2
  | AdminReactivate k user keycloakId => (AdminUsers.reactivate k user keycloakId w).2
  | ConfirmPasswordReset k now token newPassword =>
      (Tokens.confirmPasswordReset k now token newPassword w).2
  | ConfirmReactivation k commits now token =>
      (Tokens.confirmReactivation k commits now token w).2
  end.

(** The columns of a subscription that identify the row and its owner. *)
Definition subscription_key (s : Prisma.Subscription.t)
  : string * string * option string :=
  (Prisma.Subscription.id s, Prisma.Subscription.userId s,
   Prisma.Subscription.stripeSubscriptionId s).

Definition subscription_keys (d : Prisma.db) : list (string * string * option string) :=
  subscription_key <$> Prisma.subscriptions d.

(** A computation keeps an observation [K] of its state when the state it
    ends in, whether it returns or throws, has the observation it started
    with. *)
Definition keeps {S T A} (K : S → T) (m : Eff S A) : Prop :=
  ∀ s, K (m s).2 = K s.

End Backend.

(* ===================================================================== *)
(** * Part II: properties                                                 *)
(* ===================================================================== *)

Section RedisProperties.
Import Js Redis.

Lemma spread_lookup_more (base more : obj) k v :
  more !! k = Some v → spread base more !! k = Some v.
Proof. intros H. unfold spread. by apply lookup_union_Some_l. Qed.

Lemma spread_lookup_base (base more : obj) k :
  more !! k = None → spread base more !! k = base !! k.
Proof. intros H. unfold spread. by rewrite lookup_union_r. Qed.

Lemma merged_record_status existing status :
  ∀ result, result_obj result !! "status" = None →
  merged_record existing status result !! "status" = Some (Str (status_str status)).
Proof.
  intros result H. unfold merged_record.
  rewrite spread_lookup_base by done. apply lookup_insert_eq.
Qed.

Lemma merged_record_keeps existing status result k :
  k ≠ "status" → result_obj result !! k = None →
  merged_record existing status result !! k = existing !! k.
Proof.
  intros Hk H. unfold merged_record.
  rewrite spread_lookup_base by done. by rewrite lookup_insert_ne.
Qed.

Lemma getCache_eq key r :
  getCache key r =
    match kv r !! key with
    | Some (data, _) => (Ret (Some (JSON_parse data)), r)
    | None =>
        match lists r !! key with
        | Some _ => (Throw WRONGTYPE, r)
        | None => (Ret None, r)
        end
    end.
Proof.
  unfold getCache, get, mbind, Eff_bind.
  destruct (kv r !! key) as [[d t]|]; [done|].
  by destruct (lists r !! key).
Qed.

Lemma updateTransformationStatus_eq r jobId status result :
  updateTransformationStatus jobId status result r =
    match kv r !! status_key jobId with
    | Some (data, _) =>
        (Ret tt,
         {| kv := <[status_key jobId :=
                     (JSON_stringify (merged_record (JSON_parse data) status result),
                      Some 3600%nat)]> (kv r);
            lists := lists r;
            published := published r ++
              [("transformation:complete",
                JSON_stringify (completion_event jobId (JSON_parse data) status result))] |})
    | None =>
        match lists r !! status_key jobId with
        | Some _ => (Throw WRONGTYPE, r)
        | None => (Ret tt, r)
        end
    end.
Proof.
  unfold updateTransformationStatus, mbind, Eff_bind.
  rewrite getCache_eq. destruct (kv r !! status_key jobId) as [[d t]|]; [done|].
  by destruct (lists r !! status_key jobId).
Qed.

Lemma completion_event_result jobId existing status result k v :
  result_obj result !! k = Some v →
  completion_event jobId existing status result !! k = Some v.
Proof. intros Hk. unfold completion_event. by apply spread_lookup_more. Qed.

Lemma completion_event_base jobId existing status result k :
  result_obj result !! k = None →
  completion_event jobId existing status result !! k =
    if String.eqb k "jobId" then Some (Str jobId)
    else if String.eqb k "userId" then Some (prop existing "userId")
    else if String.eqb k "status" then Some (Str (status_str status))
    else None.
Proof.
  intros Hk. unfold completion_event. rewrite spread_lookup_base by done.
  destruct (String.eqb_spec k "jobId") as [->|H1]; [by rewrite lookup_insert_eq|].
  rewrite lookup_insert_ne by done.
  destruct (String.eqb_spec k "userId") as [->|H2]; [by rewrite lookup_insert_eq|].
  rewrite lookup_insert_ne by done.
  destruct (String.eqb_spec k "status") as [->|H3]; [by rewrite lookup_singleton_eq|].
  by rewrite lookup_singleton_ne.
Qed.

(** C1, amended.  [updateTransformationStatus] reads the cached record of
    the job.  When there is one it rewrites the cache entry with
    [{...existing, status, ...result}] (fields of [result] win over
    [status], which wins over the old fields; untouched fields are kept)
    and publishes on ['transformation:complete'] the event
    [{jobId, userId: existing.userId, status, ...result}]: the fields of
    [result], and besides them [jobId], the [userId] of the cached record
    and [status], and nothing else, so it is not the merged record.  When
    the key is absent the store is left as it was: nothing written,
    nothing published.  [getTransformationStatus] returns the cached
    record, or null when the key is absent.  When the key holds a list the
    read fails, and so does the update, which writes nothing; so it is for
    the id 'queue' once a job has been queued, the key of the queue being
    ['transformation:queue']. *)
Theorem updateTransformationStatus_merges_and_publishes_event
    (r : redis) (jobId : string) (status : job_status) (result : option obj) :
  updateTransformationStatus jobId status result r =
    match kv r !! status_key jobId with
    | Some (data, _) =>
        (Ret tt,
         {| kv := <[status_key jobId :=
                     (JSON_stringify (merged_record (JSON_parse data) status result),
                      Some 3600%nat)]> (kv r);
            lists := lists r;
            published := published r ++
              [("transformation:complete",
                JSON_stringify (completion_event jobId (JSON_parse data) status result))] |})
    | None =>
        match lists r !! status_key jobId with
        | Some _ => (Throw WRONGTYPE, r)
        | None => (Ret tt, r)
        end
    end
  ∧ getTransformationStatus jobId r =
      match kv r !! status_key jobId with
      | Some (data, _) => (Ret (Some (JSON_parse data)), r)
      | None =>
          match lists r !! status_key jobId with
          | Some _ => (Throw WRONGTYPE, r)
          | None => (Ret None, r)
          end
      end
  ∧ (∀ existing k v, result_obj result !! k = Some v →
       merged_record existing status result !! k = Some v)
  ∧ (∀ existing, result_obj result !! "status" = None →
       merged_record existing status result !! "status" = Some (Str (status_str status)))
  ∧ (∀ existing k, k ≠ "status" → result_obj result !! k = None →
       merged_record existing status result !! k = existing !! k)
  ∧ (∀ existing k v, result_obj result !! k = Some v →
       completion_event jobId existing status result !! k = Some v)
  ∧ (∀ existing k, result_obj result !! k = None →
       completion_event jobId existing status result !! k =
         if String.eqb k "jobId" then Some (Str jobId)
         else if String.eqb k "userId" then Some (prop existing "userId")
         else if String.eqb k "status" then Some (Str (status_str status))
         else None)
  ∧ (∀ j, id j ≠ "queue" → kv r !! status_key "queue" = None →
       let queued := (addTransformationJob j r).2 in
       getTransformationStatus "queue" queued = (Throw WRONGTYPE, queued)
       ∧ updateTransformationStatus "queue" status result queued
           = (Throw WRONGTYPE, queued)).
Proof.
  split_and!.
  - apply updateTransformationStatus_eq.
  - unfold getTransformationStatus. apply getCache_eq.
  - intros existing k v H. by apply spread_lookup_more.
  - intros existing. apply merged_record_status.
  - intros existing k. apply merged_record_keeps.
  - intros existing k v. apply completion_event_result.
  - intros existing k. apply completion_event_base.
  - intros j Hj Hnone queued.
    assert (Hkv : kv queued !! status_key "queue" = None).
    { subst queued. simpl. rewrite lookup_insert_ne; [done|].
      unfold status_key. intros Heq.
      by apply (inj (String.append "transformation:")) in Heq. }
    assert (Hl : is_Some (lists queued !! status_key "queue")).
    { subst queued. simpl. rewrite lookup_insert_eq. by eexists. }
    destruct Hl as [l Hl]. unfold getTransformationStatus.
    by rewrite updateTransformationStatus_eq, getCache_eq, Hkv, Hl.
Qed.

(** C1 as stated fails: after a job is queued and then completed, the
    message published on ['transformation:complete'] is not the record
    that was written back to the cache (it carries [jobId] and drops
    [id], [imageUrl] and [style]). *)
Lemma updateTransformationStatus_event_is_not_merged_record :
  let j := {| id := "j1"; userId := "u1"; imageUrl := "aGk="; style := "neon" |} in
  let r0 := (addTransformationJob j empty_redis).2 in
  let r1 := (updateTransformationStatus "j1" completed
               (Some {[ "outputUrl" := Str "https://cdn/out.png" ]}) r0).2 in
  ¬ ∃ rec ttl, kv r1 !! status_key "j1" = Some (rec, ttl)
               ∧ published r1 = [("transformation:complete", rec)].
Proof.
  intros j r0 r1 (rec & ttl & Hkv & Hpub).
  assert (Hstyle : (λ p, p.1 !! "style") <$> kv r1 !! status_key "j1"
                   = Some (Some "neon")) by (vm_compute; reflexivity).
  assert (Hnone : (λ p, p.2 !! "style") <$> head (published r1) = Some None)
    by (vm_compute; reflexivity).
  rewrite Hkv in Hstyle. rewrite Hpub in Hnone. simpl in Hstyle, Hnone.
  congruence.
Qed.

(** C7.  [addTransformationJob] stores the status record of the job under
    ['transformation:<id>'] with status ['pending'] and a time to live of
    3600 seconds, and every rewrite of that record by
    [updateTransformationStatus] sets 3600 seconds again. *)
Theorem addTransformationJob_pending_one_hour (r : redis) (j : job) :
  let r1 := (addTransformationJob j r).2 in
  (addTransformationJob j r).1 = Ret tt
  ∧ status_key (id j) = "transformation:" +:+ id j
  ∧ kv r1 !! status_key (id j) =
      Some (JSON_stringify (spread {[ "status" := Str "pending" ]} (job_obj j)),
            Some 3600%nat)
  ∧ JSON_stringify (spread {[ "status" := Str "pending" ]} (job_obj j)) !! "status"
      = Some "pending"
  ∧ (∀ k, k ≠ status_key (id j) → kv r1 !! k = kv r !! k)
  ∧ (∀ r' status result,
       kv (updateTransformationStatus (id j) status result r').2 !! status_key (id j) =
         match kv r' !! status_key (id j) with
         | Some (data, _) =>
             Some (JSON_stringify (merged_record (JSON_parse data) status result),
                   Some 3600%nat)
         | None => None
         end).
Proof.
  split_and!.
  - done.
  - done.
  - simpl. apply lookup_insert_eq.
  - unfold JSON_stringify, spread, job_obj. rewrite lookup_omap.
    rewrite lookup_union_r.
    + by rewrite lookup_singleton_eq.
    + by repeat (rewrite lookup_insert_ne by done).
  - intros k Hk. simpl. by rewrite lookup_insert_ne.
  - intros r' status result.
    rewrite updateTransformationStatus_eq.
    destruct (kv r' !! status_key (id j)) as [[d t]|] eqn:E; simpl.
    + apply lookup_insert_eq.
    + by destruct (lists r' !! status_key (id j)).
Qed.

End RedisProperties.

(** ** Tables *)

Section TableProperties.
Import Prisma.
Context {A : Type}.
Implicit Types (p q : A → bool) (f : A → A) (t : list A).

Lemma update_None p f t : findUnique p t = None → update p f t = None.
Proof.
  unfold findUnique. induction t as [|x t IH]; simpl; [done|].
  destruct (p x); [done|]. intros H. by rewrite IH.
Qed.

Lemma update_Some p f t x :
  findUnique p t = Some x → ∃ t', update p f t = Some (f x, t').
Proof.
  unfold findUnique. induction t as [|z t IH]; simpl; [done|].
  destruct (p z); intros H.
  - simplify_eq. eauto.
  - destruct (IH H) as [t' ->]. eauto.
Qed.

Lemma update_Forall (P : A → Prop) p f t y t' :
  (∀ x, P x → P (f x)) → update p f t = Some (y, t') → Forall P t → Forall P t'.
Proof.
  intros Hf. revert y t'. induction t as [|x t IH]; simpl; intros y t' H HP; [done|].
  apply Forall_cons in HP as [Hx Ht].
  destruct (p x).
  - simplify_eq. apply Forall_cons; auto.
  - destruct (update p f t) as [[z t'']|]; simplify_eq.
    apply Forall_cons; split; eauto.
Qed.

Lemma update_Forall_first (P Q : A → Prop) p f t y t' :
  (∀ x, P x → Q x → p x = true → P (f x)) →
  (∀ x, x ∈ t → p x = true → Q x) →
  update p f t = Some (y, t') → Forall P t → Forall P t'.
Proof.
  intros Hf. revert y t'. induction t as [|x t IH]; simpl; intros y t' HQ H HP; [done|].
  apply Forall_cons in HP as [Hx Ht].
  destruct (p x) eqn:Hp.
  - simplify_eq. apply Forall_cons; split; [|done].
    apply Hf; auto. apply HQ; [left|done].
  - destruct (update p f t) as [[z t'']|]; simplify_eq.
    apply Forall_cons; split; [done|].
    eapply IH; eauto. intros z' Hz'. apply HQ. by right.
Qed.

Lemma update_fmap {B} (g : A → B) p f t y t' :
  (∀ x, g (f x) = g x) → update p f t = Some (y, t') → g <$> t' = g <$> t.
Proof.
  intros Hg. revert y t'. induction t as [|x t IH]; simpl; intros y t' H; [done|].
  destruct (p x).
  - simplify_eq. simpl. by rewrite Hg.
  - destruct (update p f t) as [[z t'']|]; simplify_eq.
    simpl. f_equal. eauto.
Qed.

Lemma find_update_by_id (id_of : A → string) i j f t y t' :
  (∀ x, id_of (f x) = id_of x) →
  update (by_id id_of i) f t = Some (y, t') →
  findUnique (by_id id_of j) t' =
    if String.eqb i j then Some y else findUnique (by_id id_of j) t.
Proof.
  intros Hid. unfold findUnique, by_id.
  revert y t'. induction t as [|x t IH]; simpl; intros y t' H; [done|].
  destruct (String.eqb_spec (id_of x) i) as [Hi|Hi].
  - simplify_eq. simpl. rewrite Hid.
    by destruct (String.eqb (id_of x) j).
  - destruct (update _ f t) as [[z t'']|]; simplify_eq. simpl.
    destruct (String.eqb_spec (id_of x) j) as [Hj|Hj].
    + destruct (String.eqb_spec i j); [congruence|done].
    + eauto.
Qed.

Lemma update_inv p f t y t' :
  update p f t = Some (y, t') → ∃ x, findUnique p t = Some x ∧ y = f x.
Proof.
  unfold findUnique. revert y t'.
  induction t as [|z t IH]; simpl; intros y t' H; [done|].
  destruct (p z).
  - simplify_eq. eauto.
  - destruct (update p f t) as [[y' t'']|]; simplify_eq. eauto.
Qed.

Lemma create_inv (clash : A → A → bool) x t t' :
  create clash x t = Some t' → t' = t ++ [x] ∧ ∀ y, y ∈ t → clash x y = false.
Proof.
  unfold create. destruct (existsb (clash x) t) eqn:E; [done|].
  intros; simplify_eq. split; [done|]. intros y Hy.
  destruct (clash x y) eqn:Hc; [|done].
  assert (existsb (clash x) t = true); [|congruence].
  apply existsb_exists. exists y. split; [|done]. by apply list_elem_of_In.
Qed.

Lemma find_elem_of p t x : findUnique p t = Some x → x ∈ t ∧ p x = true.
Proof.
  unfold findUnique. induction t as [|y t IH]; simpl; [done|].
  destruct (p y) eqn:Hp; intros H.
  - simplify_eq. split; [left|done].
  - destruct (IH H). split; [by right|done].
Qed.

Lemma find_by_id_NoDup (id_of : A → string) t x :
  NoDup (id_of <$> t) → x ∈ t → findUnique (by_id id_of (id_of x)) t = Some x.
Proof.
  unfold findUnique, by_id. induction t as [|y t IH]; simpl; intros Hnd Hx.
  - by apply elem_of_nil in Hx.
  - apply NoDup_cons in Hnd as [Hy Hnd].
    destruct (String.eqb (id_of y) (id_of x)) eqn:E.
    + apply String.eqb_eq in E. apply elem_of_cons in Hx as [->|Hx]; [done|].
      exfalso. apply Hy. rewrite E. by apply list_elem_of_fmap_2.
    + apply elem_of_cons in Hx as [->|Hx]; [|auto].
      by rewrite String.eqb_refl in E.
Qed.

End TableProperties.

(** ** Running the effects *)

Lemma set_db_id w : World.set_db (World.db w) w = w.
Proof. by destruct w. Qed.

Ltac eff :=
  unfold mbind, mret, Eff_bind, Eff_ret, try_catch, throw, modify, get_state,
    World.on_db, World.on_redis, zoom, World.fire_and_forget, World.request,
    World.request_value, Prisma.find, Prisma.update_row, Prisma.update_rows,
    Prisma.create_row in *.

(** ** Consistency of the stored rows *)

Section Consistency.
Import World System.

Lemma consistent_same_users w w' :
  consistent w →
  Prisma.users (db w') = Prisma.users (db w) →
  Forall (λ o, 0 ≤ Webhook.order_credits o) (Prisma.orders (db w')) →
  consistent w'.
Proof.
  intros [H1 H2 H3] Hu Ho. split; by rewrite ?Hu.
Qed.

Lemma consistent_add_credits w w' i n y :
  consistent w → 0 ≤ n →
  Prisma.update (Prisma.by_id Prisma.User.id i) (Prisma.User.add_credits n)
    (Prisma.users (db w)) = Some (y, Prisma.users (db w')) →
  Forall (λ o, 0 ≤ Webhook.order_credits o) (Prisma.orders (db w')) →
  consistent w'.
Proof.
  intros [H1 H2 H3] Hn Hup Ho. split; [| |done].
  - by erewrite update_fmap; [| |exact Hup].
  - eapply update_Forall; [|exact Hup|done]. simpl. intros x Hx. lia.
Qed.

Lemma balance_add_credits w w' i n y :
  Prisma.update (Prisma.by_id Prisma.User.id i) (Prisma.User.add_credits n)
    (Prisma.users (db w)) = Some (y, Prisma.users (db w')) →
  ∀ userId, balance w' userId =
    if String.eqb i userId then (λ c, c + n) <$> balance w userId
    else balance w userId.
Proof.
  intros Hup userId. unfold balance.
  erewrite find_update_by_id; [| |exact Hup]; [|done].
  destruct (String.eqb_spec i userId) as [->|]; [|done].
  apply update_inv in Hup as (x & -> & ->). done.
Qed.

End Consistency.

(** ** POST /api/transform/start *)

Section TransformProperties.
Import World Transform.

(** Every way the handler can go, with what it leaves in the store. *)
Lemma start_cases (w : world) (req : start_request) (jobId : string) :
  ∃ resp w', start req jobId w = (Ret resp, w') ∧
    match file req, body_style req with
    | None, _ => w' = w ∧ Http.status resp = 400%nat
    | Some _, None => w' = w ∧ Http.status resp = 400%nat
    | Some _, Some style =>
        if bool_decide (style ∈ styles) then
          match Prisma.findUnique (Prisma.by_id Prisma.User.keycloakId (user_id req))
                  (Prisma.users (db w)) with
          | None => w' = w ∧ Http.status resp = 404%nat
          | Some u =>
              let active := has_active_subscription
                    (Prisma.findUnique
                       (Prisma.by_id Prisma.Subscription.userId (Prisma.User.id u))
                       (Prisma.subscriptions (db w))) in
              if (negb active && negb (0 <? Prisma.User.credits u))%bool
              then w' = w ∧ resp = no_credits
              else (Http.status resp = 202%nat ∨ Http.status resp = 500%nat)
                   ∧ Prisma.orders (db w') = Prisma.orders (db w)
                   ∧ (Prisma.users (db w') = Prisma.users (db w)
                      ∨ active = false ∧ 0 < Prisma.User.credits u
                        ∧ ∃ y, Prisma.update
                                 (Prisma.by_id Prisma.User.id (Prisma.User.id u))
                                 (Prisma.User.add_credits (-1)) (Prisma.users (db w))
                               = Some (y, Prisma.users (db w')))
          end
        else w' = w ∧ Http.status resp = 400%nat
    end.
Proof.
  unfold start, parse_style.
  destruct (file req) as [img|]; [|by eexists _, _].
  destruct (body_style req) as [style|]; [|by eexists _, _].
  case_bool_decide; [|by eexists _, _].
  eff. simpl. rewrite !set_db_id.
  destruct (Prisma.findUnique _ (Prisma.users (db w))) as [u|] eqn:Hu; [|by eexists _, _].
  simpl. rewrite !set_db_id.
  set (active := has_active_subscription _).
  destruct (negb active && negb (0 <? Prisma.User.credits u))%bool eqn:Hc;
    [by eexists _, _|].
  destruct (Prisma.create _ _ _) as [t'|] eqn:Hcreate; simpl.
  2:{ rewrite set_db_id. eexists _, _. split; [done|]. auto. }
  destruct (negb active && (0 <? Prisma.User.credits u))%bool eqn:Hd; simpl.
  - destruct (Prisma.update _ _ _) as [[y us]|] eqn:Hup; simpl.
    + eexists _, _. split; [done|]. simpl. split_and!; auto.
      right. apply andb_true_iff in Hd as [Ha Hpos].
      apply negb_true_iff in Ha. apply Z.ltb_lt in Hpos. eauto.
    + eexists _, _. split; [done|]. simpl. auto.
  - eexists _, _. split; [done|]. simpl. auto.
Qed.

(** C3, amended.  For a request that carries an image file and a style of
    the enumerated set, the handler answers 402 exactly when the user
    exists and has neither an active subscription nor a strictly positive
    balance; the answer then carries the code NO_CREDITS and the whole
    store (tables, cache, queue, outbound calls) is left as it was. *)
Theorem start_payment_required_iff (w : world) (req : start_request)
    (jobId img style : string) :
  file req = Some img → body_style req = Some style → style ∈ styles →
  ∃ resp, (start req jobId w).1 = Ret resp
    ∧ (Http.status resp = 402%nat ↔
         ∃ u, Prisma.findUnique (Prisma.by_id Prisma.User.keycloakId (user_id req))
                (Prisma.users (db w)) = Some u
            ∧ has_active_subscription
                (Prisma.findUnique
                   (Prisma.by_id Prisma.Subscription.userId (Prisma.User.id u))
                   (Prisma.subscriptions (db w))) = false
            ∧ ¬ 0 < Prisma.User.credits u)
    ∧ (Http.status resp = 402%nat →
         resp = no_credits ∧ (start req jobId w).2 = w).
Proof.
  intros Hf Hs Hin.
  destruct (start_cases w req jobId) as (resp & w' & Heq & H).
  rewrite Heq. exists resp. split; [done|]. simpl.
  rewrite Hf, Hs, bool_decide_eq_true_2 in H by done.
  destruct (Prisma.findUnique _ (Prisma.users (db w))) as [u|] eqn:Hu.
  - simpl in H.
    destruct (has_active_subscription _) eqn:Ha; simpl in H.
    + destruct H as ([->| ->] & _). all: split; [split|]; try done.
      all: intros (u' & ? & ? & ?); simplify_eq; congruence.
    + destruct (0 <? Prisma.User.credits u) eqn:Hpos; simpl in H.
      * apply Z.ltb_lt in Hpos.
        destruct H as ([->| ->] & _). all: split; [split|]; try done.
        all: intros (u' & ? & ? & ?); by simplify_eq.
      * apply Z.ltb_ge in Hpos. destruct H as [-> ->].
        split; [split|]; try done.
        intros _. exists u. split_and!; [done|done|lia].
  - destruct H as [-> ->]. split; [split|]; try done.
    by intros (u' & ? & _).
Qed.

Lemma start_payment_required_iff_witness :
  ∃ resp,
    (start {| file := Some "aGk="; body_style := Some "neon"; user_id := "kc1" |}
           "job-1" (Sample.world_with (Sample.alice 0 None))).1 = Ret resp
    ∧ Http.status resp = 402%nat.
Proof.
  destruct (start_payment_required_iff (Sample.world_with (Sample.alice 0 None))
              {| file := Some "aGk="; body_style := Some "neon"; user_id := "kc1" |}
              "job-1" "aGk=" "neon" eq_refl eq_refl) as (resp & Hr & Hiff & _).
  { vm_compute. set_solver. }
  exists resp. split; [exact Hr|].
  apply Hiff. exists (Sample.alice 0 None). vm_compute. split_and!; try done.
Defined.

(** C3 as stated fails: a user without credits and without subscription who
    sends no image file is answered 400, not 402. *)
Lemma start_without_file_is_400_not_402 :
  ¬ ∀ (w : world) (req : start_request) (jobId : string) resp,
      (start req jobId w).1 = Ret resp →
      (Http.status resp = 402%nat ↔
         ∃ u, Prisma.findUnique (Prisma.by_id Prisma.User.keycloakId (user_id req))
                (Prisma.users (db w)) = Some u
            ∧ has_active_subscription
                (Prisma.findUnique
                   (Prisma.by_id Prisma.Subscription.userId (Prisma.User.id u))
                   (Prisma.subscriptions (db w))) = false
            ∧ ¬ 0 < Prisma.User.credits u).
Proof.
  intros H.
  specialize (H (Sample.world_with (Sample.alice 0 None))
                {| file := None; body_style := Some "neon"; user_id := "kc1" |}
                "job-1" (Http.error_json 400 "No image file provided") eq_refl).
  destruct H as [_ H]. discriminate H.
  exists (Sample.alice 0 None). vm_compute. split_and!; done.
Qed.

End TransformProperties.

(** ** Payment webhooks *)

Section WebhookProperties.
Import World System Webhook.

Lemma complete_order_cases (orderId : option string) (w : world) :
  ∃ r w', complete_order orderId w = (r, w') ∧
    (w' = w
     ∨ ∃ o, Prisma.update (Prisma.by_id Prisma.Order.id (default EmptyString orderId))
              (Prisma.Order.set_status "completed") (Prisma.orders (db w))
            = Some (o, Prisma.orders (db w'))
          ∧ (Prisma.users (db w') = Prisma.users (db w)
             ∨ ∃ y, Prisma.update (Prisma.by_id Prisma.User.id (Prisma.Order.userId o))
                      (Prisma.User.add_credits (order_credits o)) (Prisma.users (db w))
                    = Some (y, Prisma.users (db w')))).
Proof.
  unfold complete_order.
  destruct (negb (JsString.truthy orderId)); [by eexists _, _; split; [|left]|].
  eff. simpl.
  destruct (Prisma.update _ _ (Prisma.orders _)) as [[o os]|] eqn:Ho; simpl.
  2:{ rewrite set_db_id. eexists _, _. split; [done|]. by left. }
  destruct (String.eqb (Prisma.Order.type o) "credits"); simpl.
  2:{ eexists _, _. split; [done|]. right. exists o. simpl. auto. }
  destruct (Prisma.update _ _ (Prisma.users _)) as [[y us]|] eqn:Hu; simpl.
  2:{ eexists _, _. split; [done|]. right. exists o. simpl. auto. }
  destruct (Prisma.findUnique _ _); simpl.
  all: eexists _, _; (split; [done|]); right; exists o; simpl; eauto.
Qed.

Lemma never_decreases_same_users w w' :
  Prisma.users (db w') = Prisma.users (db w) → never_decreases w w'.
Proof.
  intros Hu userId c Hc. exists c. split; [|lia].
  unfold balance in *. by rewrite Hu.
Qed.

Lemma never_decreases_add_credits w w' i n y :
  0 ≤ n →
  Prisma.update (Prisma.by_id Prisma.User.id i) (Prisma.User.add_credits n)
    (Prisma.users (db w)) = Some (y, Prisma.users (db w')) →
  never_decreases w w'.
Proof.
  intros Hn Hup userId c Hc.
  rewrite (balance_add_credits _ _ _ _ _ Hup), Hc.
  destruct (String.eqb i userId); simpl; eexists; split; try done; lia.
Qed.

Lemma orders_update_Forall (w : world) p f o os :
  (∀ x, order_credits (f x) = order_credits x) →
  Prisma.update p f (Prisma.orders (db w)) = Some (o, os) →
  Forall (λ o, 0 ≤ order_credits o) (Prisma.orders (db w)) →
  Forall (λ o, 0 ≤ order_credits o) os ∧ 0 ≤ order_credits o.
Proof.
  intros Hf Hup HF. split.
  - eapply update_Forall; [|exact Hup|done]. intros x. by rewrite Hf.
  - apply update_inv in Hup as (x & Hx & ->). rewrite Hf.
    apply find_elem_of in Hx as [Hx _].
    by eapply Forall_forall in HF.
Qed.

Lemma complete_order_safe orderId w :
  consistent w →
  consistent (complete_order orderId w).2
  ∧ never_decreases w (complete_order orderId w).2.
Proof.
  intros Hw. destruct (complete_order_cases orderId w) as (r & w' & -> & H). simpl.
  destruct H as [->|(o & Ho & Hu)].
  { split; [done|]. by apply never_decreases_same_users. }
  destruct (orders_update_Forall w _ (Prisma.Order.set_status "completed") _ _
              (λ _, eq_refl) Ho) as [HF Hn]; [by destruct Hw|].
  destruct Hu as [Hu|(y & Hu)].
  - split; [by eapply consistent_same_users|by apply never_decreases_same_users].
  - split; [by eapply consistent_add_credits|by eapply never_decreases_add_credits].
Qed.

Lemma try_catch_respond {S A} (m : Eff S A) (a b : Http.response) s :
  ∃ resp, try_catch (m;; mret a) (λ _, mret b) s = (Ret resp, (m s).2).
Proof. eff. destruct (m s) as [[x|e] s']; eauto. Qed.

Lemma stripe_state `{Externals} e payload sig w :
  let w' := (stripe e payload sig w).2 in
  w' = w
  ∨ (∃ orderId, w' = (complete_order orderId w).2)
  ∨ Prisma.users (db w') = Prisma.users (db w)
    ∧ Prisma.orders (db w') = Prisma.orders (db w).
Proof.
  unfold stripe. destruct (stripe_constructEvent _ _ _) as [ev|]; [|by left].
  match goal with |- context [try_catch (?m;; mret ?a) ?h] =>
    destruct (try_catch_respond m a processing_failed w) as [resp ->] end.
  simpl. destruct ev; simpl.
  - right; left. eauto.
  - right; right. unfold handleStripeInvoicePaid.
    destruct (negb _); [done|]. by eff.
  - right; right. by eff.
  - right; right. by eff.
  - by left.
Qed.

Lemma stripe_safe `{Externals} e payload sig w :
  consistent w →
  consistent (stripe e payload sig w).2 ∧ never_decreases w (stripe e payload sig w).2.
Proof.
  intros Hw. destruct (stripe_state e payload sig w) as [->|[[oid ->]|[Hu Ho]]].
  - split; [done|]. by apply never_decreases_same_users.
  - by apply complete_order_safe.
  - split; [|by apply never_decreases_same_users].
    eapply consistent_same_users; [done|done|]. rewrite Ho. by destruct Hw.
Qed.

Lemma asaas_state e body token w :
  let w' := (asaas e body token w).2 in
  w' = w
  ∨ (∃ orderId, w' = (complete_order orderId w).2)
  ∨ Prisma.users (db w') = Prisma.users (db w)
    ∧ (Prisma.orders (db w') = Prisma.orders (db w)
       ∨ ∃ p o, Prisma.update p (Prisma.Order.set_status "failed") (Prisma.orders (db w))
                = Some (o, Prisma.orders (db w'))).
Proof.
  unfold asaas.
  destruct (negb (bool_decide (token = ASAAS_WEBHOOK_TOKEN e))); [by left|].
  match goal with |- context [try_catch (?m;; mret ?a) ?h] =>
    destruct (try_catch_respond m a processing_failed w) as [resp ->] end.
  simpl.
  repeat (match goal with |- context [if event_in ?a ?b then _ else _] =>
            destruct (event_in a b) end).
  - unfold handleAsaasPaymentConfirmed, externalReference.
    destruct (payment body) as [r|]; [|by left]. right; left. by eexists.
  - unfold handleAsaasPaymentFailed, externalReference.
    destruct (payment body) as [r|]; [|by left]. eff.
    destruct (negb _); [by left|]. simpl.
    destruct (Prisma.update _ _ _) as [[o os]|] eqn:Ho; simpl.
    + right; right. split; [done|]. right. eauto.
    + rewrite set_db_id. by left.
  - unfold handleAsaasSubscriptionActive, set_subscription_status, externalReference.
    destruct (subscription body) as [r|]; [|by left]. eff.
    destruct (negb _); [by left|]. simpl.
    destruct (Prisma.update _ _ _) as [[o os]|] eqn:Ho; simpl; [by right; right; auto|].
    rewrite set_db_id. by left.
  - unfold handleAsaasSubscriptionCancelled, set_subscription_status, externalReference.
    destruct (subscription body) as [r|]; [|by left]. eff.
    destruct (negb _); [by left|]. simpl.
    destruct (Prisma.update _ _ _) as [[o os]|] eqn:Ho; simpl; [by right; right; auto|].
    rewrite set_db_id. by left.
  - by left.
Qed.

Lemma asaas_safe e body token w :
  consistent w →
  consistent (asaas e body token w).2 ∧ never_decreases w (asaas e body token w).2.
Proof.
  intros Hw. destruct (asaas_state e body token w) as [->|[[oid ->]|[Hu Ho]]].
  - split; [done|]. by apply never_decreases_same_users.
  - by apply complete_order_safe.
  - split; [|by apply never_decreases_same_users].
    eapply consistent_same_users; [done|done|].
    destruct Ho as [->|(p & o & Ho)]; [by destruct Hw|].
    eapply (orders_update_Forall w p (Prisma.Order.set_status "failed"));
      [done|exact Ho|by destruct Hw].
Qed.
End WebhookProperties.

(** ** GET and DELETE /api/users/me, POST /api/payments/credits/purchase *)

Section UsersProperties.
Import World System.

Lemma get_me_cases req newId now w :
  ∃ resp w', Users.get_me req newId now w = (Ret resp, w') ∧
    match Prisma.findUnique (Prisma.by_id Prisma.User.keycloakId (id req))
            (Prisma.users (db w)) with
    | Some u =>
        w' = w ∧
        resp = if bool_decide (is_Some (Prisma.User.deletedAt u))
               then Users.disabled else Users.profile u (isAdmin req)
    | None =>
        if negb (JsString.truthy (Some (email req)))
        then w' = w ∧ resp = Users.no_email
        else
          let u := {| Prisma.User.id := newId; Prisma.User.keycloakId := id req;
                      Prisma.User.email := email req;
                      Prisma.User.name := Some (name req);
                      Prisma.User.credits := 3; Prisma.User.deletedAt := None;
                      Prisma.User.createdAt := now |} in
          match Prisma.create Prisma.User.clash u (Prisma.users (db w)) with
          | Some us => w' = set_db (Prisma.set_users us (db w)) w
                       ∧ resp = Users.profile u (isAdmin req)
          | None => w' = w ∧ Http.status resp = 500%nat
          end
    end.
Proof.
  unfold Users.get_me. eff. simpl. rewrite !set_db_id.
  destruct (Prisma.findUnique _ _) as [u|] eqn:Hu; simpl.
  - destruct (bool_decide _); by eexists _, _.
  - destruct (negb _); [by eexists _, _|]. simpl.
    destruct (Prisma.create _ _ _) as [us|]; simpl; [by eexists _, _|].
    rewrite set_db_id. by eexists _, _.
Qed.

Lemma get_me_safe req newId now w :
  consistent w → consistent (Users.get_me req newId now w).2.
Proof.
  intros Hw. destruct (get_me_cases req newId now w) as (resp & w' & -> & H). simpl.
  destruct (Prisma.findUnique _ _) as [u|]; [by destruct H as [-> _]|].
  destruct (negb _); [by destruct H as [-> _]|]. simpl in H.
  destruct (Prisma.create _ _ _) as [us|] eqn:Hc; [|by destruct H as [-> _]].
  destruct H as [-> _]. apply create_inv in Hc as [-> Hclash].
  destruct Hw as [H1 H2 H3]. split; simpl; [| |done].
  - rewrite fmap_app. simpl. apply NoDup_app. split_and!; [done| |apply NoDup_singleton].
    intros i Hi Hin. apply list_elem_of_singleton in Hin as ->.
    apply list_elem_of_fmap in Hi as (y & Hy & Hin).
    specialize (Hclash y Hin). unfold Prisma.User.clash in Hclash. simpl in Hclash.
    rewrite Hy, String.eqb_refl in Hclash. done.
  - apply Forall_app. split; [done|]. apply Forall_singleton. simpl. lia.
Qed.

Lemma delete_me_users k req now w :
  let w' := (Users.delete_me k req now w).2 in
  Prisma.orders (db w') = Prisma.orders (db w)
  ∧ (Prisma.users (db w') = Prisma.users (db w)
     ∨ ∃ y, Prisma.update (Prisma.by_id Prisma.User.keycloakId (id req))
              (Prisma.User.set_deletedAt (Some now)) (Prisma.users (db w))
            = Some (y, Prisma.users (db w'))).
Proof.
  unfold Users.delete_me, KeycloakAdmin.keycloakDisableAndLogoutUser,
    KeycloakAdmin.keycloakLogoutUser, KeycloakAdmin.keycloakDisableUser.
  eff. simpl. rewrite !set_db_id.
  destruct (Prisma.findUnique _ _) as [u|] eqn:Hu; simpl.
  - destruct (bool_decide _); simpl.
    + destruct (KeycloakAdmin.logout_ok k), (KeycloakAdmin.disable_ok k); simpl; auto.
    + destruct (Prisma.update _ _ _) as [[y us]|] eqn:Hup; simpl.
      * destruct (KeycloakAdmin.logout_ok k), (KeycloakAdmin.disable_ok k); simpl; eauto.
      * auto.
  - destruct (KeycloakAdmin.logout_ok k), (KeycloakAdmin.disable_ok k); simpl; auto.
Qed.

Lemma delete_me_safe k req now w :
  consistent w → consistent (Users.delete_me k req now w).2.
Proof.
  intros Hw. destruct (delete_me_users k req now w) as [Ho [Hu|[y Hu]]].
  - eapply consistent_same_users; [done|done|]. rewrite Ho. by destruct Hw.
  - destruct Hw as [H1 H2 H3]. split.
    + by erewrite update_fmap; [| |exact Hu].
    + eapply update_Forall; [|exact Hu|done]. done.
    + by rewrite Ho.
Qed.

Lemma CREDIT_PACKAGES_positive p info :
  Payment.CREDIT_PACKAGES p = Some info → 0 < Payment.credits info.
Proof.
  unfold Payment.CREDIT_PACKAGES.
  repeat (destruct (String.eqb p _)); intros; simplify_eq; simpl; lia.
Qed.

Lemma purchase_safe req orderId payment w :
  let w' := (Payment.purchase req orderId payment w).2 in
  Forall (λ o, 0 ≤ Webhook.order_credits o) (Prisma.orders (db w)) →
  Prisma.users (db w') = Prisma.users (db w)
  ∧ Forall (λ o, 0 ≤ Webhook.order_credits o) (Prisma.orders (db w')).
Proof.
  intros w' HF. subst w'. unfold Payment.purchase, Payment.parse_purchase.
  destruct (Payment.package req) as [p|]; [|done].
  destruct (Payment.region req) as [r|]; [|done].
  destruct (Payment.CREDIT_PACKAGES p) as [info|] eqn:Hinfo; [|done].
  apply CREDIT_PACKAGES_positive in Hinfo.
  destruct (String.eqb r "BR"); [|destruct (String.eqb r "PT"); [|done]].
  all: eff; simpl.
  all: destruct (Prisma.findUnique _ _) as [u|]; [|done]; simpl.
  all: destruct (Prisma.create _ _ _) as [os|] eqn:Hc; simpl; [|done].
  all: apply create_inv in Hc as [-> _].
  all: match goal with |- context [Prisma.update _ _ ?os] =>
         assert (HF' : Forall (λ o, 0 ≤ Webhook.order_credits o) os);
           [apply Forall_app; split; [done|];
            apply Forall_singleton; unfold Webhook.order_credits; simpl; lia|];
         revert HF'; generalize os; intros os0 HF' end.
  all: destruct payment as [a|]; simpl; [|done].
  all: destruct (Prisma.update _ _ _) as [[y os']|] eqn:Hup; simpl; [|done].
  all: split; [done|]; eapply update_Forall; [|exact Hup|done]; done.
Qed.
End UsersProperties.

(** ** The credit balance *)

Section CreditProperties.
Import World System.

Lemma balance_of_found w u :
  consistent w → u ∈ Prisma.users (db w) →
  balance w (Prisma.User.id u) = Some (Prisma.User.credits u).
Proof.
  intros [H1 _ _] Hu. unfold balance. by rewrite find_by_id_NoDup.
Qed.

Lemma balance_nonneg w userId c : consistent w → balance w userId = Some c → 0 ≤ c.
Proof.
  intros [_ H2 _]. unfold balance.
  destruct (Prisma.findUnique _ _) as [u|] eqn:Hu; intros Hc; simpl in Hc; simplify_eq.
  apply find_elem_of in Hu as [Hu _].
  rewrite Forall_forall in H2. by apply H2.
Qed.

Lemma start_safe req jobId w :
  consistent w →
  let w' := (Transform.start req jobId w).2 in
  consistent w'
  ∧ ∀ userId,
      balance w' userId = balance w userId
      ∨ ∃ u, Prisma.findUnique (Prisma.by_id Prisma.User.keycloakId (Transform.user_id req))
               (Prisma.users (db w)) = Some u
           ∧ Prisma.User.id u = userId
           ∧ Transform.has_active_subscription
               (Prisma.findUnique
                  (Prisma.by_id Prisma.Subscription.userId (Prisma.User.id u))
                  (Prisma.subscriptions (db w))) = false
           ∧ 0 < Prisma.User.credits u
           ∧ balance w userId = Some (Prisma.User.credits u)
           ∧ balance w' userId = Some (Prisma.User.credits u - 1).
Proof.
  intros Hw. destruct (start_cases w req jobId) as (resp & w' & -> & H). simpl.
  assert (Hsame : Prisma.users (db w') = Prisma.users (db w) →
                  Prisma.orders (db w') = Prisma.orders (db w) →
                  consistent w' ∧ ∀ userId, balance w' userId = balance w userId).
  { intros Hu Ho. split.
    - eapply consistent_same_users; [done|done|]. rewrite Ho. by destruct Hw.
    - intros. unfold balance. by rewrite Hu. }
  assert (Hid : w' = w → consistent w' ∧ ∀ userId, balance w' userId = balance w userId).
  { by intros ->. }
  destruct (Transform.file req); [|destruct H as [H _]; split; [|left]; by apply Hid].
  destruct (Transform.body_style req);
    [|destruct H as [H _]; split; [|left]; by apply Hid].
  case_bool_decide; [|destruct H as [H _]; split; [|left]; by apply Hid].
  destruct (Prisma.findUnique _ (Prisma.users _)) as [u|] eqn:Hu;
    [|destruct H as [H _]; split; [|left]; by apply Hid].
  simpl in H.
  destruct (negb _ && negb _)%bool; [destruct H as [H _]; split; [|left]; by apply Hid|].
  destruct H as (_ & Ho & [Hus|(Ha & Hpos & y & Hup)]).
  { split; [|left]; by apply Hsame. }
  apply find_elem_of in Hu as Hin. destruct Hin as [Hin _].
  pose proof Hw as [H1 H2 H3]. split.
  - split.
    + by rewrite (update_fmap Prisma.User.id _ (Prisma.User.add_credits (-1)) _ _ _
                      (λ _, eq_refl) Hup).
    + eapply (update_Forall_first _ (λ x, 0 < Prisma.User.credits x));
        [| |exact Hup|done].
      * simpl. intros. lia.
      * intros x Hx Hp. unfold Prisma.by_id in Hp. apply String.eqb_eq in Hp.
        pose proof (find_by_id_NoDup Prisma.User.id _ x H1 Hx) as Fx.
        pose proof (find_by_id_NoDup Prisma.User.id _ u H1 Hin) as Fu.
        rewrite Hp in Fx. by simplify_eq.
    + by rewrite Ho.
  - intros userId. rewrite (balance_add_credits _ _ _ _ _ Hup).
    destruct (String.eqb_spec (Prisma.User.id u) userId) as [<-|]; [|by left].
    right. exists u. rewrite (balance_of_found w u) by done. simpl.
    split_and!; try done; f_equal; lia.
Qed.

Lemma add_credits_cases user userId amount w :
  ∃ resp w', Admin.add_credits user userId amount w = (Ret resp, w') ∧
    if negb (from_option isAdmin false user) then w' = w ∧ Http.status resp = 403%nat
    else match amount with
         | Admin.NotANumber => w' = w ∧ Http.status resp = 400%nat
         | Admin.Number n =>
             if n <=? 0 then w' = w ∧ Http.status resp = 400%nat
             else match Prisma.update (Prisma.by_id Prisma.User.id userId)
                          (Prisma.User.add_credits n) (Prisma.users (db w)) with
                  | Some (y, us) => w' = set_db (Prisma.set_users us (db w)) w
                                    ∧ Http.status resp = 200%nat
                  | None => w' = w ∧ Http.status resp = 500%nat
                  end
         end.
Proof.
  unfold Admin.add_credits.
  destruct (negb _); [by eexists _, _|].
  destruct amount as [n|]; [|by eexists _, _].
  eff. destruct (n <=? 0); [by eexists _, _|]. simpl.
  destruct (Prisma.update _ _ _) as [[y us]|]; simpl; [by eexists _, _|].
  rewrite set_db_id. by eexists _, _.
Qed.

Lemma add_credits_safe user userId amount w :
  consistent w → consistent (Admin.add_credits user userId amount w).2.
Proof.
  intros Hw. destruct (add_credits_cases user userId amount w) as (resp & w' & -> & H).
  simpl. destruct (negb _); [by destruct H as [-> _]|].
  destruct amount as [n|]; [|by destruct H as [-> _]].
  destruct (n <=? 0) eqn:Hn; [by destruct H as [-> _]|].
  apply Z.leb_gt in Hn.
  destruct (Prisma.update _ _ _) as [[y us]|] eqn:Hup; [|by destruct H as [-> _]].
  destruct H as [-> _].
  eapply (consistent_add_credits w _ userId n y); [done|lia|exact Hup|by destruct Hw].
Qed.

Lemma purchase_consistent req orderId payment w :
  consistent w → consistent (Payment.purchase req orderId payment w).2.
Proof.
  intros Hw. destruct (purchase_safe req orderId payment w) as [Hu Ho];
    [by destruct Hw|].
  by eapply consistent_same_users.
Qed.

Lemma run_consistent `{Externals} e o w : consistent w → consistent (run e o w).
Proof.
  intros Hw. destruct o; simpl.
  - by apply get_me_safe.
  - by apply delete_me_safe.
  - by apply start_safe.
  - by apply purchase_consistent.
  - by apply stripe_safe.
  - by apply asaas_safe.
  - by apply add_credits_safe.
Qed.

Lemma runs_consistent `{Externals} e ops w :
  consistent w → consistent (foldl (λ w o, run e o w) w ops).
Proof.
  revert w. induction ops as [|o ops IH]; simpl; intros w Hw; [done|].
  apply IH. by apply run_consistent.
Qed.
(** The empty store is consistent, so every store the modelled requests
    can build from it is, and holds no negative balance. *)
Lemma reachable_balances_nonneg `{Externals} e ops userId c :
  balance (foldl (λ w o, run e o w) empty_world ops) userId = Some c → 0 ≤ c.
Proof.
  apply balance_nonneg, runs_consistent.
  split; simpl; [apply NoDup_nil_2|apply Forall_nil_2|apply Forall_nil_2].
Qed.

(** Requests handled one at a time, each handler running to its end before
    the next request is taken: started from rows that are consistent
    (unique user keys, no negative balance, no order granting a negative
    number of credits), no sequence of requests makes a balance negative.
    POST /start lowers a balance by exactly 1, and only the balance of the
    requesting user when it is strictly positive and the user has no
    active subscription; the payment webhooks never lower a balance; the
    admin route answers a non-positive or non-numeric amount with 400 and
    writes nothing. *)
Lemma one_at_a_time_balance_never_negative `{Externals} (e : Webhook.env) (w : world) :
  consistent w →
  (∀ ops userId c,
     balance (foldl (λ w o, run e o w) w ops) userId = Some c → 0 ≤ c)
  ∧ (∀ req jobId userId,
       let w' := (Transform.start req jobId w).2 in
       balance w' userId = balance w userId
       ∨ ∃ u, Prisma.findUnique
                (Prisma.by_id Prisma.User.keycloakId (Transform.user_id req))
                (Prisma.users (db w)) = Some u
            ∧ Prisma.User.id u = userId
            ∧ Transform.has_active_subscription
                (Prisma.findUnique
                   (Prisma.by_id Prisma.Subscription.userId (Prisma.User.id u))
                   (Prisma.subscriptions (db w))) = false
            ∧ 0 < Prisma.User.credits u
            ∧ balance w userId = Some (Prisma.User.credits u)
            ∧ balance w' userId = Some (Prisma.User.credits u - 1))
  ∧ (∀ payload sig, never_decreases w (Webhook.stripe e payload sig w).2)
  ∧ (∀ body token, never_decreases w (Webhook.asaas e body token w).2)
  ∧ (∀ user userId amount,
       match amount with Admin.Number n => n ≤ 0 | Admin.NotANumber => True end →
       ∃ resp, Admin.add_credits user userId amount w = (Ret resp, w)
             ∧ (from_option isAdmin false user = true → Http.status resp = 400%nat)).
Proof.
  intros Hw. split_and!.
  - intros ops userId c. apply balance_nonneg. by apply runs_consistent.
  - intros req jobId userId. by apply start_safe.
  - intros. by apply stripe_safe.
  - intros. by apply asaas_safe.
  - intros user userId amount Ha.
    destruct (add_credits_cases user userId amount w) as (resp & w' & -> & Hc).
    exists resp. destruct (from_option isAdmin false user); simpl in Hc.
    + destruct amount as [n|].
      * apply Z.leb_le in Ha. rewrite Ha in Hc. by destruct Hc as [-> ->].
      * by destruct Hc as [-> ->].
    + by destruct Hc as [-> _].
Qed.

Lemma one_at_a_time_balance_never_negative_witness :
  consistent (Sample.world_with (Sample.alice 1 None))
  ∧ never_decreases (Sample.world_with (Sample.alice 1 None))
      (Webhook.stripe (H := Sample.externals) Sample.env "o1" (Some "whsec")
         (Sample.world_with (Sample.alice 1 None))).2.
Proof.
  assert (Hw : consistent (Sample.world_with (Sample.alice 1 None))).
  { split; simpl.
    - apply NoDup_singleton.
    - apply Forall_singleton. simpl. lia.
    - apply Forall_singleton. vm_compute. discriminate. }
  split; [exact Hw|].
  apply (one_at_a_time_balance_never_negative (H := Sample.externals) Sample.env _ Hw).
Defined.

(** The two parts of the handler of POST /start, run without another
    request in between, are the handler. *)
Lemma start_phases (req : Transform.start_request) (jobId : string) (w : world) :
  Transform.start req jobId w =
    match Transform.start_check req w with
    | (Ret (inl r), w1) => (Ret r, w1)
    | (Ret (inr p), w1) => Transform.start_finish req jobId p w1
    | (Throw e, w1) => (Throw e, w1)
    end.
Proof.
  unfold Transform.start, Transform.start_check, Transform.start_finish,
    Transform.start_catch, Transform.parse_style.
  destruct (Transform.file req) as [img|]; [|done].
  destruct (Transform.body_style req) as [style|]; [|done].
  case_bool_decide; [|done].
  eff. simpl. rewrite !set_db_id.
  destruct (Prisma.findUnique _ (Prisma.users (db w))) as [u|]; simpl; [|done].
  rewrite !set_db_id.
  destruct (negb _ && negb _)%bool; simpl; done.
Qed.

Lemma start_check_reads_only (req : Transform.start_request) (w : world) :
  (Transform.start_check req w).2 = w.
Proof.
  unfold Transform.start_check, Transform.start_catch, Transform.parse_style.
  destruct (Transform.file req) as [img|]; [|done].
  destruct (Transform.body_style req) as [style|]; [|done].
  case_bool_decide; [|done].
  eff. simpl. rewrite !set_db_id.
  destruct (Prisma.findUnique _ (Prisma.users (db w))) as [u|]; simpl; [|done].
  rewrite !set_db_id.
  destruct (negb _ && negb _)%bool; simpl; done.
Qed.

(** One request, arriving and going on before any other arrives, leaves
    the store that the handler run in one piece leaves. *)
Lemma arrive_resume_is_start (req : Transform.start_request) (jobId : string)
    (w : world) :
  Interleaving.world_of
    (Interleaving.run (Interleaving.initial w)
       [Interleaving.Arrive req; Interleaving.Resume 0 jobId])
  = (Transform.start req jobId w).2.
Proof.
  rewrite start_phases. unfold Interleaving.run, Interleaving.initial. simpl.
  destruct (Transform.start_check req w) as [[[r|p]|err] w1]; simpl; [done| |done].
  by destruct (Transform.start_finish req jobId p w1) as [[r|err] w2].
Qed.

(** C2, where the code departs from it.  The handler of POST /start reads
    the balance, waits, and then decrements under the flag it computed
    from that reading.  For a user with one credit and no subscription,
    two requests whose handlers both read before either writes are both
    answered 202 and both decrement: the balance ends at -1, from rows
    that were consistent.  Handled one after the other, the second request
    is answered 402 and the balance stays at 0. *)
Theorem interleaved_starts_overdraw_the_balance :
  let w := Sample.world_with (Sample.alice 1 None) in
  let req := {| Transform.file := Some "aGk="%string;
                Transform.body_style := Some "neon"%string;
                Transform.user_id := "kc1" |} in
  let both := Interleaving.run (Interleaving.initial w)
                [Interleaving.Arrive req; Interleaving.Arrive req;
                 Interleaving.Resume 0 "job-1"; Interleaving.Resume 0 "job-2"] in
  let turns := Interleaving.run (Interleaving.initial w)
                 [Interleaving.Arrive req; Interleaving.Resume 0 "job-1";
                  Interleaving.Arrive req] in
  consistent w
  ∧ balance w "u1" = Some 1
  ∧ Interleaving.answers both = [Transform.started "job-1"; Transform.started "job-2"]
  ∧ Interleaving.waiting both = []
  ∧ balance (Interleaving.world_of both) "u1" = Some (-1)
  ∧ Interleaving.answers turns = [Transform.started "job-1"; Transform.no_credits]
  ∧ balance (Interleaving.world_of turns) "u1" = Some 0.
Proof.
  intros w req both turns. split_and!.
  - split; simpl.
    + apply NoDup_singleton.
    + apply Forall_singleton. simpl. lia.
    + apply Forall_singleton. vm_compute. discriminate.
  - reflexivity.
  - vm_compute. reflexivity.
  - vm_compute. reflexivity.
  - vm_compute. reflexivity.
  - vm_compute. reflexivity.
  - vm_compute. reflexivity.
Qed.

Lemma complete_order_credits (w : world) (orderId : string) o u :
  JsString.truthy (Some orderId) = true →
  Prisma.findUnique (Prisma.by_id Prisma.Order.id orderId) (Prisma.orders (db w)) = Some o →
  Prisma.Order.type o = "credits" →
  Prisma.findUnique (Prisma.by_id Prisma.User.id (Prisma.Order.userId o))
    (Prisma.users (db w)) = Some u →
  ∃ w', Webhook.complete_order (Some orderId) w = (Ret tt, w')
    ∧ Prisma.findUnique (Prisma.by_id Prisma.Order.id orderId) (Prisma.orders (db w'))
        = Some (Prisma.Order.set_status "completed" o)
    ∧ Prisma.findUnique (Prisma.by_id Prisma.User.id (Prisma.Order.userId o))
        (Prisma.users (db w'))
        = Some (Prisma.User.add_credits (Webhook.order_credits o) u).
Proof.
  intros Ht Ho Hty Hu. unfold Webhook.complete_order. rewrite Ht. simpl.
  destruct (update_Some _ (Prisma.Order.set_status "completed") _ _ Ho) as [os Hos].
  destruct (update_Some _ (Prisma.User.add_credits (Webhook.order_credits o)) _ _ Hu)
    as [us Hus].
  eff. simpl. rewrite Hos. simpl. rewrite Hty. simpl.
  unfold Webhook.order_credits at 1. simpl. fold (Webhook.order_credits o).
  rewrite Hus. simpl. rewrite Hu. simpl.
  eexists. split; [done|]. simpl. split.
  - rewrite (find_update_by_id Prisma.Order.id orderId orderId
               (Prisma.Order.set_status "completed") _ _ _ (λ _, eq_refl) Hos).
    by rewrite String.eqb_refl.
  - rewrite (find_update_by_id Prisma.User.id _ (Prisma.Order.userId o)
               (Prisma.User.add_credits (Webhook.order_credits o)) _ _ _
               (λ _, eq_refl) Hus).
    by rewrite String.eqb_refl.
Qed.

Lemma delivery_credits (w : world) (orderId : string) o u :
  JsString.truthy (Some orderId) = true →
  Prisma.findUnique (Prisma.by_id Prisma.Order.id orderId) (Prisma.orders (db w)) = Some o →
  Prisma.Order.type o = "credits" →
  Prisma.findUnique (Prisma.by_id Prisma.User.id (Prisma.Order.userId o))
    (Prisma.users (db w)) = Some u →
  ∃ w', try_catch (Webhook.complete_order (Some orderId);; mret Webhook.received)
          (λ _, mret Webhook.processing_failed) w = (Ret Webhook.received, w')
    ∧ Prisma.findUnique (Prisma.by_id Prisma.Order.id orderId) (Prisma.orders (db w'))
        = Some (Prisma.Order.set_status "completed" o)
    ∧ Prisma.findUnique (Prisma.by_id Prisma.User.id (Prisma.Order.userId o))
        (Prisma.users (db w'))
        = Some (Prisma.User.add_credits (Webhook.order_credits o) u).
Proof.
  intros Ht Ho Hty Hu.
  destruct (complete_order_credits w orderId o u Ht Ho Hty Hu) as (w' & Hc & H1 & H2).
  exists w'. split; [|done]. eff. by rewrite Hc.
Qed.

Lemma delivery_twice (w : world) (orderId : string) o u
    (deliver : Eff world Http.response) :
  deliver = try_catch (Webhook.complete_order (Some orderId);; mret Webhook.received)
              (λ _, mret Webhook.processing_failed) →
  JsString.truthy (Some orderId) = true →
  Prisma.findUnique (Prisma.by_id Prisma.Order.id orderId) (Prisma.orders (db w)) = Some o →
  Prisma.Order.type o = "credits" →
  Prisma.findUnique (Prisma.by_id Prisma.User.id (Prisma.Order.userId o))
    (Prisma.users (db w)) = Some u →
  (deliver w).1 = Ret Webhook.received
  ∧ (deliver (deliver w).2).1 = Ret Webhook.received
  ∧ balance (deliver w).2 (Prisma.Order.userId o)
      = Some (Prisma.User.credits u + Webhook.order_credits o)
  ∧ balance (deliver (deliver w).2).2 (Prisma.Order.userId o)
      = Some (Prisma.User.credits u + 2 * Webhook.order_credits o).
Proof.
  intros -> Ht Ho Hty Hu.
  destruct (delivery_credits w orderId o u Ht Ho Hty Hu) as (w1 & -> & Ho1 & Hu1).
  simpl.
  destruct (delivery_credits w1 orderId _ _ Ht Ho1 Hty Hu1) as (w2 & -> & Ho2 & Hu2).
  simpl in *. unfold balance. rewrite Hu1, Hu2. simpl.
  split_and!; try done. f_equal. unfold Webhook.order_credits. simpl. lia.
Qed.

(** The two route functions, the Asaas one on a body that is an object:
    for an order of type credits, every delivery of a verified Stripe
    [checkout.session.completed] event, or of a PAYMENT_CONFIRMED or
    PAYMENT_RECEIVED notification with the right token, adds the credits
    of the order to the balance of its user, so that after two deliveries
    of the same event the balance has grown twice. *)
Lemma route_functions_credit_every_delivery `{Externals} (e : Webhook.env) (w : world)
    (orderId : string) (o : Prisma.Order.t) (u : Prisma.User.t) :
  JsString.truthy (Some orderId) = true →
  Prisma.findUnique (Prisma.by_id Prisma.Order.id orderId) (Prisma.orders (db w)) = Some o →
  Prisma.Order.type o = "credits" →
  Prisma.findUnique (Prisma.by_id Prisma.User.id (Prisma.Order.userId o))
    (Prisma.users (db w)) = Some u →
  (∀ payload sig,
     stripe_constructEvent payload sig (Webhook.STRIPE_WEBHOOK_SECRET e)
       = Some (checkout_session_completed (Some orderId)) →
     let deliver := Webhook.stripe e payload sig in
     (deliver w).1 = Ret Webhook.received
     ∧ (deliver (deliver w).2).1 = Ret Webhook.received
     ∧ balance (deliver w).2 (Prisma.Order.userId o)
         = Some (Prisma.User.credits u + Webhook.order_credits o)
     ∧ balance (deliver (deliver w).2).2 (Prisma.Order.userId o)
         = Some (Prisma.User.credits u + 2 * Webhook.order_credits o))
  ∧ (∀ body,
       Webhook.event_in (Webhook.event body) ["PAYMENT_CONFIRMED"; "PAYMENT_RECEIVED"]
         = true →
       Webhook.payment body = Some (Some orderId) →
       let deliver := Webhook.asaas e body (Webhook.ASAAS_WEBHOOK_TOKEN e) in
       (deliver w).1 = Ret Webhook.received
       ∧ (deliver (deliver w).2).1 = Ret Webhook.received
       ∧ balance (deliver w).2 (Prisma.Order.userId o)
           = Some (Prisma.User.credits u + Webhook.order_credits o)
       ∧ balance (deliver (deliver w).2).2 (Prisma.Order.userId o)
           = Some (Prisma.User.credits u + 2 * Webhook.order_credits o)).
Proof.
  intros Ht Ho Hty Hu. split.
  - intros payload sig Hev deliver.
    apply (delivery_twice w orderId o u deliver); try done.
    subst deliver. unfold Webhook.stripe. by rewrite Hev.
  - intros body Hev Hpay deliver.
    apply (delivery_twice w orderId o u deliver); try done.
    subst deliver. unfold Webhook.asaas. rewrite bool_decide_eq_true_2 by done.
    simpl. rewrite Hev. unfold Webhook.handleAsaasPaymentConfirmed. rewrite Hpay.
    done.
Qed.

Lemma route_functions_credit_every_delivery_witness :
  let w := Sample.world_with (Sample.alice 1 None) in
  let deliver := Webhook.stripe (H := Sample.externals) Sample.env "o1" (Some "whsec") in
  balance (deliver w).2 "u1" = Some 11
  ∧ balance (deliver (deliver w).2).2 "u1" = Some 21.
Proof.
  intros w deliver.
  destruct (route_functions_credit_every_delivery (H := Sample.externals) Sample.env w
              "o1" Sample.order1 (Sample.alice 1 None) eq_refl eq_refl eq_refl eq_refl)
    as [Hs _].
  destruct (Hs "o1" (Some "whsec") eq_refl) as (_ & _ & H1 & H2).
  split; [exact H1|exact H2].
Defined.

(** An Asaas notification with a JSON body, as the server hands it to the
    route: [event] is undefined, the switch takes its default branch, and
    the answer is [{received: true}] (401 for a wrong token) with nothing
    written. *)
Lemma server_asaas_eq (e : Webhook.env) (payload : string) (token : option string)
    (w : world) :
  Server.asaas e payload token w =
    (Ret (if bool_decide (token = Webhook.ASAAS_WEBHOOK_TOKEN e)
          then Webhook.received
          else Http.error_json 401 "Invalid token"), w).
Proof.
  unfold Server.asaas, Webhook.asaas. eff. by case_bool_decide.
Qed.

(** C4, where the code departs from it.  Deliveries are not deduplicated,
    and on the server those of Asaas are not even processed.  The sample
    store holds a pending order [o1] of ten credits of a user with one
    credit.  The Asaas notification PAYMENT_CONFIRMED for [o1], with the
    right token and a JSON body, reaches the route as a Buffer: it is
    answered [{received: true}], the order stays pending and the balance
    stays at 1, at the first delivery and at the second.  The verified
    Stripe [checkout.session.completed] event for [o1] raises the balance
    to 11, and delivered again to 21. *)
Theorem asaas_json_confirmation_credits_nothing :
  let w := Sample.world_with (Sample.alice 1 None) in
  let asaas := Server.asaas Sample.env Sample.asaas_confirmation
                 (Some "asaas-token"%string) in
  let stripe := Server.stripe (H := Sample.externals) Sample.env "o1"
                  (Some "whsec"%string) in
  Server.parsed_raw Sample.asaas_confirmation
  ∧ Prisma.findUnique (Prisma.by_id Prisma.Order.id "o1") (Prisma.orders (db w))
    = Some Sample.order1
  ∧ balance w "u1" = Some 1
  ∧ asaas w = (Ret Webhook.received, w)
  ∧ asaas (asaas w).2 = (Ret Webhook.received, w)
  ∧ balance (asaas (asaas w).2).2 "u1" = Some 1
  ∧ (stripe w).1 = Ret Webhook.received
  ∧ balance (stripe w).2 "u1" = Some 11
  ∧ balance (stripe (stripe w).2).2 "u1" = Some 21.
Proof.
  intros w asaas stripe. subst asaas.
  rewrite !server_asaas_eq. split_and!; try reflexivity.
  split; [discriminate|]. vm_compute. discriminate.
Qed.
End CreditProperties.

(** ** Rejected webhook requests *)

Section RejectedWebhooks.
Import World Webhook.




(** On the n8n route a signature of another length than the digest makes
    [timingSafeEqual] throw, and the request is answered 500. *)
Lemma n8n_short_signature_is_500 :
  let w := Sample.world_with (Sample.alice 1 None) in
  n8n_transformation_complete (H := Sample.externals) Sample.env
    {[ "jobId" := Js.Str "job-1"; "status" := Js.Str "success" ]} (Some "x") 3000 w
  = (Ret processing_failed, w).
Proof. reflexivity. Qed.
End RejectedWebhooks.

(** ** Logout *)

Section LogoutProperties.
Import World Auth KeycloakAdmin.

(** C8.  POST /logout answers 200 with the message 'Logged out
    successfully' whatever the request and whatever the identity provider
    does: without a refresh token no call is made, and a failed call is
    swallowed.  [keycloakDisableAndLogoutUser] swallows a failed logout and
    throws, with KEYCLOAK_DISABLE_FAILED, exactly when disabling fails. *)
Theorem logout_always_succeeds (w : world) :
  (∀ body fetch_ok,
     (logout body fetch_ok w).1 = Ret logged_out
     ∧ Http.status logged_out = 200%nat
     ∧ Http.body logged_out = [("message", Http.SStr "Logged out successfully")]
     ∧ db (logout body fetch_ok w).2 = db w
     ∧ calls (logout body fetch_ok w).2 =
         match body with
         | Some (Some (String a rt)) => calls w ++ [KeycloakOidcLogout (String a rt)]
         | _ => calls w
         end)
  ∧ (∀ k keycloakUserId,
       (keycloakDisableAndLogoutUser k keycloakUserId w).1 =
         if disable_ok k then Ret tt else Throw KEYCLOAK_DISABLE_FAILED).
Proof.
  split.
  - intros body fetch_ok. unfold logout. eff.
    destruct body as [[[|a rt]|]|]; simpl; try done.
    by destruct fetch_ok.
  - intros k keycloakUserId. unfold keycloakDisableAndLogoutUser,
      keycloakLogoutUser, keycloakDisableUser. eff.
    by destruct (logout_ok k), (disable_ok k).
Qed.
End LogoutProperties.

(** ** First login *)

Section FirstLogin.
Import World Users.

Lemma find_app_new {A} (p : A → bool) t x :
  Prisma.findUnique p t = None → p x = true → Prisma.findUnique p (t ++ [x]) = Some x.
Proof.
  unfold Prisma.findUnique. induction t as [|y t IH]; simpl; intros Hn Hp.
  - by rewrite Hp.
  - destruct (p y); [done|]. auto.
Qed.

(** C9, amended.  When no user has the Keycloak id of the request, the token
    carries an email and no stored user has the same email or the new
    primary key, GET /me creates the user with exactly 3 credits and
    returns it; the calls that follow return the same record and leave the
    store as it is.  In general, when the user exists the store is left as
    it is, and the answer is the existing record unless the user is
    soft-deleted, in which case it is 403 'Conta desativada'. *)
Theorem get_me_creates_once_with_three_credits (req : req_user) (newId : string)
    (now : Z) (w : world) :
  let key := Prisma.by_id Prisma.User.keycloakId (id req) in
  let created :=
    {| Prisma.User.id := newId; Prisma.User.keycloakId := id req;
       Prisma.User.email := email req; Prisma.User.name := Some (name req);
       Prisma.User.credits := 3; Prisma.User.deletedAt := None;
       Prisma.User.createdAt := now |} in
  (Prisma.findUnique key (Prisma.users (db w)) = None →
   JsString.truthy (Some (email req)) = true →
   existsb (Prisma.User.clash created) (Prisma.users (db w)) = false →
   let w1 := set_db (Prisma.set_users (Prisma.users (db w) ++ [created]) (db w)) w in
   get_me req newId now w = (Ret (profile created (isAdmin req)), w1)
   ∧ Prisma.User.credits created = 3
   ∧ Prisma.findUnique key (Prisma.users (db w1)) = Some created
   ∧ ∀ newId' now', get_me req newId' now' w1 = (Ret (profile created (isAdmin req)), w1))
  ∧ (∀ u, Prisma.findUnique key (Prisma.users (db w)) = Some u →
       get_me req newId now w =
         (Ret (if bool_decide (is_Some (Prisma.User.deletedAt u))
               then disabled else profile u (isAdmin req)), w)).
Proof.
  intros key created. split.
  - intros Hnone Hemail Hclash w1.
    assert (Hfind : Prisma.findUnique key (Prisma.users (db w1)) = Some created).
    { simpl. apply find_app_new; [done|]. unfold key, Prisma.by_id. simpl.
      apply String.eqb_refl. }
    split_and!; [| done | done |].
    + destruct (get_me_cases req newId now w) as (resp & w' & -> & H).
      fold key in H. rewrite Hnone, Hemail in H. simpl in H.
      unfold Prisma.create in H. fold created in H. rewrite Hclash in H.
      by destruct H as [-> ->].
    + intros newId' now'.
      destruct (get_me_cases req newId' now' w1) as (resp & w' & -> & H).
      fold key in H. rewrite Hfind in H. by destruct H as [-> ->].
  - intros u Hu.
    destruct (get_me_cases req newId now w) as (resp & w' & -> & H).
    fold key in H. rewrite Hu in H. by destruct H as [-> ->].
Qed.

Lemma get_me_creates_once_with_three_credits_witness :
  let w := set_db Prisma.empty_db empty_world in
  ∃ w1, get_me Sample.alice_req "u1" 1000 w
          = (Ret (profile (Sample.alice 3 None) false), w1)
        ∧ get_me Sample.alice_req "u2" 2000 w1
          = (Ret (profile (Sample.alice 3 None) false), w1).
Proof.
  intros w.
  destruct (get_me_creates_once_with_three_credits Sample.alice_req "u1" 1000 w)
    as [Hfirst _].
  destruct (Hfirst eq_refl eq_refl eq_refl) as (H1 & _ & _ & H2).
  eexists. split; [exact H1|exact (H2 "u2" 2000)].
Defined.

(** C9 as stated fails: a call for an existing, soft-deleted user does not
    return the record. *)
Lemma get_me_answers_403_to_soft_deleted_user :
  ¬ ∀ (req : req_user) (newId : string) (now : Z) (w : world) u,
      Prisma.findUnique (Prisma.by_id Prisma.User.keycloakId (id req))
        (Prisma.users (db w)) = Some u →
      get_me req newId now w = (Ret (profile u (isAdmin req)), w).
Proof.
  intros Hall.
  specialize (Hall Sample.alice_req "u2" 3000
                (Sample.world_with (Sample.alice 3 (Some 2000)))
                (Sample.alice 3 (Some 2000)) eq_refl).
  vm_compute in Hall. discriminate Hall.
Qed.

(** The compiled handler has no soft-delete guard and always returns the
    existing record. *)
Lemma get_me_dist_existing req newId now w u :
  Prisma.findUnique (Prisma.by_id Prisma.User.keycloakId (id req))
    (Prisma.users (db w)) = Some u →
  get_me_dist req newId now w = (Ret (profile u (isAdmin req)), w).
Proof.
  intros Hu. unfold get_me_dist. eff. simpl. rewrite Hu. simpl.
  by rewrite set_db_id.
Qed.
End FirstLogin.

(** ** Soft-deleted accounts *)

Section SoftDelete.
Import World Keycloak.

(** C10, amended.  For a request that carries a bearer token (one that is
    not empty once trimmed; an empty one is answered 401 before anything is
    looked up): when the token has no cached entry, is valid, and belongs
    to a user whose row is soft-deleted, the middleware answers 403 'Conta
    desativada', does not call [next()], and caches the refusal for 60
    seconds.  When the token has a cached entry, the cached [blocked] flag
    alone decides, whatever the row says now. *)
Theorem keycloakMiddleware_blocks_soft_deleted_on_cache_miss
    (authorization : option string) (answer : option IntrospectionResponse)
    (w : world) (token : string) :
  getBearerToken authorization = Some token →
  JsString.truthy (Some token) = true →
  (∀ decoded keycloakId u,
     auth_cache w !! cacheKey token = None →
     answer = Some decoded → active decoded = true →
     sub decoded = Some keycloakId → JsString.truthy (Some keycloakId) = true →
     Prisma.findUnique (Prisma.by_id Prisma.User.keycloakId keycloakId)
       (Prisma.users (db w)) = Some u →
     is_Some (Prisma.User.deletedAt u) →
     keycloakMiddleware authorization answer w =
       (Ret (Respond (Http.error_json 403 "Conta desativada")),
        set_auth_cache
          (<[cacheKey token :=
               ({| user := user_of decoded; blocked := true |}, 60%nat)]> (auth_cache w))
          (set_calls (calls w ++ [KeycloakIntrospect token]) w)))
  ∧ (∀ entry ttl,
       auth_cache w !! cacheKey token = Some (entry, ttl) →
       keycloakMiddleware authorization answer w =
         (Ret (if blocked entry
               then Respond (Http.error_json 403 "Conta desativada")
               else Next (user entry)), w)).
Proof.
  intros Htok Hne. split.
  - intros decoded keycloakId u Hmiss -> Hact Hsub Htruthy Hu Hdel.
    unfold keycloakMiddleware, introspectToken. rewrite Htok. cbv zeta.
    rewrite Hne. eff. simpl.
    rewrite Hmiss. simpl. rewrite Hact, Hsub, Htruthy. simpl.
    rewrite !Hsub. simpl. rewrite !Hu. simpl.
    rewrite !bool_decide_eq_true_2 by done. by destruct w.
  - intros entry ttl Hhit.
    unfold keycloakMiddleware. rewrite Htok. cbv zeta. rewrite Hne. eff. simpl.
    rewrite Hhit. by destruct (blocked entry).
Qed.

Lemma keycloakMiddleware_blocks_soft_deleted_on_cache_miss_witness :
  let w := Sample.world_with (Sample.alice 3 (Some 2000)) in
  let decoded := {| active := true; sub := Some "kc1"; email := Some "alice@example.com";
                    preferred_username := None; name := Some "Alice";
                    realm_roles := Some ["user"]; client_roles := None |} in
  (keycloakMiddleware (Some "Bearer tok-1") (Some decoded) w).1
    = Ret (Respond (Http.error_json 403 "Conta desativada")).
Proof.
  intros w decoded.
  destruct (keycloakMiddleware_blocks_soft_deleted_on_cache_miss
              (Some "Bearer tok-1") (Some decoded) w "tok-1" eq_refl eq_refl)
    as [Hmiss _].
  rewrite (Hmiss decoded "kc1" (Sample.alice 3 (Some 2000)) eq_refl eq_refl eq_refl
             eq_refl eq_refl eq_refl (ex_intro _ 2000 eq_refl)).
  reflexivity.
Defined.

(** C10 as stated fails: a user authenticates, then deletes the account;
    the next request with the same token finds the cached entry and is
    passed on to the handler although the row is soft-deleted. *)
Lemma keycloakMiddleware_lets_soft_deleted_through_on_cache_hit :
  let k := {| KeycloakAdmin.logout_ok := true; KeycloakAdmin.disable_ok := true;
              KeycloakAdmin.enable_ok := true; KeycloakAdmin.reset_ok := true |} in
  let decoded := {| active := true; sub := Some "kc1"; email := Some "alice@example.com";
                    preferred_username := None; name := Some "Alice";
                    realm_roles := Some ["user"]; client_roles := None |} in
  let w0 := Sample.world_with (Sample.alice 3 None) in
  let w1 := (keycloakMiddleware (Some "Bearer tok-1") (Some decoded) w0).2 in
  let w2 := (Users.delete_me k (user_of decoded) 2000 w1).2 in
  Prisma.findUnique (Prisma.by_id Prisma.User.keycloakId "kc1") (Prisma.users (db w2))
    = Some (Sample.alice 3 (Some 2000))
  ∧ (keycloakMiddleware (Some "Bearer tok-1") (Some decoded) w2).1
    = Ret (Next (user_of decoded))
  ∧ ¬ ∃ r, (keycloakMiddleware (Some "Bearer tok-1") (Some decoded) w2).1
           = Ret (Respond r).
Proof.
  intros k decoded w0 w1 w2.
  assert (Hnext : (keycloakMiddleware (Some "Bearer tok-1") (Some decoded) w2).1
                  = Ret (Next (user_of decoded))) by reflexivity.
  split_and!; [reflexivity|exact Hnext|].
  intros [r Hr]. rewrite Hnext in Hr. discriminate Hr.
Qed.
End SoftDelete.

(** ** Single-use tokens *)

Section TokenProperties.
Import World Tokens.

Lemma check_row_rejects {S} (record : option Prisma.Token.t) (now : Z) (s : S) :
  (record = None
   ∨ ∃ r, record = Some r
        ∧ (is_Some (Prisma.Token.usedAt r) ∨ Prisma.Token.expiresAt r < now)) →
  check_row record now s = (Throw INVALID_TOKEN, s).
Proof.
  unfold check_row. intros [->|(r & -> & Hr)]; [done|].
  case_bool_decide; [done|]. destruct Hr as [Hr|Hr]; [done|].
  apply Z.ltb_lt in Hr. by rewrite Hr.
Qed.

Lemma check_row_accepts {S} (r : Prisma.Token.t) (now : Z) (s : S) :
  Prisma.Token.usedAt r = None → now ≤ Prisma.Token.expiresAt r →
  check_row (Some r) now s = (Ret r, s).
Proof.
  intros Hu He. unfold check_row. rewrite Hu.
  rewrite bool_decide_eq_false_2 by (by intros [? ?]).
  apply Z.ltb_ge in He. by rewrite He.
Qed.

(** Password reset: a token whose row is absent, used or expired, or whose
    secret does not match, is refused with INVALID_TOKEN and nothing is
    written. *)
Lemma confirmPasswordReset_rejects `{Externals} k now (id secret newPassword : string)
    (w : world) :
  JsString.split "." (id +:+ "." +:+ secret) !! 0%nat = Some id →
  JsString.split "." (id +:+ "." +:+ secret) !! 1%nat = Some secret →
  let record := Prisma.findUnique (Prisma.by_id Prisma.Token.id id)
                  (Prisma.passwordResetTokens (db w)) in
  (record = None
   ∨ ∃ r, record = Some r
        ∧ (is_Some (Prisma.Token.usedAt r) ∨ Prisma.Token.expiresAt r < now
           ∨ (is_Some (Prisma.findUnique (Prisma.by_id Prisma.User.id (Prisma.Token.userId r))
                         (Prisma.users (db w)))
              ∧ bcrypt_compare secret (Prisma.Token.tokenHash r) = false))) →
  confirmPasswordReset k now (id +:+ "." +:+ secret) newPassword w
    = (Throw INVALID_TOKEN, w).
Proof.
  intros H0 H1 record Hrec. unfold confirmPasswordReset. rewrite H0, H1.
  destruct (missing (Some id) (Some secret)); [done|]. simpl.
  eff. simpl. rewrite !set_db_id. fold record.
  destruct Hrec as [->|(r & -> & [Hr|[Hr|[Hu Hr]]])].
  - done.
  - rewrite check_row_rejects by eauto. done.
  - rewrite check_row_rejects by eauto. done.
  - unfold check_row. case_bool_decide; [done|].
    destruct (_ <? now); [done|]. unfold token_user. eff. simpl.
    destruct Hu as [u ->]. simpl. rewrite set_db_id.
    case_bool_decide; [done|]. by rewrite Hr.
Qed.

(** Password reset: a confirmation that passes the checks marks the row
    as used before it calls the identity provider. *)
Lemma confirmPasswordReset_marks_used `{Externals} k now (id secret newPassword : string)
    (w : world) r u :
  JsString.split "." (id +:+ "." +:+ secret) !! 0%nat = Some id →
  JsString.split "." (id +:+ "." +:+ secret) !! 1%nat = Some secret →
  JsString.truthy (Some id) = true → JsString.truthy (Some secret) = true →
  Prisma.findUnique (Prisma.by_id Prisma.Token.id id)
    (Prisma.passwordResetTokens (db w)) = Some r →
  Prisma.Token.usedAt r = None → now ≤ Prisma.Token.expiresAt r →
  Prisma.findUnique (Prisma.by_id Prisma.User.id (Prisma.Token.userId r))
    (Prisma.users (db w)) = Some u →
  Prisma.User.deletedAt u = None →
  bcrypt_compare secret (Prisma.Token.tokenHash r) = true →
  let w' := (confirmPasswordReset k now (id +:+ "." +:+ secret) newPassword w).2 in
  Prisma.findUnique (Prisma.by_id Prisma.Token.id id)
    (Prisma.passwordResetTokens (db w')) = Some (Prisma.Token.set_usedAt now r)
  ∧ Prisma.users (db w') = Prisma.users (db w)
  ∧ ∀ k' now' newPassword',
      confirmPasswordReset k' now' (id +:+ "." +:+ secret) newPassword' w'
        = (Throw INVALID_TOKEN, w').
Proof.
  intros H0 H1 Hid Hsec Hr Hused Hexp Hu Hdel Hok w'.
  assert (Hw' : Prisma.findUnique (Prisma.by_id Prisma.Token.id id)
            (Prisma.passwordResetTokens (db w')) = Some (Prisma.Token.set_usedAt now r)
          ∧ Prisma.users (db w') = Prisma.users (db w)).
  { subst w'. unfold confirmPasswordReset. rewrite H0, H1. unfold missing.
    rewrite Hid, Hsec. simpl. eff. simpl. rewrite !set_db_id, Hr.
    rewrite check_row_accepts by done. unfold token_user. eff. simpl.
    rewrite Hu. simpl. rewrite !set_db_id, Hdel. simpl.
    rewrite Hok. simpl.
    assert (Hid' : Prisma.Token.id r = id).
    { apply find_elem_of in Hr as [_ Hp]. by apply String.eqb_eq in Hp. }
    rewrite Hid'.
    destruct (update_Some _ (Prisma.Token.set_usedAt now) _ _ Hr) as [ts Hts].
    rewrite Hts. simpl.
    unfold KeycloakAdmin.keycloakResetPassword. eff. simpl.
    split; [|done].
    rewrite (find_update_by_id Prisma.Token.id id id (Prisma.Token.set_usedAt now)
               _ _ _ (λ _, eq_refl) Hts).
    by rewrite String.eqb_refl. }
  destruct Hw' as [Hfind Husers]. split_and!; [done|done|].
  intros k' now' newPassword'. apply confirmPasswordReset_rejects; [done|done|].
  right. exists (Prisma.Token.set_usedAt now r). rewrite Hfind. split; [done|].
  left. simpl. eauto.
Qed.

(** Reactivation: when every check passes and the transaction fails, the
    failure is swallowed: the confirmation returns normally and the tables
    are left as they were (the token unused, the user soft-deleted); only
    the two calls to the identity provider have been made. *)
Lemma confirmReactivation_swallows_failed_transaction `{Externals}
    (k : KeycloakAdmin.outcome) (now : Z) (token decoded : string) (dot : nat)
    (w : world) (r : Prisma.Token.t) (u : Prisma.User.t) :
  decodeURIComponent token = Some decoded →
  JsString.indexOf "." (JsString.trim decoded) = Some (S dot) →
  let id := JsString.slice_to (S dot) (JsString.trim decoded) in
  let secret := JsString.slice_from (S (S dot)) (JsString.trim decoded) in
  missing (Some id) (Some secret) = false →
  Prisma.findUnique (Prisma.by_id Prisma.Token.id id)
    (Prisma.accountReactivationTokens (db w)) = Some r →
  Prisma.Token.usedAt r = None → now ≤ Prisma.Token.expiresAt r →
  Prisma.findUnique (Prisma.by_id Prisma.User.id (Prisma.Token.userId r))
    (Prisma.users (db w)) = Some u →
  is_Some (Prisma.User.deletedAt u) →
  bcrypt_compare secret (Prisma.Token.tokenHash r) = true →
  KeycloakAdmin.enable_ok k = true → KeycloakAdmin.disable_ok k = true →
  confirmReactivation k false now token w =
    (Ret tt,
     set_calls (calls w ++ [KeycloakEnable (Prisma.User.keycloakId u);
                            KeycloakDisable (Prisma.User.keycloakId u)]) w).
Proof.
  intros Hdec Hdot id secret Hmiss Hr Hused Hexp Hu Hdel Hok Hen Hdis.
  unfold confirmReactivation. rewrite Hdec, Hdot. fold id secret. rewrite Hmiss.
  eff. simpl. rewrite !set_db_id, Hr. rewrite check_row_accepts by done.
  unfold token_user. eff. simpl. rewrite Hu. simpl. rewrite !set_db_id.
  rewrite bool_decide_eq_true_2 by done. simpl. rewrite Hok. simpl.
  unfold KeycloakAdmin.keycloakEnableUser, KeycloakAdmin.keycloakDisableUser,
    transaction. eff. rewrite Hen, Hdis. simpl.
  by rewrite <- app_assoc.
Qed.
(** C5, where the code departs from it.  A valid, unused, unexpired
    reactivation token is confirmed while the database transaction fails:
    the failure is caught and not thrown again, so the confirmation
    returns normally, the token is not marked as used and the user stays
    soft-deleted.  A second confirmation with the same token then
    succeeds. *)
Theorem confirmReactivation_failed_transaction_leaves_token_usable :
  let k := {| KeycloakAdmin.logout_ok := true; KeycloakAdmin.disable_ok := true;
              KeycloakAdmin.enable_ok := true; KeycloakAdmin.reset_ok := true |} in
  let w := Sample.world_with (Sample.alice 3 (Some 2000)) in
  let first := confirmReactivation (H := Sample.externals) k false 3000 "t1.s3cr3t" w in
  let second := confirmReactivation (H := Sample.externals) k true 3000 "t1.s3cr3t" first.2 in
  first.1 = Ret tt
  ∧ Prisma.accountReactivationTokens (db first.2) = [Sample.token1]
  ∧ Prisma.Token.usedAt Sample.token1 = None
  ∧ Prisma.users (db first.2) = [Sample.alice 3 (Some 2000)]
  ∧ second.1 = Ret tt
  ∧ Prisma.users (db second.2) = [Sample.alice 3 None].
Proof. vm_compute. by split_and!. Qed.

(** When the transaction commits, the token is marked as used and a second
    confirmation is refused. *)
Lemma confirmReactivation_committed_is_single_use :
  let k := {| KeycloakAdmin.logout_ok := true; KeycloakAdmin.disable_ok := true;
              KeycloakAdmin.enable_ok := true; KeycloakAdmin.reset_ok := true |} in
  let w := Sample.world_with (Sample.alice 3 (Some 2000)) in
  let first := confirmReactivation (H := Sample.externals) k true 3000 "t1.s3cr3t" w in
  let second := confirmReactivation (H := Sample.externals) k true 3000 "t1.s3cr3t" first.2 in
  first.1 = Ret tt
  ∧ Prisma.accountReactivationTokens (db first.2) = [Prisma.Token.set_usedAt 3000 Sample.token1]
  ∧ second.1 = Throw INVALID_TOKEN.
Proof. vm_compute. by split_and!. Qed.

End TokenProperties.

(** ** Cache entries, sessions and the rate limiter *)

Section CacheProperties.
Import Js Redis RedisSessions.

Lemma JSON_round_trip_lookup (o : obj) k :
  JSON_parse (JSON_stringify o) !! k =
    match o !! k with
    | Some (Str s) => Some (Str s)
    | _ => None
    end.
Proof.
  unfold JSON_parse, JSON_stringify. rewrite lookup_fmap, lookup_omap.
  by destruct (o !! k) as [[|s]|].
Qed.

Lemma JSON_round_trip_defined (o : obj) :
  (∀ k, o !! k ≠ Some Undefined) → JSON_parse (JSON_stringify o) = o.
Proof.
  intros H. apply map_eq. intros k. rewrite JSON_round_trip_lookup.
  specialize (H k). by destruct (o !! k) as [[|s]|].
Qed.

Lemma setCache_lists key value e r : lists (setCache key value e r).2 = lists r.
Proof. by destruct e as [[|n]|]. Qed.

Lemma setCache_kv key value e r :
  kv (setCache key value e r).2 =
    <[key := (JSON_stringify value,
              match e with Some (S n) => Some (S n) | _ => None end)]> (kv r).
Proof. by destruct e as [[|n]|]. Qed.

(** X1.  Reading a key back after [setCache] gives the stored value without
    its undefined properties (the value itself when it has none); the time
    to live is the one given, none for 0 or an omitted one; no other key
    changes. *)
Theorem setCache_getCache_round_trip (r : redis) (key : string) (value : obj)
    (e : option nat) :
  let r' := (setCache key value e r).2 in
  getCache key r' = (Ret (Some (JSON_parse (JSON_stringify value))), r')
  ∧ (∀ k, JSON_parse (JSON_stringify value) !! k =
          match value !! k with Some (Str s) => Some (Str s) | _ => None end)
  ∧ ((∀ k, value !! k ≠ Some Undefined) → getCache key r' = (Ret (Some value), r'))
  ∧ snd <$> kv r' !! key = Some (match e with Some (S n) => Some (S n) | _ => None end)
  ∧ (∀ key', key' ≠ key → (getCache key' r').1 = (getCache key' r).1).
Proof.
  intros r'. subst r'. split_and!.
  - rewrite getCache_eq, setCache_kv, lookup_insert_eq. done.
  - apply JSON_round_trip_lookup.
  - intros H. rewrite getCache_eq, setCache_kv, lookup_insert_eq. simpl.
    by rewrite JSON_round_trip_defined.
  - by rewrite setCache_kv, lookup_insert_eq.
  - intros key' Hne. rewrite !getCache_eq, setCache_kv, setCache_lists.
    rewrite lookup_insert_ne by done.
    destruct (kv r !! key') as [[d t]|]; [done|]. by destruct (lists r !! key').
Qed.

Lemma session_key_inj a b : session_key a = session_key b → a = b.
Proof. unfold session_key. apply (inj (String.append "session:")). Qed.

Lemma session_key_not_status_key a b : session_key a ≠ status_key b.
Proof. unfold session_key, status_key. intros H. vm_compute in H. discriminate H. Qed.

(** X2.  A stored session is read back under its id (with the default
    time to live of 86400 seconds when none is given) and is gone after
    [deleteSession]; storing or deleting a session changes neither another
    session nor the status record of any job. *)
Theorem session_round_trip (r : redis) (sessionId : string) (data : obj)
    (e : option nat) :
  let r1 := (storeSession sessionId data e r).2 in
  let r2 := (deleteSession sessionId r1).2 in
  (getSession sessionId r1).1 = Ret (Some (JSON_parse (JSON_stringify data)))
  ∧ (e = None → snd <$> kv r1 !! session_key sessionId = Some (Some (24 * 3600)%nat))
  ∧ (getSession sessionId r2).1 = Ret None
  ∧ (∀ other, other ≠ sessionId →
       (getSession other r1).1 = (getSession other r).1
       ∧ (getSession other r2).1 = (getSession other r).1)
  ∧ (∀ jobId,
       (getTransformationStatus jobId r1).1 = (getTransformationStatus jobId r).1
       ∧ (getTransformationStatus jobId r2).1 = (getTransformationStatus jobId r).1).
Proof.
  intros r1 r2.
  assert (Hkv1 : ∀ k, k ≠ session_key sessionId → kv r1 !! k = kv r !! k).
  { intros k Hk. unfold r1, storeSession. rewrite setCache_kv.
    by rewrite lookup_insert_ne. }
  assert (Hkv2 : ∀ k, k ≠ session_key sessionId → kv r2 !! k = kv r !! k).
  { intros k Hk. unfold r2. simpl. rewrite lookup_delete_ne by done. by apply Hkv1. }
  assert (Hl1 : lists r1 = lists r).
  { unfold r1, storeSession. apply setCache_lists. }
  assert (Hl2 : ∀ k, k ≠ session_key sessionId → lists r2 !! k = lists r !! k).
  { intros k Hk. unfold r2. simpl. rewrite lookup_delete_ne by done. by rewrite Hl1. }
  assert (Hget1 : ∀ k, k ≠ session_key sessionId → (getCache k r1).1 = (getCache k r).1).
  { intros k Hk. rewrite !getCache_eq, Hkv1, Hl1 by done.
    destruct (kv r !! k) as [[d t]|]; [done|]. by destruct (lists r !! k). }
  assert (Hget2 : ∀ k, k ≠ session_key sessionId → (getCache k r2).1 = (getCache k r).1).
  { intros k Hk. rewrite !getCache_eq, Hkv2, Hl2 by done.
    destruct (kv r !! k) as [[d t]|]; [done|]. by destruct (lists r !! k). }
  split_and!.
  - unfold getSession, r1, storeSession. rewrite getCache_eq, setCache_kv.
    by rewrite lookup_insert_eq.
  - intros ->. unfold r1, storeSession. by rewrite setCache_kv, lookup_insert_eq.
  - unfold getSession. rewrite getCache_eq. unfold r2. simpl.
    by rewrite !lookup_delete_eq.
  - intros other Hne. unfold getSession.
    assert (session_key other ≠ session_key sessionId)
      by (intros H; by apply session_key_inj in H).
    by rewrite Hget1, Hget2.
  - intros jobId. unfold getTransformationStatus.
    assert (status_key jobId ≠ session_key sessionId)
      by (intros H; by apply (session_key_not_status_key sessionId jobId)).
    by rewrite Hget1, Hget2.
Qed.

End CacheProperties.

Section RateLimitProperties.
Import RateLimit.






End RateLimitProperties.

Section ConnectProperties.
Import RedisConnect.

Lemma step_settled opt s events :
  done s = true → attached s = false → foldl (step opt) s events = s.
Proof.
  intros Hd Ha. induction events as [|e events IH]; simpl; [done|].
  assert (step opt s e = s) as ->; [|done].
  destruct e; simpl; unfold finishFail; by rewrite ?Ha, ?Hd.
Qed.

(** X4.  Whatever events follow, [connectRedis] settles its promise once,
    by the first of 'ready', 'error' and the timeout: it resolves on
    'ready', and on a failure it resolves when Redis is optional and
    rejects otherwise.  Nothing is settled before the first event. *)
Theorem connectRedis_settles_once_by_first_event (opt : bool) (events : list event) :
  settlements (run opt events) =
    match events with
    | [] => []
    | Ready :: _ => [Resolved]
    | Error err :: _ => [if opt then Resolved else Rejected err]
    | Timeout :: _ => [if opt then Resolved else Rejected "Redis connect timeout"]
    end
  ∧ (opt = true → ∀ err, Rejected err ∉ settlements (run opt events)).
Proof.
  assert (H : settlements (run opt events) =
    match events with
    | [] => []
    | Ready :: _ => [Resolved]
    | Error err :: _ => [if opt then Resolved else Rejected err]
    | Timeout :: _ => [if opt then Resolved else Rejected "Redis connect timeout"]
    end).
  { unfold run. destruct events as [|e events]; [done|]. simpl.
    rewrite step_settled; by destruct e. }
  split; [exact H|]. intros -> err. rewrite H.
  destruct events as [|[| |] ?]; [apply not_elem_of_nil|..];
    intros Hin%list_elem_of_singleton; discriminate Hin.
Qed.

End ConnectProperties.

(** ** The WebSocket server *)

Section WebSocketProperties.
Import Js WebSocketServer.
Context `{JwtVerifier}.

Lemma set_add_spec ws l x : x ∈ set_add ws l ↔ x ∈ l ∨ x = ws.
Proof.
  unfold set_add. case_bool_decide.
  - split; [auto|]. intros [?| ->]; done.
  - rewrite elem_of_app, list_elem_of_singleton. done.
Qed.

Lemma set_add_NoDup ws l : NoDup l → NoDup (set_add ws l).
Proof.
  intros Hl. unfold set_add. case_bool_decide; [done|].
  apply NoDup_app. split_and!; [done| |apply NoDup_singleton].
  intros x Hx Hin. apply list_elem_of_singleton in Hin. by subst.
Qed.

Lemma set_add_nonempty ws l : set_add ws l ≠ [].
Proof.
  unfold set_add. case_bool_decide as Hin.
  - intros ->. by apply elem_of_nil in Hin.
  - by destruct l.
Qed.

Lemma set_delete_spec ws l x : x ∈ set_delete ws l ↔ x ∈ l ∧ x ≠ ws.
Proof. unfold set_delete. rewrite list_elem_of_filter. tauto. Qed.

Lemma step_tidy s e : tidy s → tidy (step s e).
Proof.
  intros Hs. destruct e as [ws token now|ws u|ws|ws type now|channel message]; simpl.
  - unfold on_connection. destruct (negb _); [done|].
    destruct (authenticateToken _) as [[userId role]|]; [|done].
    intros u set. simpl. destruct (decide (userId = u)) as [->|Hne].
    + rewrite lookup_insert_eq. intros [= <-]. split; [apply set_add_nonempty|].
      apply set_add_NoDup. destruct (clients s !! u) as [l|] eqn:E; simpl.
      * by apply (Hs u l).
      * apply NoDup_nil_2.
    + rewrite lookup_insert_ne by done. apply Hs.
  - unfold on_close. simpl. destruct (clients s !! u) as [l|] eqn:E; [|done].
    intros u' set. simpl. destruct (set_delete ws l) as [|x l'] eqn:Hd.
    + destruct (decide (u = u')) as [->|Hne].
      * by rewrite lookup_delete_eq.
      * rewrite lookup_delete_ne by done. apply Hs.
    + destruct (decide (u = u')) as [->|Hne].
      * rewrite lookup_insert_eq. intros [= <-]. split; [done|].
        rewrite <- Hd. apply NoDup_filter. by apply (Hs u' l).
      * rewrite lookup_insert_ne by done. apply Hs.
  - done.
  - unfold handleClientMessage. by destruct (String.eqb _ _).
  - unfold on_channel_message, sendToUser. case_bool_decide; [|done].
    by destruct (_ ≫= _).
Qed.

(** X5.  After any sequence of connections, disconnections and messages,
    every user in the registry has at least one socket and no socket twice:
    the entry of a user is removed with the user's last socket, so the
    size of the registry (reported by /health) is the number of users with
    a registered socket. *)
Theorem clients_registry_has_no_empty_entry (events : list event) (userId : string)
    (set : list nat) :
  clients (run events) !! userId = Some set → set ≠ [] ∧ NoDup set.
Proof.
  unfold run. revert userId set. change (tidy (foldl step initial events)).
  induction events as [|e events IH] using rev_ind.
  - intros u set. simpl. by rewrite lookup_empty.
  - rewrite foldl_app. simpl. by apply step_tidy.
Qed.

Lemma authenticated_as_mono events e ws u :
  authenticated_as events ws u → authenticated_as (events ++ [e]) ws u.
Proof.
  intros (token & now & role & Hin & Ha). exists token, now, role.
  split; [|done]. apply elem_of_app. by left.
Qed.

Lemma step_sound events s e : sound events s → sound (events ++ [e]) (step s e).
Proof.
  intros [Hc Hs].
  assert (Hc' : ∀ u set ws, clients s !! u = Some set → ws ∈ set →
                authenticated_as (events ++ [e]) ws u).
  { intros. by eapply authenticated_as_mono, Hc. }
  assert (Hs' : ∀ ws channel message, (ws, Relayed channel message) ∈ sent s →
                ∃ u, message !! "userId" = Some u
                     ∧ authenticated_as (events ++ [e]) ws u).
  { intros ws ch m Hin. destruct (Hs ws ch m Hin) as (u & ? & ?).
    exists u. split; [done|]. by apply authenticated_as_mono. }
  destruct e as [ws token now|ws u|ws|ws type now|channel message]; simpl.
  - unfold on_connection. destruct (negb (JsString.truthy token)) eqn:Ht; [by split|].
    destruct token as [token|]; [|discriminate Ht]. simpl default.
    destruct (authenticateToken token) as [[userId role]|] eqn:Ha; [|by split].
    split; simpl.
    + intros u set ws'. destruct (decide (userId = u)) as [->|Hne].
      * rewrite lookup_insert_eq. intros [= <-]. rewrite set_add_spec.
        intros [Hin| ->].
        -- destruct (clients s !! u) as [l|] eqn:E; simpl in Hin.
           ++ by eapply Hc'.
           ++ by apply elem_of_nil in Hin.
        -- exists token, now, role. split; [|done].
           apply elem_of_app. right. by apply list_elem_of_singleton.
      * rewrite lookup_insert_ne by done. apply Hc'.
    + intros ws' ch m. rewrite elem_of_app, list_elem_of_singleton.
      intros [Hin|[=]]. by eapply Hs'.
  - unfold on_close. simpl. destruct (clients s !! u) as [l|] eqn:E; [|done].
    split; simpl; [|done].
    intros u' set ws'. destruct (set_delete ws l) as [|x l'] eqn:Hd.
    + destruct (decide (u = u')) as [->|Hne].
      * by rewrite lookup_delete_eq.
      * rewrite lookup_delete_ne by done. apply Hc'.
    + destruct (decide (u = u')) as [->|Hne].
      * rewrite lookup_insert_eq. intros [= <-]. rewrite <- Hd, set_delete_spec.
        intros [Hin _]. by eapply Hc'.
      * rewrite lookup_insert_ne by done. apply Hc'.
  - done.
  - unfold handleClientMessage. destruct (String.eqb _ _); [|done].
    split; simpl; [done|].
    intros ws' ch m. rewrite elem_of_app, list_elem_of_singleton.
    intros [Hin|[=]]. by eapply Hs'.
  - unfold on_channel_message, sendToUser. case_bool_decide; [|done].
    destruct (message !! "userId") as [u|] eqn:Hu; simpl; [|done].
    destruct (clients s !! u) as [l|] eqn:E; simpl; [|done].
    split; simpl; [done|].
    intros ws' ch m. rewrite elem_of_app, list_elem_of_fmap.
    intros [Hin|(ws'' & [= -> -> ->] & Hin)]; [by eapply Hs'|].
    apply list_elem_of_filter in Hin as [_ Hin].
    exists u. split; [done|]. by eapply Hc'.
Qed.

(** X6.  A relayed event is only ever written to a socket that presented a
    token verified for the user the event names: whatever the sequence of
    connections, disconnections and channel messages, if the server sent
    [ws] an event with payload [message], then [message.userId] is a user
    [ws] authenticated as. *)
Theorem relayed_events_reach_only_their_user (events : list event) (ws : nat)
    (channel : string) (message : json) :
  (ws, Relayed channel message) ∈ sent (run events) →
  ∃ userId, message !! "userId" = Some userId ∧ authenticated_as events ws userId.
Proof.
  assert (Hsound : sound events (run events)); [|by apply Hsound].
  unfold run. induction events as [|e events IH] using rev_ind.
  - split; simpl.
    + intros u set ws'. by rewrite lookup_empty.
    + intros ws' ch m Hin. by apply elem_of_nil in Hin.
  - rewrite foldl_app. simpl. by apply step_sound.
Qed.

End WebSocketProperties.

Lemma clients_registry_has_no_empty_entry_witness :
  [1%nat; 2%nat] ≠ [] ∧ NoDup [1%nat; 2%nat].
Proof.
  apply (clients_registry_has_no_empty_entry (H := SampleJwt.verifier)
           [WebSocketServer.Connection 1 (Some "jwt-kc1") 0;
            WebSocketServer.Connection 2 (Some "jwt-kc1") 5;
            WebSocketServer.Connection 3 (Some "jwt-kc2") 6;
            WebSocketServer.Close 3 "kc2"] "kc1").
  vm_compute. reflexivity.
Defined.

Lemma relayed_events_reach_only_their_user_witness :
  ∃ userId,
    ({[ "userId" := "kc1"; "status" := "completed" ]} : gmap string string) !! "userId"
      = Some userId
    ∧ WebSocketServer.authenticated_as (H := SampleJwt.verifier)
        [WebSocketServer.Connection 1 (Some "jwt-kc1") 0;
         WebSocketServer.Connection 2 (Some "jwt-kc2") 5;
         WebSocketServer.ChannelMessage "transformation:complete"
           {[ "userId" := "kc1"; "status" := "completed" ]}] 1 userId.
Proof.
  apply (relayed_events_reach_only_their_user (H := SampleJwt.verifier) _ 1
           "transformation:complete").
  vm_compute. repeat constructor.
Defined.

Lemma set_redis_same w : World.set_redis (World.redis w) w = w.
Proof. by destruct w. Qed.

(** ** The life of a job *)

Section JobProperties.
Import Js Redis.

Lemma job_obj_lookup (j : job) k :
  job_obj j !! k =
    if decide ("id" = k) then Some (Str (id j))
    else if decide ("userId" = k) then Some (Str (userId j))
    else if decide ("imageUrl" = k) then Some (Str (imageUrl j))
    else if decide ("style" = k) then Some (Str (style j))
    else None.
Proof. unfold job_obj. by rewrite !lookup_insert, lookup_singleton. Qed.

Lemma queued_record_lookup (j : job) k :
  JSON_parse (JSON_stringify (spread {[ "status" := Str "pending" ]} (job_obj j))) !! k
  = if decide (k = "status") then Some (Str "pending") else job_obj j !! k.
Proof.
  rewrite JSON_round_trip_lookup. unfold spread. rewrite lookup_union.
  rewrite job_obj_lookup, lookup_singleton.
  repeat case_decide; simplify_eq; done.
Qed.

(** X7.  When a queued job is reported finished (with result fields that
    do not carry [userId], [jobId] or [status]), the cached record read
    back has the new status, the result fields, and the fields the job was
    queued with; the event published on ['transformation:complete'] names
    the job, the user who queued it and the new status. *)
Theorem queued_job_completion_is_cached_and_announced (r : redis) (j : job)
    (status : job_status) (result : option obj) :
  result_obj result !! "userId" = None →
  result_obj result !! "jobId" = None →
  result_obj result !! "status" = None →
  let r1 := (addTransformationJob j r).2 in
  let r2 := (updateTransformationStatus (id j) status result r1).2 in
  ∃ record message,
    (getTransformationStatus (id j) r2).1 = Ret (Some record)
    ∧ record !! "status" = Some (Str (status_str status))
    ∧ record !! "userId" = Some (Str (userId j))
    ∧ (∀ k v, result_obj result !! k = Some (Str v) → record !! k = Some (Str v))
    ∧ (∀ k, result_obj result !! k = None → k ≠ "status" →
            record !! k = job_obj j !! k)
    ∧ published r2 = published r ++ [("transformation:complete", message)]
    ∧ message !! "jobId" = Some (id j)
    ∧ message !! "userId" = Some (userId j)
    ∧ message !! "status" = Some (status_str status).
Proof.
  intros Hu Hj Hs r1 r2.
  assert (Hr1 : kv r1 !! status_key (id j) =
            Some (JSON_stringify (spread {[ "status" := Str "pending" ]} (job_obj j)),
                  Some 3600%nat)).
  { simpl. apply lookup_insert_eq. }
  set (existing := JSON_parse (JSON_stringify
                     (spread {[ "status" := Str "pending" ]} (job_obj j)))).
  assert (Hex : ∀ k, existing !! k =
                     if decide (k = "status") then Some (Str "pending")
                     else job_obj j !! k).
  { intros k. apply queued_record_lookup. }
  assert (Hr2 : r2 = {| kv := <[status_key (id j) :=
                     (JSON_stringify (merged_record existing status result),
                      Some 3600%nat)]> (kv r1);
            lists := lists r1;
            published := published r1 ++
              [("transformation:complete",
                JSON_stringify (completion_event (id j) existing status result))] |}).
  { unfold r2. rewrite updateTransformationStatus_eq, Hr1. done. }
  exists (JSON_parse (JSON_stringify (merged_record existing status result))),
         (JSON_stringify (completion_event (id j) existing status result)).
  assert (Huid : existing !! "userId" = Some (Str (userId j))).
  { rewrite Hex, job_obj_lookup. by repeat case_decide. }
  split_and!.
  - unfold getTransformationStatus. rewrite getCache_eq, Hr2. simpl.
    by rewrite lookup_insert_eq.
  - rewrite JSON_round_trip_lookup, merged_record_status by done. done.
  - rewrite JSON_round_trip_lookup, merged_record_keeps by done. by rewrite Huid.
  - intros k v Hk. rewrite JSON_round_trip_lookup.
    unfold merged_record. by rewrite (spread_lookup_more _ _ _ _ Hk).
  - intros k Hk Hne. rewrite JSON_round_trip_lookup, merged_record_keeps by done.
    rewrite Hex, job_obj_lookup. by repeat case_decide.
  - by rewrite Hr2.
  - unfold JSON_stringify, completion_event. rewrite lookup_omap.
    rewrite spread_lookup_base by done. by rewrite lookup_insert_eq.
  - unfold JSON_stringify, completion_event. rewrite lookup_omap.
    rewrite spread_lookup_base by done. rewrite lookup_insert_ne by done.
    rewrite lookup_insert_eq. unfold prop. by rewrite Huid.
  - unfold JSON_stringify, completion_event. rewrite lookup_omap.
    rewrite spread_lookup_base by done. do 2 rewrite lookup_insert_ne by done.
    by rewrite lookup_singleton_eq.
Qed.

Lemma queued_job_completion_is_cached_and_announced_witness :
  let j := {| id := "j1"; userId := "kc1"; imageUrl := "aGk="; style := "neon" |} in
  let r1 := (addTransformationJob j empty_redis).2 in
  let r2 := (updateTransformationStatus "j1" completed
               (Some {[ "outputUrl" := Str "https://cdn/out.png" ]}) r1).2 in
  ∃ message, published r2 = [("transformation:complete", message)]
             ∧ message !! "userId" = Some "kc1".
Proof.
  intros j r1 r2.
  destruct (queued_job_completion_is_cached_and_announced empty_redis j completed
              (Some {[ "outputUrl" := Str "https://cdn/out.png" ]}))
    as (record & message & _ & _ & _ & _ & _ & Hp & _ & Hu & _);
    [vm_compute; reflexivity..|].
  exists message. split; [exact Hp|exact Hu].
Defined.

End JobProperties.

Section WorkflowCallback.
Import World Webhook.

(** X8.  A callback of the workflow with a JSON body reaches the route as a
    Buffer: [jobId] and [status] are undefined and the signature is checked
    against the text of the Buffer.  Whatever the signature, the route
    answers 401 or 500, never [{success: true}], and neither the rows nor
    the cache change; without a configured secret the answer is 500. *)
Theorem n8n_json_callback_is_never_processed `{Externals} (e : env)
    (payload : string) (signature : option string) (now : Z) (w : world) :
  Server.parsed_raw payload →
  (Server.n8n e payload signature now w).2 = w
  ∧ ((Server.n8n e payload signature now w).1
       = Ret (Http.error_json 401 "Invalid signature")
     ∨ (Server.n8n e payload signature now w).1 = Ret processing_failed)
  ∧ (Server.n8n e payload signature now w).1
      ≠ Ret (Http.json [("success", Http.SBool true)])
  ∧ (N8N_WEBHOOK_SECRET e = None →
     (Server.n8n e payload signature now w).1 = Ret processing_failed).
Proof.
  intros _. unfold Server.n8n, n8n_route. eff.
  destruct (verifySignature e (Server.buffer_json payload) signature)
    as [[]|err] eqn:Hv; simpl.
  - split_and!; [done|by right|done|done].
  - split_and!; [done|by left|done|].
    intros Hs. unfold verifySignature in Hv. rewrite Hs in Hv. simpl in Hv.
    congruence.
  - split_and!; [done|by right|done|done].
Qed.

Lemma n8n_json_callback_is_never_processed_witness :
  let w := Sample.world_with (Sample.alice 1 None) in
  (Server.n8n (H := Sample.externals) Sample.env "{}" (Some "job-1") 2000 w).2 = w.
Proof.
  intros w.
  destruct (n8n_json_callback_is_never_processed (H := Sample.externals) Sample.env
              "{}" (Some "job-1"%string) 2000 w) as [Hw _].
  - split; [discriminate|]. vm_compute. discriminate.
  - exact Hw.
Defined.

End WorkflowCallback.

Section StatusProperties.
Import World TransformStatus.

(** The handler as one case analysis on the cache entry and the stored
    row. *)
Lemma get_status_eq (userId jobId : string) (w : world) :
  get_status userId jobId w =
    (Ret match Redis.kv (redis w) !! Redis.status_key jobId with
         | Some (data, _) => Cached (Js.JSON_parse data)
         | None =>
             match Redis.lists (redis w) !! Redis.status_key jobId with
             | Some _ => Failed
             | None =>
                 match Prisma.findUnique (owned_by (Prisma.users (db w)) jobId userId)
                         (Prisma.transformations (db w)) with
                 | Some t => Stored t
                 | None => NotFound
                 end
             end
         end, w).
Proof.
  unfold get_status, Redis.getTransformationStatus. eff. rewrite getCache_eq.
  destruct (Redis.kv (redis w) !! _) as [[data ttl]|]; simpl.
  { by rewrite set_redis_same. }
  destruct (Redis.lists (redis w) !! _); simpl; rewrite set_redis_same; [done|].
  simpl. rewrite set_db_id. by destruct (Prisma.findUnique _ _).
Qed.

Lemma find_None_all {A} (p : A → bool) (t : list A) x :
  Prisma.findUnique p t = None → x ∈ t → p x = false.
Proof.
  unfold Prisma.findUnique. induction t as [|z t IH]; simpl; intros Hf Hin.
  - by apply elem_of_nil in Hin.
  - destruct (p z) eqn:Hz; [done|].
    apply elem_of_cons in Hin as [->|Hin]; auto.
Qed.

Lemma owned_by_spec users jobId userId t :
  owned_by users jobId userId t = true ↔
    Prisma.Transformation.id t = jobId
    ∧ ∃ u, u ∈ users ∧ Prisma.User.id u = Prisma.Transformation.userId t
           ∧ Prisma.User.keycloakId u = userId.
Proof.
  unfold owned_by. rewrite andb_true_iff, String.eqb_eq, existsb_exists.
  split; intros [Hid (u & Hin & Hu)]; (split; [done|]); exists u.
  - apply andb_true_iff in Hu as [H1 H2]. apply String.eqb_eq in H1, H2.
    by rewrite list_elem_of_In.
  - destruct Hu as [H1 H2]. rewrite <- list_elem_of_In. split; [done|].
    apply andb_true_iff. by rewrite !String.eqb_eq.
Qed.

(** X9.  GET /status/:jobId writes nothing.  When the job has a cached
    record it answers with that record, whoever asks: two users get the
    same answer.  When the key of the job holds a list (the job queue, for
    the id 'queue') the read fails and the answer is 500.  Otherwise the
    answer is a stored row with that id whose owner is the requesting
    user, or 404 when no stored row is one. *)
Theorem get_status_serves_cache_to_anyone (userId other jobId : string) (w : world) :
  let owns (t : Prisma.Transformation.t) :=
    Prisma.Transformation.id t = jobId
    ∧ ∃ u, u ∈ Prisma.users (db w)
           ∧ Prisma.User.id u = Prisma.Transformation.userId t
           ∧ Prisma.User.keycloakId u = userId in
  (get_status userId jobId w).2 = w
  ∧ (∀ data ttl,
       Redis.kv (redis w) !! Redis.status_key jobId = Some (data, ttl) →
       (get_status userId jobId w).1 = Ret (Cached (Js.JSON_parse data))
       ∧ (get_status other jobId w).1 = Ret (Cached (Js.JSON_parse data)))
  ∧ (Redis.kv (redis w) !! Redis.status_key jobId = None →
     match Redis.lists (redis w) !! Redis.status_key jobId with
     | Some _ => (get_status userId jobId w).1 = Ret Failed
     | None =>
         match (get_status userId jobId w).1 with
         | Ret (Stored t) => t ∈ Prisma.transformations (db w) ∧ owns t
         | Ret NotFound => ∀ t, t ∈ Prisma.transformations (db w) → ¬ owns t
         | _ => False
         end
     end).
Proof.
  intros owns. rewrite !get_status_eq. simpl. split_and!; [done| |].
  - intros data ttl ->. done.
  - intros ->. destruct (Redis.lists (redis w) !! _); [done|].
    destruct (Prisma.findUnique _ _) as [t|] eqn:Ht.
    + apply find_elem_of in Ht as [Hin Hp]. split; [done|].
      by apply owned_by_spec in Hp.
    + intros t Hin Hown. apply owned_by_spec in Hown.
      pose proof (find_None_all _ _ t Ht Hin). congruence.
Qed.

End StatusProperties.

Section StartAccepted.
Import World Transform System.




End StartAccepted.

(** ** The bearer token and the roles of a request *)

Section BearerProperties.
Import JsString Keycloak World.

Lemma append_cons (a : ascii) (s t : string) :
  String a s +:+ t = String a (s +:+ t).
Proof. reflexivity. Qed.

Lemma append_empty_r (s : string) : s +:+ "" = s.
Proof. induction s as [|a s IH]; [done|]. by rewrite append_cons, IH. Qed.

Lemma split_no_separator (c : ascii) (s : string) :
  indexOf c s = None → split c s = [s].
Proof.
  induction s as [|a s IH]; simpl; [done|].
  destruct (Ascii.eqb a c); [done|].
  destruct (indexOf c s); [done|]. intros _. by rewrite IH.
Qed.

Lemma split_at_separator (c : ascii) (a b : string) :
  indexOf c a = None → split c (a +:+ String c b) = a :: split c b.
Proof.
  induction a as [|x a IH]; [|rewrite append_cons]; simpl.
  - intros _. change ("" +:+ String c b) with (String c b). simpl.
    by rewrite Ascii.eqb_refl.
  - destruct (Ascii.eqb x c); [done|].
    destruct (indexOf c a); [done|]. intros _. by rewrite IH.
Qed.

(** X11.  [getBearerToken] reads the first two words of the header, split
    at single spaces: it gives the second word, trimmed, when the first
    word is "bearer" in any letter case and the second is not empty, and
    nothing otherwise; further words are ignored, and a header without a
    space, or without the header at all, gives nothing. *)
Theorem getBearerToken_reads_second_word (scheme token : string) (rest : option string) :
  indexOf " " scheme = None →
  indexOf " " token = None →
  getBearerToken
    (Some (scheme +:+ " " +:+ token +:+
           match rest with Some r => " " +:+ r | None => "" end))
  = (if (String.eqb (toLowerCase scheme) "bearer" && truthy (Some token))%bool
     then Some (trim token) else None)
  ∧ getBearerToken (Some scheme) = None
  ∧ getBearerToken None = None.
Proof.
  intros Hs Ht. split_and!; [| |done].
  - unfold getBearerToken.
    assert (Hparts : split " " (scheme +:+ " " +:+ token +:+
              match rest with Some r => " " +:+ r | None => "" end)
            = scheme :: token :: match rest with
                                 | Some r => split " " r
                                 | None => []
                                 end).
    { change (scheme +:+ " " +:+ ?x) with (scheme +:+ String " " x).
      rewrite split_at_separator by done. f_equal.
      destruct rest as [r|].
      - change (token +:+ " " +:+ r) with (token +:+ String " " r).
        by rewrite split_at_separator.
      - rewrite append_empty_r. by apply split_no_separator. }
    assert (Htruthy : truthy (Some (scheme +:+ " " +:+ token +:+
              match rest with Some r => " " +:+ r | None => "" end)) = true).
    { by destruct scheme. }
    rewrite Htruthy. simpl negb. cbv iota.
    unfold default. rewrite Hparts. simpl.
    destruct (String.eqb_spec (toLowerCase scheme) "bearer") as [->|Hne]; simpl.
    + rewrite ?Hparts. by destruct token.
    + rewrite bool_decide_eq_false_2; [done|]. intros [= ?]. by apply Hne.
  - unfold getBearerToken. destruct (truthy (Some scheme)); simpl; [|done].
    rewrite split_no_separator by done. simpl.
    by rewrite orb_true_r.
Qed.

Lemma getBearerToken_reads_second_word_witness :
  getBearerToken (Some "BEARER abc.def xyz") = Some "abc.def"%string.
Proof.
  destruct (getBearerToken_reads_second_word "BEARER" "abc.def" (Some "xyz"%string))
    as [H _]; [reflexivity..|].
  exact H.
Defined.

Lemma uniq_spec (seen l : list string) (x : string) :
  x ∈ uniq seen l ↔ x ∈ l ∧ x ∉ seen.
Proof.
  revert seen. induction l as [|y l IH]; intros seen; simpl.
  - split; [by intros ?%elem_of_nil|by intros [?%elem_of_nil _]].
  - destruct (bool_decide_reflect (y ∈ seen)) as [Hy|Hy].
    + rewrite IH, elem_of_cons. split.
      * intros [? ?]. split; [by right|done].
      * intros [[->|?] ?]; [done|by split].
    + rewrite !elem_of_cons, IH. split.
      * intros [->|[Hl Hn]]; [by split; [left|]|].
        split; [by right|]. intros Hs. apply Hn. by right.
      * intros [[->|Hl] Hn]; [by left|].
        destruct (decide (x = y)) as [->|Hxy]; [by left|]. right.
        split; [done|]. by intros [?|?]%elem_of_cons.
Qed.

Lemma uniq_NoDup (seen l : list string) : NoDup (uniq seen l).
Proof.
  revert seen. induction l as [|y l IH]; intros seen; simpl; [constructor|].
  destruct (bool_decide_reflect (y ∈ seen)); [apply IH|].
  constructor; [|apply IH].
  rewrite uniq_spec. intros [_ Hn]. apply Hn. by left.
Qed.

(** X12.  The roles the middleware gives a request are the realm roles and
    the client roles of the token, each once; the request is an admin's
    exactly when "admin" is one of them. *)
Theorem user_of_roles_are_the_distinct_token_roles (decoded : IntrospectionResponse) :
  let all := default [] (realm_roles decoded) ++ default [] (client_roles decoded) in
  NoDup (roles (user_of decoded))
  ∧ (∀ r, r ∈ roles (user_of decoded) ↔ r ∈ all)
  ∧ (isAdmin (user_of decoded) = true ↔ "admin"%string ∈ all).
Proof.
  intros all. unfold user_of. simpl. fold all. split_and!.
  - apply uniq_NoDup.
  - intros r. rewrite uniq_spec. split; [by intros [? _]|].
    intros ?. split; [done|apply not_elem_of_nil].
  - rewrite bool_decide_eq_true, uniq_spec. split; [by intros [? _]|].
    intros ?. split; [done|apply not_elem_of_nil].
Qed.

End BearerProperties.

(** ** The authentication middleware and its cache *)

Section MiddlewareProperties.
Import JsString Keycloak KeycloakGuards World.

(** The middleware as one case analysis: it always settles with an answer
    or with [next()]. *)
Lemma keycloakMiddleware_cases (authorization : option string)
    (answer : option IntrospectionResponse) (w : world) :
  keycloakMiddleware authorization answer w =
    match getBearerToken authorization with
    | None =>
        (Ret (Respond (Http.error_json 401 "Authorization header missing or invalid")), w)
    | Some token =>
        if negb (truthy (Some token))
        then (Ret (Respond (Http.error_json 401
                              "Authorization header missing or invalid")), w)
        else
        match auth_cache w !! cacheKey token with
        | Some (parsed, _) =>
            (Ret (if blocked parsed
                  then Respond (Http.error_json 403 "Conta desativada")
                  else Next (user parsed)), w)
        | None =>
            let w1 := set_calls (calls w ++ [KeycloakIntrospect token]) w in
            match answer with
            | None => (Ret (Respond (Http.error_json 500 "Auth error")), w1)
            | Some decoded =>
                if (negb (active decoded) || negb (truthy (sub decoded)))%bool
                then (Ret (Respond (Http.error_json 401 "Invalid or expired token")), w1)
                else
                  let blocked :=
                    bool_decide (is_Some
                      (Prisma.findUnique
                         (Prisma.by_id Prisma.User.keycloakId (id (user_of decoded)))
                         (Prisma.users (db w)) ≫= Prisma.User.deletedAt)) in
                  (Ret (if blocked
                        then Respond (Http.error_json 403 "Conta desativada")
                        else Next (user_of decoded)),
                   set_auth_cache
                     (<[cacheKey token :=
                          ({| user := user_of decoded; World.blocked := blocked |},
                           60%nat)]> (auth_cache w)) w1)
            end
        end
    end.
Proof.
  unfold keycloakMiddleware, introspectToken.
  destruct (getBearerToken authorization) as [token|]; [|done].
  cbv zeta. destruct (truthy (Some token)); [|done].
  eff. simpl.
  destruct (auth_cache w !! cacheKey token) as [[parsed ttl]|] eqn:Hc; simpl.
  { by destruct (blocked parsed). }
  destruct answer as [decoded|]; simpl; [|done].
  destruct (negb (active decoded) || negb (truthy (sub decoded)))%bool; simpl; [done|].
  match goal with |- context [bool_decide ?P] => destruct (bool_decide P) end;
    by destruct w.
Qed.

(** X13.  A token that has been accepted once is served from the cache
    afterwards: the first request records one introspection call and one
    cache entry; every later request that finds this cache gets the same
    verdict with no call to Keycloak and no write, whatever Keycloak would
    answer by then and whatever the stored rows have become. *)
Theorem keycloakMiddleware_repeats_cached_verdict
    (authorization : option string) (decoded : IntrospectionResponse)
    (w : world) (token : string) :
  getBearerToken authorization = Some token →
  truthy (Some token) = true →
  auth_cache w !! cacheKey token = None →
  active decoded = true →
  truthy (sub decoded) = true →
  let first := keycloakMiddleware authorization (Some decoded) w in
  calls first.2 = calls w ++ [KeycloakIntrospect token]
  ∧ db first.2 = db w
  ∧ (∃ blocked, auth_cache first.2 =
       <[cacheKey token := ({| user := user_of decoded; World.blocked := blocked |},
                            60%nat)]> (auth_cache w))
  ∧ ∀ answer' w',
      auth_cache w' = auth_cache first.2 →
      keycloakMiddleware authorization answer' w' = (first.1, w').
Proof.
  intros Htok Hne Hmiss Hact Hsub first. subst first.
  rewrite keycloakMiddleware_cases, Htok, Hne, Hmiss, Hact, Hsub. simpl.
  split_and!; [done|done|by eexists|].
  intros answer' w' Hc.
  rewrite keycloakMiddleware_cases, Htok, Hne, Hc. simpl.
  rewrite lookup_insert_eq. simpl.
  by match goal with |- context [bool_decide ?P] => destruct (bool_decide P) end.
Qed.

Lemma keycloakMiddleware_repeats_cached_verdict_witness :
  let decoded := {| active := true; sub := Some "kc1"%string;
                    Keycloak.email := Some "alice@example.com"%string;
                    preferred_username := None; Keycloak.name := Some "Alice"%string;
                    realm_roles := Some ["user"%string]; client_roles := None |} in
  let w := Sample.world_with (Sample.alice 3 None) in
  let w1 := (keycloakMiddleware (Some "Bearer tok-1"%string) (Some decoded) w).2 in
  keycloakMiddleware (Some "Bearer tok-1"%string) None w1 = (Ret (Next (user_of decoded)), w1).
Proof.
  intros decoded w w1.
  destruct (keycloakMiddleware_repeats_cached_verdict (Some "Bearer tok-1"%string)
              decoded w "tok-1" eq_refl eq_refl eq_refl eq_refl eq_refl)
    as (_ & _ & _ & H).
  exact (H None w1 eq_refl).
Defined.

(** X14.  A request that is not authenticated (no bearer token; or, with no
    cached entry for the token, a failed introspection call, an inactive
    token or a token without subject) is answered 401 or 500, never reaches
    the handler, and leaves the cache, the rows and the job store as they
    were: nothing is cached for a rejected token. *)
Theorem keycloakMiddleware_caches_nothing_for_rejected_tokens
    (authorization : option string) (answer : option IntrospectionResponse)
    (w : world) :
  (∀ token, getBearerToken authorization = Some token →
     auth_cache w !! cacheKey token = None
     ∧ ∀ decoded, answer = Some decoded →
         active decoded = false ∨ truthy (sub decoded) = false) →
  ∃ r, (keycloakMiddleware authorization answer w).1 = Ret (Respond r)
       ∧ (Http.status r = 401%nat ∨ Http.status r = 500%nat)
       ∧ auth_cache (keycloakMiddleware authorization answer w).2 = auth_cache w
       ∧ db (keycloakMiddleware authorization answer w).2 = db w
       ∧ redis (keycloakMiddleware authorization answer w).2 = redis w.
Proof.
  intros Hrej. rewrite keycloakMiddleware_cases.
  destruct (getBearerToken authorization) as [token|].
  - destruct (truthy (Some token)); simpl;
      [|eexists; split_and!; try done; by left].
    destruct (Hrej token eq_refl) as [-> Hans]. simpl.
    destruct answer as [decoded|].
    + destruct (Hans decoded eq_refl) as [->| ->]; simpl;
        rewrite ?orb_true_r; eexists; split_and!; try done; by left.
    + eexists; split_and!; try done; by right.
  - eexists; split_and!; try done; by left.
Qed.

Lemma keycloakMiddleware_caches_nothing_for_rejected_tokens_witness :
  let w := Sample.world_with (Sample.alice 3 None) in
  auth_cache (keycloakMiddleware (Some "Bearer tok-1"%string) None w).2 = auth_cache w.
Proof.
  intros w.
  destruct (keycloakMiddleware_caches_nothing_for_rejected_tokens
              (Some "Bearer tok-1"%string) None w) as (r & _ & _ & H & _).
  - intros token [= <-]. split; [reflexivity|]. intros decoded Hd. discriminate Hd.
  - exact H.
Defined.

(** X15.  The role check of [keycloakMiddlewareWithRoles] comes after
    [next()]: the handler is called exactly when [keycloakMiddleware]
    accepts the request, whatever roles are required; a user holding none
    of the required roles (every user, when the list is empty) is sent 403
    'Insufficient permissions' only after the handler has been called. *)
Theorem keycloakMiddlewareWithRoles_checks_roles_after_next
    (requiredRoles : list string) (authorization : option string)
    (answer : option IntrospectionResponse) (w : world) :
  ∃ v p,
    keycloakMiddleware authorization answer w
      = (Ret v, (keycloakMiddleware authorization answer w).2)
    ∧ keycloakMiddlewareWithRoles requiredRoles authorization answer None w
      = (Ret p, (keycloakMiddleware authorization answer w).2)
    ∧ match v with
      | Respond r => next_called p = None ∧ responses p = [r]
      | Next u =>
          next_called p = Some (Some u)
          ∧ responses p =
              if bool_decide (Exists (λ role, role ∈ roles u) requiredRoles)
              then []
              else [Http.error_json 403 "Insufficient permissions"]
      end.
Proof.
  assert (Hret : ∃ v, keycloakMiddleware authorization answer w
                      = (Ret v, (keycloakMiddleware authorization answer w).2)).
  { rewrite keycloakMiddleware_cases.
    repeat match goal with
           | |- context [match ?x with _ => _ end] => destruct x
           end; by eexists. }
  destruct Hret as [v Hv]. unfold keycloakMiddlewareWithRoles.
  unfold mbind at 1. unfold Eff_bind. rewrite Hv.
  destruct v as [r|u]; simpl.
  - eexists _, _. split_and!; [done..|]. done.
  - assert (Hsome : has_some_role requiredRoles u
                    = bool_decide (Exists (λ role, role ∈ roles u) requiredRoles)).
    { unfold has_some_role. apply eq_true_iff_eq.
      rewrite bool_decide_eq_true, existsb_exists, Exists_exists. split.
      - intros (role & Hin & Hr). exists role.
        by rewrite list_elem_of_In, <-(bool_decide_eq_true (role ∈ roles u)).
      - intros (role & Hin & Hr). exists role.
        by rewrite <-list_elem_of_In, bool_decide_eq_true. }
    exists (Next u). rewrite <-Hsome.
    destruct (has_some_role requiredRoles u); simpl; eexists; by split_and!.
Qed.

(** X16.  [optionalAuth] never answers and never fails: it hands the
    request over in every case.  It reads neither the cache nor the rows
    (so its result is the same in any store, also for a soft-deleted
    account), writes nothing, and sets [req.user] only from a token that
    Keycloak reports active. *)
Theorem optionalAuth_never_answers_nor_reads_the_store
    (authorization : option string) (answer : option IntrospectionResponse)
    (req_user0 : option req_user) (w w2 : world) :
  ∃ u,
    (optionalAuth authorization answer req_user0 w).1 = Ret u
    ∧ (optionalAuth authorization answer req_user0 w2).1 = Ret u
    ∧ db (optionalAuth authorization answer req_user0 w).2 = db w
    ∧ redis (optionalAuth authorization answer req_user0 w).2 = redis w
    ∧ auth_cache (optionalAuth authorization answer req_user0 w).2 = auth_cache w
    ∧ (u = req_user0
       ∨ ∃ token decoded,
           getBearerToken authorization = Some token
           ∧ answer = Some decoded ∧ active decoded = true
           ∧ is_Some (sub decoded)
           ∧ u = Some (user_of decoded)).
Proof.
  unfold optionalAuth, introspectToken. eff.
  destruct (getBearerToken authorization) as [[|a token]|]; simpl;
    try (exists req_user0; split_and!; try done; by left).
  destruct answer as [decoded|]; simpl;
    [|exists req_user0; split_and!; try done; by left].
  destruct (active decoded) eqn:Hact; simpl;
    [|exists req_user0; split_and!; try done; by left].
  destruct (sub decoded) as [[|b s]|] eqn:Hsub; simpl;
    try (exists req_user0; split_and!; try done; by left).
  exists (Some (user_of decoded)). split_and!; try done.
  right. exists (String a token), decoded. by split_and!.
Qed.

End MiddlewareProperties.

(** ** More on tables *)

Section MoreTableProperties.
Import Prisma.
Context {A : Type}.
Implicit Types (p q : A → bool) (f : A → A) (t : list A).

Lemma existsb_by_id_fresh (id_of : A → string) i t :
  findUnique (by_id id_of i) t = None →
  existsb (λ y, String.eqb i (id_of y)) t = false.
Proof.
  unfold findUnique, by_id. induction t as [|x t IH]; simpl; [done|].
  rewrite (String.eqb_sym i). destruct (String.eqb (id_of x) i); [done|]. auto.
Qed.

Lemma update_app_new p f t x :
  findUnique p t = None → p x = true →
  update p f (t ++ [x]) = Some (f x, t ++ [f x]).
Proof.
  unfold findUnique. induction t as [|y t IH]; simpl; intros Hn Hp.
  - by rewrite Hp.
  - destruct (p y); [done|]. by rewrite IH.
Qed.

Lemma updateMany_none p f t :
  (∀ x, x ∈ t → p x = false) → updateMany p f t = t.
Proof.
  unfold updateMany. induction t as [|x t IH]; simpl; intros Hp; [done|].
  rewrite (Hp x) by left. f_equal. apply IH. intros y Hy. apply Hp. by right.
Qed.

(** On a table with a unique key, [update] by this key is the [updateMany]
    by this key. *)
Lemma update_updateMany (id_of : A → string) i f t y t' :
  NoDup (id_of <$> t) →
  update (by_id id_of i) f t = Some (y, t') →
  t' = updateMany (by_id id_of i) f t.
Proof.
  revert y t'. induction t as [|x t IH]; simpl; intros y t' Hnd Hup; [done|].
  apply NoDup_cons in Hnd as [Hx Hnd].
  change (updateMany (by_id id_of i) f (x :: t))
    with ((if by_id id_of i x then f x else x) :: updateMany (by_id id_of i) f t).
  destruct (by_id id_of i x) eqn:Hi.
  - injection Hup as _ <-. f_equal. symmetry. apply updateMany_none.
    intros z Hz. unfold by_id in *. apply String.eqb_eq in Hi.
    apply String.eqb_neq. intros Hzi.
    apply Hx. rewrite Hi, <-Hzi. by apply list_elem_of_fmap_2.
  - destruct (update _ f t) as [[y' t'']|] eqn:Hup'; [|done].
    injection Hup as _ <-. f_equal. by apply (IH y' t'').
Qed.

Lemma find_updateMany q p f t :
  (∀ x, q (f x) = q x) →
  findUnique q (updateMany p f t) = (λ x, if p x then f x else x) <$> findUnique q t.
Proof.
  intros Hq. unfold findUnique, updateMany.
  induction t as [|x t IH]; simpl; [done|].
  destruct (p x) eqn:Hp; rewrite ?Hq; destruct (q x); simpl; rewrite ?Hp;
    done || exact IH.
Qed.

End MoreTableProperties.

(** ** POST /api/payments/credits/purchase *)

Section PurchaseProperties.
Import World System Payment Webhook.

(** What a valid purchase by a stored user returns and writes. *)
Lemma purchase_result (req : purchase_request)
    (orderId p r : string) (info : package_info) (u : Prisma.User.t)
    (payment : option (string * string)) (w : world) :
  package req = Some p → CREDIT_PACKAGES p = Some info →
  region req = Some r → r = "BR"%string ∨ r = "PT"%string →
  Prisma.findUnique (Prisma.by_id Prisma.User.keycloakId (user_id req))
    (Prisma.users (db w)) = Some u →
  Prisma.findUnique (Prisma.by_id Prisma.Order.id orderId) (Prisma.orders (db w)) = None →
  let isBR := String.eqb r "BR" in
  let pending :=
    {| Prisma.Order.id := orderId; Prisma.Order.userId := Prisma.User.id u;
       Prisma.Order.type := "credits"; Prisma.Order.status := "pending";
       Prisma.Order.amount := if isBR then priceBRL info else priceEUR info;
       Prisma.Order.currency := if isBR then "BRL" else "EUR";
       Prisma.Order.metadata_credits := Some (credits info);
       Prisma.Order.paymentProvider := None; Prisma.Order.paymentId := None |} in
  let out := purchase req orderId payment w in
  Prisma.users (db out.2) = Prisma.users (db w)
  ∧ calls out.2 = calls w ++ [if isBR then AsaasCreatePayment orderId
                              else StripeCreateCheckout orderId]
  ∧ match payment with
    | Some (paymentId, paymentUrl) =>
        out.1 = Ret (Http.json [("orderId", Http.SStr orderId);
                                ("paymentUrl", Http.SStr paymentUrl);
                                ("paymentId", Http.SStr paymentId)])
        ∧ Prisma.orders (db out.2) =
            Prisma.orders (db w)
            ++ [Prisma.Order.set_payment (if isBR then "asaas" else "stripe")%string
                  paymentId pending]
    | None =>
        out.1 = Ret (Http.error_json 500 "Failed to process payment")
        ∧ Prisma.orders (db out.2) = Prisma.orders (db w) ++ [pending]
    end.
Proof.
  intros Hp Hinfo Hr Hregion Hu Hfresh isBR pending out.
  subst out. unfold purchase, parse_purchase. rewrite Hp, Hr, Hinfo.
  apply (existsb_by_id_fresh Prisma.Order.id) in Hfresh as Hex.
  assert (Hparse : ∀ S,
    (if String.eqb r "BR" then mret (info, true)
     else if String.eqb r "PT" then mret (info, false) else throw ZodError)
    = (mret (info, isBR) : Eff S (package_info * bool))).
  { intros S. subst isBR. by destruct Hregion as [-> | ->]. }
  rewrite Hparse. eff. simpl. rewrite !set_db_id, Hu. simpl.
  unfold Prisma.create. simpl. rewrite Hex. simpl.
  fold pending.
  destruct payment as [[paymentId paymentUrl]|]; simpl.
  - rewrite (update_app_new _ _ _ pending Hfresh) by apply String.eqb_refl.
    simpl. by split_and!.
  - by split_and!.
Qed.


(** X17.  A valid purchase by a stored user adds exactly one order: pending,
    of type 'credits', priced by the region and carrying the credits of the
    package; it changes no user and calls the provider of the region once.
    When the provider answers, the order gets the provider's payment id and
    the answer is 200; when the call fails the answer is 500 and the
    pending order stays in the table, without payment id. *)
Theorem purchase_stores_one_pending_order (req : purchase_request)
    (orderId p r : string) (info : package_info) (u : Prisma.User.t)
    (payment : option (string * string)) (w : world) :
  package req = Some p → CREDIT_PACKAGES p = Some info →
  region req = Some r → r = "BR"%string ∨ r = "PT"%string →
  Prisma.findUnique (Prisma.by_id Prisma.User.keycloakId (user_id req))
    (Prisma.users (db w)) = Some u →
  Prisma.findUnique (Prisma.by_id Prisma.Order.id orderId) (Prisma.orders (db w)) = None →
  let isBR := String.eqb r "BR" in
  let pending :=
    {| Prisma.Order.id := orderId; Prisma.Order.userId := Prisma.User.id u;
       Prisma.Order.type := "credits"; Prisma.Order.status := "pending";
       Prisma.Order.amount := if isBR then priceBRL info else priceEUR info;
       Prisma.Order.currency := if isBR then "BRL" else "EUR";
       Prisma.Order.metadata_credits := Some (credits info);
       Prisma.Order.paymentProvider := None; Prisma.Order.paymentId := None |} in
  let out := purchase req orderId payment w in
  Prisma.users (db out.2) = Prisma.users (db w)
  ∧ calls out.2 = calls w ++ [if isBR then AsaasCreatePayment orderId
                              else StripeCreateCheckout orderId]
  ∧ match payment with
    | Some (paymentId, paymentUrl) =>
        out.1 = Ret (Http.json [("orderId", Http.SStr orderId);
                                ("paymentUrl", Http.SStr paymentUrl);
                                ("paymentId", Http.SStr paymentId)])
        ∧ Prisma.orders (db out.2) =
            Prisma.orders (db w)
            ++ [Prisma.Order.set_payment (if isBR then "asaas" else "stripe")%string
                  paymentId pending]
    | None =>
        out.1 = Ret (Http.error_json 500 "Failed to process payment")
        ∧ Prisma.orders (db out.2) = Prisma.orders (db w) ++ [pending]
    end.
Proof. apply purchase_result. Qed.

Lemma purchase_stores_one_pending_order_witness :
  let req := {| package := Some "small"%string; region := Some "BR"%string;
                user_id := "kc1" |} in
  let w := Sample.world_with (Sample.alice 0 None) in
  (purchase req "o2" None w).1 = Ret (Http.error_json 500 "Failed to process payment")
  ∧ length (Prisma.orders (db (purchase req "o2" None w).2)) = 2%nat.
Proof.
  intros req w.
  destruct (purchase_stores_one_pending_order req "o2" "small" "BR"
              {| credits := 10; priceBRL := 1990; priceEUR := 490 |}
              (Sample.alice 0 None) None w eq_refl eq_refl eq_refl
              (or_introl eq_refl) eq_refl eq_refl) as (_ & _ & Hresp & Horders).
  split; [exact Hresp|]. rewrite Horders. reflexivity.
Defined.





(** X19.  No Asaas notification with a JSON body has an effect: the route
    sees a Buffer, from which [event], [payment] and [subscription] are
    undefined.  With the configured token the answer is 200
    [{received: true}], with any other token 401, and in both cases the
    store is left as it was: no order is completed or marked failed, and
    no subscription changes its status.  So a notification delivered
    again is answered the same way. *)
Theorem asaas_json_notifications_change_nothing (e : env) (payload : string)
    (token : option string) (w : world) :
  Server.parsed_raw payload →
  let out := Server.asaas e payload token w in
  out.2 = w
  ∧ (token = ASAAS_WEBHOOK_TOKEN e → out.1 = Ret received)
  ∧ (token ≠ ASAAS_WEBHOOK_TOKEN e → out.1 = Ret (Http.error_json 401 "Invalid token"))
  ∧ Server.asaas e payload token out.2 = out.
Proof.
  intros _ out. subst out. rewrite !server_asaas_eq. simpl.
  split_and!; [done| | |done].
  - intros ->. by rewrite bool_decide_eq_true_2.
  - intros Hne. by rewrite bool_decide_eq_false_2.
Qed.

Lemma asaas_json_notifications_change_nothing_witness :
  let w := Sample.world_with (Sample.alice 1 None) in
  Server.asaas Sample.env Sample.asaas_confirmation (Some "asaas-token"%string) w
    = (Ret received, w).
Proof.
  intros w.
  destruct (asaas_json_notifications_change_nothing Sample.env
              Sample.asaas_confirmation (Some "asaas-token"%string) w)
    as (Hw & Hr & _).
  - split; [discriminate|]. vm_compute. discriminate.
  - apply injective_projections; [exact (Hr eq_refl)|exact Hw].
Defined.

End PurchaseProperties.

(** ** Subscriptions *)

Section SubscriptionProperties.
Import World System Transform Webhook Subscriptions.

(** X20.  A verified Stripe [customer.subscription.deleted] event is
    answered 200 and sets the subscription with this Stripe id to
    'cancelled', leaving the users as they are; from then on the
    subscriber with no credits left gets 402 NO_CREDITS from
    POST /start, and nothing is written for that request. *)
Theorem stripe_subscription_deleted_ends_unmetered_use `{Externals} (e : env)
    (payload : string) (sig : option string) (sid : string)
    (req : start_request) (jobId img style : string)
    (u : Prisma.User.t) (s : Prisma.Subscription.t) (w : world) :
  stripe_constructEvent payload sig (STRIPE_WEBHOOK_SECRET e)
    = Some (customer_subscription_deleted sid) →
  file req = Some img → body_style req = Some style → style ∈ styles →
  Prisma.findUnique (Prisma.by_id Prisma.User.keycloakId (user_id req))
    (Prisma.users (db w)) = Some u →
  Prisma.findUnique (Prisma.by_id Prisma.Subscription.userId (Prisma.User.id u))
    (Prisma.subscriptions (db w)) = Some s →
  Prisma.Subscription.stripeSubscriptionId s = Some sid →
  Prisma.User.credits u ≤ 0 →
  let out := stripe e payload sig w in
  out.1 = Ret received
  ∧ Prisma.users (db out.2) = Prisma.users (db w)
  ∧ Prisma.findUnique (Prisma.by_id Prisma.Subscription.userId (Prisma.User.id u))
      (Prisma.subscriptions (db out.2))
      = Some (Prisma.Subscription.set_status "cancelled" s)
  ∧ start req jobId out.2 = (Ret no_credits, out.2).
Proof.
  intros Hev Hf Hs Hin Hu Hsub Hsid Hc out.
  assert (Hout : out = (Ret received,
            set_db (Prisma.set_subscriptions
                      (Prisma.updateMany
                         (λ s, bool_decide (Prisma.Subscription.stripeSubscriptionId s
                                            = Some sid))
                         (Prisma.Subscription.set_status "cancelled")
                         (Prisma.subscriptions (db w))) (db w)) w)).
  { subst out. unfold stripe. rewrite Hev. unfold handleStripeSubscriptionDeleted.
    eff. by simpl. }
  assert (Hsub' : Prisma.findUnique
            (Prisma.by_id Prisma.Subscription.userId (Prisma.User.id u))
            (Prisma.subscriptions (db out.2))
          = Some (Prisma.Subscription.set_status "cancelled" s)).
  { rewrite Hout. simpl. rewrite find_updateMany by done. rewrite Hsub. simpl.
    by rewrite Hsid, bool_decide_eq_true_2. }
  split_and!; [by rewrite Hout|by rewrite Hout|done|].
  destruct (start_cases out.2 req jobId) as (resp & w' & Hst & Hcase).
  rewrite Hf, Hs, bool_decide_eq_true_2 in Hcase by done.
  replace (Prisma.users (db out.2)) with (Prisma.users (db w)) in Hcase
    by by rewrite Hout.
  rewrite Hu in Hcase. simpl in Hcase. rewrite Hsub' in Hcase. simpl in Hcase.
  assert (Hz : (0 <? Prisma.User.credits u) = false) by (apply Z.ltb_ge; lia).
  rewrite Hz in Hcase. simpl in Hcase. destruct Hcase as [-> ->]. exact Hst.
Qed.

Lemma stripe_subscription_deleted_ends_unmetered_use_witness :
  let sub1 := {| Prisma.Subscription.id := "s1"; Prisma.Subscription.userId := "u1";
                 Prisma.Subscription.plan := "pro";
                 Prisma.Subscription.billingCycle := "monthly";
                 Prisma.Subscription.status := "active";
                 Prisma.Subscription.stripeSubscriptionId := Some "sub_1"%string;
                 Prisma.Subscription.cancelAtPeriodEnd := false;
                 Prisma.Subscription.currentPeriodEnd := 9000 |} in
  let w := set_db (Prisma.set_subscriptions [sub1]
                     (db (Sample.world_with (Sample.alice 0 None))))
             (Sample.world_with (Sample.alice 0 None)) in
  let ext : Externals :=
    {| bcrypt_compare := λ _ _, false; hmac_sha256_hex := λ _ text, text;
       json_text := λ _, EmptyString;
       stripe_constructEvent := λ payload _ _,
         Some (customer_subscription_deleted payload);
       decodeURIComponent := Some |} in
  let req := {| file := Some "aGk="%string; body_style := Some "neon"%string;
                user_id := "kc1" |} in
  (start req "job-1" w).1 = Ret (started "job-1")
  ∧ (start req "job-1" (stripe (H := ext) Sample.env "sub_1" None w).2).1
    = Ret no_credits.
Proof.
  intros sub1 w ext req. split; [reflexivity|].
  destruct (stripe_subscription_deleted_ends_unmetered_use (H := ext) Sample.env
              "sub_1" None "sub_1" req "job-1" "aGk=" "neon"
              (Sample.alice 0 None) sub1 w eq_refl eq_refl eq_refl) as (_ & _ & _ & H).
  - vm_compute. repeat constructor.
  - reflexivity.
  - reflexivity.
  - reflexivity.
  - vm_compute. discriminate.
  - by rewrite H.
Defined.

Lemma updateMany_idem {A} (p : A → bool) (f : A → A) (t : list A) :
  (∀ x, f (f x) = f x) →
  Prisma.updateMany p f (Prisma.updateMany p f t) = Prisma.updateMany p f t.
Proof.
  intros Hf. unfold Prisma.updateMany. rewrite map_map. apply map_ext.
  intros x. destruct (p x) eqn:Hp; [|by rewrite Hp].
  rewrite Hf. by destruct (p (f x)).
Qed.

(** X21.  POST /subscription/cancel only sets [cancelAtPeriodEnd] on the
    caller's subscription: the status stays what it was, so an active
    subscription goes on counting as active for POST /start; no user is
    changed; and cancelling again gives the same answer and the same
    store. *)
Theorem cancel_keeps_the_subscription_active (user_id : string)
    (u : Prisma.User.t) (s : Prisma.Subscription.t) (w : world) :
  NoDup (Prisma.Subscription.id <$> Prisma.subscriptions (db w)) →
  Prisma.findUnique (Prisma.by_id Prisma.User.keycloakId user_id)
    (Prisma.users (db w)) = Some u →
  Prisma.findUnique (Prisma.by_id Prisma.Subscription.userId (Prisma.User.id u))
    (Prisma.subscriptions (db w)) = Some s →
  let out := cancel user_id w in
  out.1 = Ret (Http.json
                 [("message",
                   Http.SStr "Subscription will be cancelled at the end of the current period");
                  ("cancelAt", Http.SNum (Prisma.Subscription.currentPeriodEnd s))])
  ∧ Prisma.users (db out.2) = Prisma.users (db w)
  ∧ Prisma.findUnique (Prisma.by_id Prisma.Subscription.userId (Prisma.User.id u))
      (Prisma.subscriptions (db out.2)) = Some (cancel_at_period_end s)
  ∧ Prisma.Subscription.status (cancel_at_period_end s) = Prisma.Subscription.status s
  ∧ Prisma.Subscription.cancelAtPeriodEnd (cancel_at_period_end s) = true
  ∧ cancel user_id out.2 = out.
Proof.
  intros Hnd Hu Hsub out.
  set (p := Prisma.by_id Prisma.Subscription.id (Prisma.Subscription.id s)).
  set (t' := Prisma.updateMany p cancel_at_period_end (Prisma.subscriptions (db w))).
  assert (Hrun : ∀ w0 s0,
    NoDup (Prisma.Subscription.id <$> Prisma.subscriptions (db w0)) →
    Prisma.findUnique (Prisma.by_id Prisma.User.keycloakId user_id)
      (Prisma.users (db w0)) = Some u →
    Prisma.findUnique (Prisma.by_id Prisma.Subscription.userId (Prisma.User.id u))
      (Prisma.subscriptions (db w0)) = Some s0 →
    cancel user_id w0 =
      (Ret (Http.json
              [("message",
                Http.SStr "Subscription will be cancelled at the end of the current period");
               ("cancelAt", Http.SNum (Prisma.Subscription.currentPeriodEnd s0))]),
       set_db (Prisma.set_subscriptions
                 (Prisma.updateMany
                    (Prisma.by_id Prisma.Subscription.id (Prisma.Subscription.id s0))
                    cancel_at_period_end (Prisma.subscriptions (db w0))) (db w0)) w0)).
  { intros w0 s0 Hnd0 Hu0 Hs0. unfold cancel. eff. simpl.
    rewrite !set_db_id, Hu0. simpl. rewrite !set_db_id, Hs0. simpl.
    apply find_elem_of in Hs0 as [Hin0 _].
    pose proof (find_by_id_NoDup Prisma.Subscription.id _ s0 Hnd0 Hin0) as Hid.
    destruct (update_Some _ cancel_at_period_end _ _ Hid) as [t0 Ht0].
    rewrite Ht0. simpl.
    by rewrite (update_updateMany Prisma.Subscription.id _ _ _ _ _ Hnd0 Ht0). }
  assert (Hout : out = (Ret (Http.json
              [("message",
                Http.SStr "Subscription will be cancelled at the end of the current period");
               ("cancelAt", Http.SNum (Prisma.Subscription.currentPeriodEnd s))]),
            set_db (Prisma.set_subscriptions t' (db w)) w)).
  { subst out. by apply Hrun. }
  assert (Hsub' : Prisma.findUnique
            (Prisma.by_id Prisma.Subscription.userId (Prisma.User.id u)) t'
          = Some (cancel_at_period_end s)).
  { subst t'. rewrite find_updateMany by done. rewrite Hsub. simpl.
    subst p. unfold Prisma.by_id. by rewrite String.eqb_refl. }
  rewrite Hout. simpl. split_and!; try done.
  rewrite (Hrun _ (cancel_at_period_end s)); simpl; [| |done|done].
  - f_equal. change (Prisma.Subscription.id (cancel_at_period_end s))
      with (Prisma.Subscription.id s). fold p. subst t'.
    rewrite updateMany_idem by done. by destruct w as [[] ? ? ?].
  - subst t'. unfold Prisma.updateMany.
    rewrite <-list_fmap_compose.
    erewrite list_fmap_ext; [exact Hnd|]. intros ? x _. simpl. by destruct (p x).
Qed.

Lemma cancel_keeps_the_subscription_active_witness :
  let sub1 := {| Prisma.Subscription.id := "s1"; Prisma.Subscription.userId := "u1";
                 Prisma.Subscription.plan := "pro";
                 Prisma.Subscription.billingCycle := "monthly";
                 Prisma.Subscription.status := "active";
                 Prisma.Subscription.stripeSubscriptionId := Some "sub_1"%string;
                 Prisma.Subscription.cancelAtPeriodEnd := false;
                 Prisma.Subscription.currentPeriodEnd := 9000 |} in
  let w := set_db (Prisma.set_subscriptions [sub1]
                     (db (Sample.world_with (Sample.alice 0 None))))
             (Sample.world_with (Sample.alice 0 None)) in
  Prisma.findUnique (Prisma.by_id Prisma.Subscription.userId "u1")
    (Prisma.subscriptions (db (cancel "kc1" w).2)) = Some (cancel_at_period_end sub1)
  ∧ cancel "kc1" (cancel "kc1" w).2 = cancel "kc1" w.
Proof.
  intros sub1 w.
  destruct (cancel_keeps_the_subscription_active "kc1" (Sample.alice 0 None) sub1 w)
    as (_ & _ & H1 & _ & _ & H2).
  - vm_compute. repeat constructor. by intros ?%elem_of_nil.
  - reflexivity.
  - reflexivity.
  - split; [exact H1|exact H2].
Defined.

End SubscriptionProperties.

(** ** Deleting and reactivating an account *)

Section AccountProperties.
Import World System Users AdminUsers.

Lemma update_undo {A} (p : A → bool) (f g : A → A) (t : list A) (x : A) :
  Prisma.findUnique p t = Some x → p (f x) = true → g (f x) = x →
  ∃ t', Prisma.update p f t = Some (f x, t') ∧ Prisma.update p g t' = Some (x, t).
Proof.
  unfold Prisma.findUnique. induction t as [|z t IH]; simpl; intros Hx Hp Hg; [done|].
  destruct (p z) eqn:Hz.
  - injection Hx as ->. eexists. split; [done|]. simpl. by rewrite Hp, Hg.
  - destruct (IH Hx Hp Hg) as (t' & -> & Hback). eexists. split; [done|].
    simpl. by rewrite Hz, Hback.
Qed.

Lemma delete_me_result (k : KeycloakAdmin.outcome) (req : req_user) (now : Z)
    (u : Prisma.User.t) (w : world) :
  Prisma.findUnique (Prisma.by_id Prisma.User.keycloakId (id req))
    (Prisma.users (db w)) = Some u →
  ∃ us,
    delete_me k req now w =
      (if KeycloakAdmin.disable_ok k
       then Ret {| Http.status := 200;
                   Http.body := [("message", Http.SStr "Conta desativada")] |}
       else Throw KEYCLOAK_DISABLE_FAILED,
       set_calls (calls w ++ [KeycloakLogout (id req); KeycloakDisable (id req)])
         (set_db (Prisma.set_users us (db w)) w))
    ∧ match Prisma.User.deletedAt u with
      | Some _ => us = Prisma.users (db w)
      | None => Prisma.update (Prisma.by_id Prisma.User.keycloakId (id req))
                  (Prisma.User.set_deletedAt (Some now)) (Prisma.users (db w))
                = Some (Prisma.User.set_deletedAt (Some now) u, us)
      end.
Proof.
  intros Hu. unfold delete_me, KeycloakAdmin.keycloakDisableAndLogoutUser,
    KeycloakAdmin.keycloakLogoutUser, KeycloakAdmin.keycloakDisableUser.
  eff. simpl. rewrite !set_db_id, Hu. simpl.
  destruct (Prisma.User.deletedAt u) as [d|] eqn:Hd; simpl.
  - exists (Prisma.users (db w)). split; [|done].
    destruct (KeycloakAdmin.logout_ok k), (KeycloakAdmin.disable_ok k); simpl;
      rewrite <-app_assoc; by destruct w as [[] ? ? ?].
  - destruct (update_Some _ (Prisma.User.set_deletedAt (Some now)) _ _ Hu) as [us Hus].
    rewrite Hus. simpl. exists us. split; [|done].
    destruct (KeycloakAdmin.logout_ok k), (KeycloakAdmin.disable_ok k); simpl;
      rewrite <-app_assoc; by destruct w as [[] ? ? ?].
Qed.

(** X22.  DELETE /me soft-deletes the caller's row whether or not Keycloak
    can be reached: the row is marked before Keycloak is called, both
    Keycloak calls (logout, disable) are attempted, and the request is
    answered 200 exactly when the disable call succeeds (otherwise the
    handler throws KEYCLOAK_DISABLE_FAILED, the row staying marked).  The
    first deletion time is kept: deleting again changes no row. *)
Theorem delete_me_marks_the_row_before_keycloak (k k2 : KeycloakAdmin.outcome)
    (req : req_user) (now now2 : Z) (u : Prisma.User.t) (w : world) :
  Prisma.findUnique (Prisma.by_id Prisma.User.keycloakId (id req))
    (Prisma.users (db w)) = Some u →
  let out := delete_me k req now w in
  out.1 = (if KeycloakAdmin.disable_ok k
           then Ret {| Http.status := 200;
                       Http.body := [("message", Http.SStr "Conta desativada")] |}
           else Throw KEYCLOAK_DISABLE_FAILED)
  ∧ calls out.2 = calls w ++ [KeycloakLogout (id req); KeycloakDisable (id req)]
  ∧ Prisma.findUnique (Prisma.by_id Prisma.User.keycloakId (id req))
      (Prisma.users (db out.2))
      = Some (Prisma.User.set_deletedAt
                (Some (default now (Prisma.User.deletedAt u))) u)
  ∧ Prisma.users (db (delete_me k2 req now2 out.2).2) = Prisma.users (db out.2).
Proof.
  intros Hu out.
  destruct (delete_me_result k req now u w Hu) as (us & Hout & Hus).
  assert (Hfind : Prisma.findUnique (Prisma.by_id Prisma.User.keycloakId (id req)) us
                  = Some (Prisma.User.set_deletedAt
                            (Some (default now (Prisma.User.deletedAt u))) u)).
  { destruct (Prisma.User.deletedAt u) as [d|] eqn:Hd; simpl.
    - subst us. rewrite Hu. f_equal. destruct u; simpl in *. by rewrite Hd.
    - rewrite (find_update_by_id Prisma.User.keycloakId (id req) (id req)
                 (Prisma.User.set_deletedAt (Some now)) _ _ _ (λ _, eq_refl) Hus).
      by rewrite String.eqb_refl. }
  subst out. rewrite Hout. simpl. split_and!; [done|done|done|].
  match goal with |- context [delete_me k2 req now2 ?w1] =>
    destruct (delete_me_result k2 req now2 _ w1 Hfind) as (us2 & -> & Hus2) end.
  simpl in *. done.
Qed.

Lemma delete_me_marks_the_row_before_keycloak_witness :
  let k := {| KeycloakAdmin.logout_ok := false; KeycloakAdmin.disable_ok := false;
              KeycloakAdmin.enable_ok := true; KeycloakAdmin.reset_ok := true |} in
  let w := Sample.world_with (Sample.alice 3 None) in
  (delete_me k Sample.alice_req 2000 w).1 = Throw KEYCLOAK_DISABLE_FAILED
  ∧ Prisma.findUnique (Prisma.by_id Prisma.User.keycloakId "kc1")
      (Prisma.users (db (delete_me k Sample.alice_req 2000 w).2))
    = Some (Sample.alice 3 (Some 2000)).
Proof.
  intros k w.
  destruct (delete_me_marks_the_row_before_keycloak k k Sample.alice_req 2000 2000
              (Sample.alice 3 None) w eq_refl) as (H1 & _ & H2 & _).
  split; [exact H1|exact H2].
Defined.

(** X23.  Deleting an account and having an admin reactivate it is a round
    trip on the stored rows: after DELETE /me by a user who was not
    deleted and POST /users/:keycloakId/reactivate by an admin, the table
    of users is exactly what it was, credits included. *)
Theorem delete_then_admin_reactivate_restores_the_users
    (k k2 : KeycloakAdmin.outcome) (req admin : req_user) (now : Z)
    (u : Prisma.User.t) (w : world) :
  Prisma.findUnique (Prisma.by_id Prisma.User.keycloakId (id req))
    (Prisma.users (db w)) = Some u →
  Prisma.User.deletedAt u = None →
  isAdmin admin = true →
  let w1 := (delete_me k req now w).2 in
  let out := reactivate k2 (Some admin) (id req) w1 in
  Prisma.findUnique (Prisma.by_id Prisma.User.keycloakId (id req))
    (Prisma.users (db w1)) = Some (Prisma.User.set_deletedAt (Some now) u)
  ∧ Prisma.users (db out.2) = Prisma.users (db w)
  ∧ out.1 = Ret (if KeycloakAdmin.enable_ok k2 then reactivated
                 else reactivation_failed).
Proof.
  intros Hu Hd Hadmin w1 out.
  destruct (delete_me_result k req now u w Hu) as (us & Hout & Hus).
  rewrite Hd in Hus.
  destruct (update_undo (Prisma.by_id Prisma.User.keycloakId (id req))
              (Prisma.User.set_deletedAt (Some now)) (Prisma.User.set_deletedAt None)
              _ u Hu) as (us' & Hus' & Hback).
  { apply find_elem_of in Hu as [_ Hp]. exact Hp. }
  { destruct u; simpl in *. by rewrite Hd. }
  rewrite Hus in Hus'. injection Hus' as <-.
  subst out w1. rewrite Hout. cbn [fst snd].
  split.
  { simpl. rewrite (find_update_by_id Prisma.User.keycloakId (id req) (id req)
               (Prisma.User.set_deletedAt (Some now)) _ _ _ (λ _, eq_refl) Hus).
    by rewrite String.eqb_refl. }
  unfold reactivate. cbn [from_option]. rewrite Hadmin. simpl.
  unfold KeycloakAdmin.keycloakEnableUser.
  eff. simpl. rewrite Hback. simpl.
  by destruct (KeycloakAdmin.enable_ok k2).
Qed.

Lemma delete_then_admin_reactivate_restores_the_users_witness :
  let k := {| KeycloakAdmin.logout_ok := true; KeycloakAdmin.disable_ok := true;
              KeycloakAdmin.enable_ok := true; KeycloakAdmin.reset_ok := true |} in
  let admin := {| id := "kc-admin"; email := "root@example.com"; name := "Root";
                  roles := ["admin"%string]; isAdmin := true |} in
  let w := Sample.world_with (Sample.alice 3 None) in
  Prisma.users (db (reactivate k (Some admin) "kc1"
                      (delete_me k Sample.alice_req 2000 w).2).2)
    = [Sample.alice 3 None].
Proof.
  intros k admin w.
  destruct (delete_then_admin_reactivate_restores_the_users k k Sample.alice_req admin
              2000 (Sample.alice 3 None) w eq_refl eq_refl eq_refl) as (_ & H & _).
  exact H.
Defined.

(** X24.  The admin reactivation writes the row before it calls Keycloak
    and does not undo the write: when the enable call fails the answer is
    500 although the row is active again.  For a Keycloak id that no row
    carries the answer is 500 too, with no call to Keycloak and nothing
    written; without the admin role the answer is 403 and nothing
    happens. *)
Theorem admin_reactivate_keeps_the_row_when_keycloak_fails
    (k : KeycloakAdmin.outcome) (user : option req_user) (keycloakId : string)
    (w : world) :
  let out := reactivate k user keycloakId w in
  (from_option isAdmin false user = false →
   out = (Ret (Http.error_json 403 "Admin access required"), w))
  ∧ (from_option isAdmin false user = true →
     Prisma.findUnique (Prisma.by_id Prisma.User.keycloakId keycloakId)
       (Prisma.users (db w)) = None →
     out = (Ret reactivation_failed, w))
  ∧ (∀ u, from_option isAdmin false user = true →
     Prisma.findUnique (Prisma.by_id Prisma.User.keycloakId keycloakId)
       (Prisma.users (db w)) = Some u →
     out.1 = Ret (if KeycloakAdmin.enable_ok k then reactivated
                  else reactivation_failed)
     ∧ calls out.2 = calls w ++ [KeycloakEnable keycloakId]
     ∧ Prisma.findUnique (Prisma.by_id Prisma.User.keycloakId keycloakId)
         (Prisma.users (db out.2)) = Some (Prisma.User.set_deletedAt None u)).
Proof.
  intros out. subst out. unfold reactivate. split_and!.
  - by intros ->.
  - intros -> Hu. simpl. eff.
    rewrite (update_None _ _ _ Hu). simpl. by rewrite set_db_id.
  - intros u -> Hu. simpl. unfold KeycloakAdmin.keycloakEnableUser. eff.
    destruct (update_Some _ (Prisma.User.set_deletedAt None) _ _ Hu) as [us Hus].
    rewrite Hus. simpl.
    pose proof (find_update_by_id Prisma.User.keycloakId keycloakId keycloakId
               (Prisma.User.set_deletedAt None) _ _ _ (λ _, eq_refl) Hus) as Hfind.
    rewrite String.eqb_refl in Hfind.
    by destruct (KeycloakAdmin.enable_ok k).
Qed.

Lemma admin_reactivate_keeps_the_row_when_keycloak_fails_witness :
  let k := {| KeycloakAdmin.logout_ok := true; KeycloakAdmin.disable_ok := true;
              KeycloakAdmin.enable_ok := false; KeycloakAdmin.reset_ok := true |} in
  let admin := {| id := "kc-admin"; email := "root@example.com"; name := "Root";
                  roles := ["admin"%string]; isAdmin := true |} in
  let w := Sample.world_with (Sample.alice 3 (Some 2000)) in
  (reactivate k (Some admin) "kc1" w).1 = Ret reactivation_failed
  ∧ Prisma.findUnique (Prisma.by_id Prisma.User.keycloakId "kc1")
      (Prisma.users (db (reactivate k (Some admin) "kc1" w).2))
    = Some (Sample.alice 3 None).
Proof.
  intros k admin w.
  destruct (admin_reactivate_keeps_the_row_when_keycloak_fails k (Some admin) "kc1" w)
    as (_ & _ & H).
  destruct (H (Sample.alice 3 (Some 2000)) eq_refl eq_refl) as (H1 & _ & H2).
  split; [exact H1|exact H2].
Defined.

(** X25.  An admin's POST /users/:userId/credits with a positive whole
    amount, when the amount and the balance it makes fit a 32-bit integer,
    raises the balance of that user by exactly the amount, reports the new
    balance, and changes no other balance; for a user id that no row
    carries the answer is 500 and nothing is written. *)
Theorem admin_add_credits_adds_exactly_the_amount (admin : req_user)
    (userId : string) (n : Z) (w : world) :
  isAdmin admin = true → 0 < n → n ≤ Admin.INT_MAX →
  (∀ c, balance w userId = Some c → c + n ≤ Admin.INT_MAX) →
  let out := Admin.add_credits (Some admin) userId (Admin.Number n) w in
  (∀ j, balance out.2 j = if String.eqb userId j then (λ c, c + n) <$> balance w j
                          else balance w j)
  ∧ match balance w userId with
    | Some c =>
        out.1 = Ret (Http.json
                       [("message",
                         Http.SStr ("Added " +:+ pretty n +:+ " credits to user"));
                        ("newBalance", Http.SNum (c + n))])
    | None => out = (Ret (Http.error_json 500 "Failed to add credits"), w)
    end.
Proof.
  intros Hadmin Hn _ _ out. subst out. unfold Admin.add_credits.
  cbn [from_option]. rewrite Hadmin. simpl.
  assert (Hle : (n <=? 0) = false) by (apply Z.leb_gt; lia).
  eff. rewrite Hle.
  destruct (Prisma.findUnique (Prisma.by_id Prisma.User.id userId) (Prisma.users (db w)))
    as [u|] eqn:Hu.
  - assert (Hb : balance w userId = Some (Prisma.User.credits u))
      by (unfold balance; by rewrite Hu).
    rewrite Hb.
    destruct (update_Some _ (Prisma.User.add_credits n) _ _ Hu) as [us Hus].
    rewrite Hus. simpl. split; [|done].
    apply (balance_add_credits w (set_db (Prisma.set_users us (db w)) w) _ _ _ Hus).
  - assert (Hb : balance w userId = None) by (unfold balance; by rewrite Hu).
    rewrite Hb.
    rewrite (update_None _ _ _ Hu). simpl. rewrite set_db_id. split; [|done].
    intros j. destruct (String.eqb_spec userId j) as [<-|]; [|done].
    by rewrite Hb.
Qed.

Lemma admin_add_credits_adds_exactly_the_amount_witness :
  let admin := {| id := "kc-admin"; email := "root@example.com"; name := "Root";
                  roles := ["admin"%string]; isAdmin := true |} in
  let w := Sample.world_with (Sample.alice 3 None) in
  balance (Admin.add_credits (Some admin) "u1" (Admin.Number 5) w).2 "u1" = Some 8.
Proof.
  intros admin w.
  destruct (admin_add_credits_adds_exactly_the_amount admin "u1" 5 w eq_refl)
    as [H _]; [lia|unfold Admin.INT_MAX; lia| |].
  - intros c Hc. vm_compute in Hc. injection Hc as <-. unfold Admin.INT_MAX. lia.
  - rewrite H. reflexivity.
Defined.

End AccountProperties.

(** ** Requesting and confirming a token *)

Section TokenRequestProperties.
Import World Tokens TokenRequests JsString.
Context {ext : Externals} {enc : UriEncoder}.

Lemma set_world_id (s : state) : set_world (world s) s = s.
Proof. by destruct s. Qed.

Lemma token_parts (id secret : string) :
  indexOf "." id = None → indexOf "." secret = None →
  split "." (id +:+ "." +:+ secret) = [id; secret].
Proof.
  intros Hid Hsec. change (id +:+ "." +:+ secret) with (id +:+ String "." secret).
  by rewrite split_at_separator, split_no_separator.
Qed.

Lemma requestPasswordReset_sends (FRONTEND_URL : option string) (d : draw)
    (mail_ok : bool) (email : string) (u : Prisma.User.t) (s : state) :
  Prisma.findUnique (by_email (toLowerCase (trim email))) (Prisma.users (db (world s)))
    = Some u →
  Prisma.User.deletedAt u = None →
  Prisma.findUnique (Prisma.by_id Prisma.Token.id (newId d))
    (Prisma.passwordResetTokens (db (world s))) = None →
  requestPasswordReset FRONTEND_URL d mail_ok email s =
    (if mail_ok then Ret tt else Throw UpstreamError,
     {| world := set_db (Prisma.set_passwordResetTokens
                           (Prisma.passwordResetTokens (db (world s)) ++ [new_token d u])
                           (db (world s))) (world s);
        outbox := outbox s ++
          [{| to := toLowerCase (trim email); subject := "Redefinição de senha";
              link := buildResetLink FRONTEND_URL (newId d +:+ "." +:+ secret d) |}] |}).
Proof.
  intros Hu Hd Hfresh. unfold requestPasswordReset, on_world, sendMail. eff. simpl.
  rewrite Hu. simpl. rewrite Hd. simpl.
  unfold Prisma.create, token_clash. simpl.
  rewrite (existsb_by_id_fresh Prisma.Token.id _ _ Hfresh). simpl.
  rewrite !set_db_id. by destruct s.
Qed.

Lemma confirmPasswordReset_accepts (k : KeycloakAdmin.outcome) (now : Z)
    (id secret newPassword : string) (w : World.world) r u :
  indexOf "." id = None → indexOf "." secret = None →
  truthy (Some id) = true → truthy (Some secret) = true →
  Prisma.findUnique (Prisma.by_id Prisma.Token.id id)
    (Prisma.passwordResetTokens (db w)) = Some r →
  Prisma.Token.usedAt r = None → now ≤ Prisma.Token.expiresAt r →
  Prisma.findUnique (Prisma.by_id Prisma.User.id (Prisma.Token.userId r))
    (Prisma.users (db w)) = Some u →
  Prisma.User.deletedAt u = None →
  bcrypt_compare secret (Prisma.Token.tokenHash r) = true →
  let out := confirmPasswordReset k now (id +:+ "." +:+ secret) newPassword w in
  out.1 = (if KeycloakAdmin.reset_ok k then Ret tt else Throw UpstreamError)
  ∧ calls out.2 = calls w ++ [KeycloakResetPassword (Prisma.User.keycloakId u) newPassword]
  ∧ Prisma.users (db out.2) = Prisma.users (db w)
  ∧ Prisma.findUnique (Prisma.by_id Prisma.Token.id id)
      (Prisma.passwordResetTokens (db out.2)) = Some (Prisma.Token.set_usedAt now r)
  ∧ ∀ k' now' newPassword',
      confirmPasswordReset k' now' (id +:+ "." +:+ secret) newPassword' out.2
        = (Throw INVALID_TOKEN, out.2).
Proof.
  intros Hid Hsec Htid Htsec Hr Hused Hexp Hu Hdel Hok out.
  pose proof (token_parts id secret Hid Hsec) as Hparts.
  assert (H0 : split "." (id +:+ "." +:+ secret) !! 0%nat = Some id)
    by by rewrite Hparts.
  assert (H1 : split "." (id +:+ "." +:+ secret) !! 1%nat = Some secret)
    by by rewrite Hparts.
  destruct (confirmPasswordReset_marks_used k now id secret newPassword w r u
              H0 H1 Htid Htsec Hr Hused Hexp Hu Hdel Hok) as (Hfind & Husers & Hagain).
  fold out in Hfind, Husers, Hagain.
  split_and!; [| |done|done|done].
  - subst out. unfold confirmPasswordReset. rewrite H0, H1. unfold missing.
    rewrite Htid, Htsec. simpl. eff. simpl. rewrite !set_db_id, Hr.
    rewrite check_row_accepts by done. unfold token_user. eff. simpl.
    rewrite Hu. simpl. rewrite !set_db_id, Hdel. simpl. rewrite Hok. simpl.
    destruct (Prisma.update _ _ _) as [[y ts]|] eqn:Hts; simpl.
    + unfold KeycloakAdmin.keycloakResetPassword. eff. simpl.
      by destruct (KeycloakAdmin.reset_ok k).
    + apply find_elem_of in Hr as Hr'. destruct Hr' as [_ Hp].
      apply String.eqb_eq in Hp. rewrite Hp in Hts.
      destruct (update_Some _ (Prisma.Token.set_usedAt now) _ _ Hr) as [ts' Hts'].
      congruence.
  - subst out. unfold confirmPasswordReset. rewrite H0, H1. unfold missing.
    rewrite Htid, Htsec. simpl. eff. simpl. rewrite !set_db_id, Hr.
    rewrite check_row_accepts by done. unfold token_user. eff. simpl.
    rewrite Hu. simpl. rewrite !set_db_id, Hdel. simpl. rewrite Hok. simpl.
    destruct (Prisma.update _ _ _) as [[y ts]|] eqn:Hts; simpl.
    + unfold KeycloakAdmin.keycloakResetPassword. eff. simpl.
      by destruct (KeycloakAdmin.reset_ok k).
    + apply find_elem_of in Hr as Hr'. destruct Hr' as [_ Hp].
      apply String.eqb_eq in Hp. rewrite Hp in Hts.
      destruct (update_Some _ (Prisma.Token.set_usedAt now) _ _ Hr) as [ts' Hts'].
      congruence.
Qed.

(** X26.  Requesting and confirming a password reset compose.  For a
    stored, active account the request stores one token, valid for 30
    minutes, and hands one mail to the mailer whose link carries
    "<row id>.<secret>".  Confirming with that token within the 30 minutes
    calls Keycloak once to set the new password for that account and
    succeeds exactly when that call does; in either case the token is
    used up: any further confirmation with it is refused with
    INVALID_TOKEN. *)
Theorem password_reset_link_is_accepted_once (FRONTEND_URL : option string)
    (d : draw) (mail_ok : bool) (email newPassword : string)
    (k : KeycloakAdmin.outcome) (now' : Z) (u : Prisma.User.t) (s : state) :
  Prisma.findUnique (by_email (toLowerCase (trim email))) (Prisma.users (db (world s)))
    = Some u →
  Prisma.User.deletedAt u = None →
  Prisma.findUnique (Prisma.by_id Prisma.User.id (Prisma.User.id u))
    (Prisma.users (db (world s))) = Some u →
  Prisma.findUnique (Prisma.by_id Prisma.Token.id (newId d))
    (Prisma.passwordResetTokens (db (world s))) = None →
  indexOf "." (newId d) = None → truthy (Some (newId d)) = true →
  indexOf "." (secret d) = None → truthy (Some (secret d)) = true →
  bcrypt_compare (secret d) (tokenHash d) = true →
  now' ≤ now d + 30 * 60 * 1000 →
  let token := newId d +:+ "." +:+ secret d in
  let s1 := (requestPasswordReset FRONTEND_URL d mail_ok email s).2 in
  let out := confirmPasswordReset k now' token newPassword (world s1) in
  outbox s1 = outbox s ++
    [{| to := toLowerCase (trim email); subject := "Redefinição de senha";
        link := buildResetLink FRONTEND_URL token |}]
  ∧ out.1 = (if KeycloakAdmin.reset_ok k then Ret tt else Throw UpstreamError)
  ∧ calls out.2 = calls (world s)
                  ++ [KeycloakResetPassword (Prisma.User.keycloakId u) newPassword]
  ∧ Prisma.users (db out.2) = Prisma.users (db (world s))
  ∧ ∀ k2 now2 newPassword2,
      confirmPasswordReset k2 now2 token newPassword2 out.2 = (Throw INVALID_TOKEN, out.2).
Proof.
  intros Hu Hd Hid Hfresh Hdot Htid Hsdot Htsec Hok Hexp. cbv zeta.
  rewrite (requestPasswordReset_sends _ _ _ _ u s Hu Hd Hfresh).
  cbn [fst snd world outbox].
  set (w1 := set_db (Prisma.set_passwordResetTokens
                       (Prisma.passwordResetTokens (db (world s)) ++ [new_token d u])
                       (db (world s))) (world s)) in *.
  assert (Hrow : Prisma.findUnique (Prisma.by_id Prisma.Token.id (newId d))
                   (Prisma.passwordResetTokens (db w1)) = Some (new_token d u)).
  { simpl. apply find_app_new; [done|]. apply String.eqb_refl. }
  assert (Hlive : now' ≤ Prisma.Token.expiresAt (new_token d u)).
  { simpl. unfold nowPlusMinutes, TTL_MINUTES. lia. }
  destruct (confirmPasswordReset_accepts k now' (newId d) (secret d) newPassword
              w1 (new_token d u) u Hdot Hsdot Htid Htsec Hrow eq_refl Hlive Hid Hd Hok)
    as (H1 & H2 & H3 & _ & H5).
  split_and!; [done|exact H1|exact H2|exact H3|exact H5].
Qed.

Lemma indexOf_at_separator (c : ascii) (a b : string) :
  indexOf c a = None → indexOf c (a +:+ String c b) = Some (String.length a).
Proof.
  induction a as [|x a IH]; [|rewrite append_cons]; simpl.
  - intros _. change ("" +:+ String c b) with (String c b). simpl.
    by rewrite Ascii.eqb_refl.
  - destruct (Ascii.eqb x c); [done|].
    destruct (indexOf c a); [done|]. intros _. by rewrite IH.
Qed.

Lemma slice_to_app (a b : string) : slice_to (String.length a) (a +:+ b) = a.
Proof.
  induction a as [|x a IH]; [|rewrite append_cons]; simpl.
  - by destruct ("" +:+ b).
  - by rewrite IH.
Qed.

Lemma slice_from_app (c : ascii) (a b : string) :
  slice_from (S (String.length a)) (a +:+ String c b) = b.
Proof.
  induction a as [|x a IH]; [|rewrite append_cons]; simpl.
  - change ("" +:+ String c b) with (String c b). by destruct b.
  - exact IH.
Qed.

Lemma requestReactivation_sends (FRONTEND_URL : option string) (d : draw)
    (mail_ok : bool) (email : string) (u : Prisma.User.t) (s : state) :
  Prisma.findUnique (by_email (toLowerCase (trim email))) (Prisma.users (db (world s)))
    = Some u →
  is_Some (Prisma.User.deletedAt u) →
  Prisma.findUnique (Prisma.by_id Prisma.Token.id (newId d))
    (Prisma.accountReactivationTokens (db (world s))) = None →
  requestReactivation FRONTEND_URL d mail_ok email s =
    (if mail_ok then Ret tt else Throw UpstreamError,
     {| world := set_db (Prisma.set_accountReactivationTokens
                           (Prisma.accountReactivationTokens (db (world s))
                            ++ [new_token d u])
                           (db (world s))) (world s);
        outbox := outbox s ++
          [{| to := toLowerCase (trim email); subject := "Reativação de conta";
              link := buildLink FRONTEND_URL (newId d +:+ "." +:+ secret d) |}] |}).
Proof.
  intros Hu Hd Hfresh. unfold requestReactivation, on_world, sendMail. eff. simpl.
  rewrite Hu. simpl. rewrite bool_decide_eq_true_2 by done. simpl.
  unfold Prisma.create, token_clash. simpl.
  rewrite (existsb_by_id_fresh Prisma.Token.id _ _ Hfresh). simpl.
  rewrite !set_db_id. by destruct s.
Qed.

(** A confirmation that passes every check, with Keycloak and the database
    available. *)
Lemma confirmReactivation_accepts (k : KeycloakAdmin.outcome) (now : Z)
    (id secret : string) (w : World.world) r u :
  decodeURIComponent (id +:+ "." +:+ secret) = Some (id +:+ "." +:+ secret) →
  trim (id +:+ "." +:+ secret) = id +:+ "." +:+ secret →
  indexOf "." id = None →
  truthy (Some id) = true → truthy (Some secret) = true →
  Prisma.findUnique (Prisma.by_id Prisma.Token.id id)
    (Prisma.accountReactivationTokens (db w)) = Some r →
  is_Some (Prisma.Token.usedAt r) ∨
  (Prisma.Token.usedAt r = None ∧ now ≤ Prisma.Token.expiresAt r
   ∧ Prisma.findUnique (Prisma.by_id Prisma.User.id (Prisma.Token.userId r))
       (Prisma.users (db w)) = Some u
   ∧ is_Some (Prisma.User.deletedAt u)
   ∧ bcrypt_compare secret (Prisma.Token.tokenHash r) = true
   ∧ KeycloakAdmin.enable_ok k = true) →
  ∃ ts us,
    confirmReactivation k true now (id +:+ "." +:+ secret) w =
      (if bool_decide (is_Some (Prisma.Token.usedAt r))
       then (Throw INVALID_TOKEN, w)
       else (Ret tt,
             set_db (Prisma.set_users us
                       (Prisma.set_accountReactivationTokens ts (db w)))
               (set_calls (calls w ++ [KeycloakEnable (Prisma.User.keycloakId u)]) w)))
    ∧ (Prisma.Token.usedAt r = None →
       Prisma.update (Prisma.by_id Prisma.Token.id id) (Prisma.Token.set_usedAt now)
         (Prisma.accountReactivationTokens (db w)) = Some (Prisma.Token.set_usedAt now r, ts)
       ∧ Prisma.update (Prisma.by_id Prisma.User.id (Prisma.User.id u))
           (Prisma.User.set_deletedAt None) (Prisma.users (db w))
         = Some (Prisma.User.set_deletedAt None u, us)).
Proof.
  intros Hdec Htrim Hdot Htid Htsec Hr Hcase.
  assert (Hlen : ∃ n, String.length id = S n).
  { destruct id; [done|]. simpl. eauto. }
  destruct Hlen as [n Hn].
  unfold confirmReactivation. rewrite Hdec, Htrim.
  change (id +:+ "." +:+ secret) with (id +:+ String "." secret).
  rewrite indexOf_at_separator by done. rewrite Hn, <-Hn.
  rewrite slice_to_app, slice_from_app. unfold missing. rewrite Htid, Htsec. simpl.
  eff. simpl. rewrite !set_db_id, Hr.
  destruct Hcase as [Hused|(Hused & Hexp & Hu & Hdel & Hok & Hen)].
  - rewrite bool_decide_eq_true_2 by done.
    rewrite check_row_rejects by eauto. exists [], []. split; [done|].
    intros Hnone. rewrite Hnone in Hused. by destruct Hused.
  - rewrite bool_decide_eq_false_2 by (rewrite Hused; by intros [? ?]).
    rewrite check_row_accepts by done. unfold token_user. eff. simpl.
    rewrite Hu. simpl. rewrite !set_db_id.
    rewrite bool_decide_eq_true_2 by done. simpl. rewrite Hok. simpl.
    unfold KeycloakAdmin.keycloakEnableUser, KeycloakAdmin.keycloakDisableUser,
      transaction. eff. rewrite Hen. simpl.
    assert (Hid' : Prisma.Token.id r = id).
    { apply find_elem_of in Hr as [_ Hp]. by apply String.eqb_eq in Hp. }
    assert (Huid : Prisma.User.id u = Prisma.Token.userId r).
    { apply find_elem_of in Hu as [_ Hp]. by apply String.eqb_eq in Hp. }
    rewrite Hid'.
    destruct (update_Some _ (Prisma.Token.set_usedAt now) _ _ Hr) as [ts Hts].
    rewrite Hts. simpl. rewrite Huid.
    destruct (update_Some _ (Prisma.User.set_deletedAt None) _ _ Hu) as [us Hus].
    rewrite Hus. simpl. exists ts, us. split; [|done].
    by destruct w as [[] ? ? ?].
Qed.

(** X27.  A soft-deleted account can bring itself back through the mailed
    link.  The reactivation request stores one token, valid for 30 minutes,
    and hands the mailer one mail whose link carries "<row id>.<secret>";
    confirming with that token within the 30 minutes, with Keycloak and the
    database available, enables the account in Keycloak, clears the
    deletion mark of the row and leaves every other field of it as it was;
    the token is then used up. *)
Theorem reactivation_link_restores_the_account (FRONTEND_URL : option string)
    (d : draw) (mail_ok : bool) (email : string)
    (k : KeycloakAdmin.outcome) (now' : Z) (u : Prisma.User.t) (s : state) :
  Prisma.findUnique (by_email (toLowerCase (trim email))) (Prisma.users (db (world s)))
    = Some u →
  is_Some (Prisma.User.deletedAt u) →
  Prisma.findUnique (Prisma.by_id Prisma.User.id (Prisma.User.id u))
    (Prisma.users (db (world s))) = Some u →
  Prisma.findUnique (Prisma.by_id Prisma.Token.id (newId d))
    (Prisma.accountReactivationTokens (db (world s))) = None →
  indexOf "." (newId d) = None → truthy (Some (newId d)) = true →
  truthy (Some (secret d)) = true →
  let token := newId d +:+ "." +:+ secret d in
  decodeURIComponent token = Some token → trim token = token →
  bcrypt_compare (secret d) (tokenHash d) = true →
  KeycloakAdmin.enable_ok k = true →
  now' ≤ now d + 30 * 60 * 1000 →
  let s1 := (requestReactivation FRONTEND_URL d mail_ok email s).2 in
  let out := confirmReactivation k true now' token (world s1) in
  outbox s1 = outbox s ++
    [{| to := toLowerCase (trim email); subject := "Reativação de conta";
        link := buildLink FRONTEND_URL token |}]
  ∧ out.1 = Ret tt
  ∧ calls out.2 = calls (world s) ++ [KeycloakEnable (Prisma.User.keycloakId u)]
  ∧ Prisma.findUnique (Prisma.by_id Prisma.User.id (Prisma.User.id u))
      (Prisma.users (db out.2)) = Some (Prisma.User.set_deletedAt None u)
  ∧ ∀ k2 now2, confirmReactivation k2 true now2 token out.2 = (Throw INVALID_TOKEN, out.2).
Proof.
  intros Hu Hd Hid Hfresh Hdot Htid Htsec token Hdec Htrim Hok Hen Hexp. cbv zeta.
  rewrite (requestReactivation_sends _ _ _ _ u s Hu Hd Hfresh).
  cbn [fst snd world outbox].
  set (w1 := set_db (Prisma.set_accountReactivationTokens
                       (Prisma.accountReactivationTokens (db (world s))
                        ++ [new_token d u])
                       (db (world s))) (world s)) in *.
  assert (Hrow : Prisma.findUnique (Prisma.by_id Prisma.Token.id (newId d))
                   (Prisma.accountReactivationTokens (db w1)) = Some (new_token d u)).
  { simpl. apply find_app_new; [done|]. apply String.eqb_refl. }
  assert (Hlive : now' ≤ Prisma.Token.expiresAt (new_token d u)).
  { simpl. unfold nowPlusMinutes, TTL_MINUTES. lia. }
  destruct (confirmReactivation_accepts k now' (newId d) (secret d) w1
              (new_token d u) u Hdec Htrim Hdot Htid Htsec Hrow)
    as (ts & us & Hout & Hup).
  { right. by split_and!. }
  destruct (Hup eq_refl) as [Hts Hus].
  fold token in Hout. rewrite Hout. simpl.
  split_and!; [done|done|done| |].
  - rewrite (find_update_by_id Prisma.User.id _ (Prisma.User.id u)
               (Prisma.User.set_deletedAt None) _ _ _ (λ _, eq_refl) Hus).
    by rewrite String.eqb_refl.
  - intros k2 now2.
    match goal with |- confirmReactivation _ _ _ _ ?w2 = _ =>
      destruct (confirmReactivation_accepts k2 now2 (newId d) (secret d) w2
                  (Prisma.Token.set_usedAt now' (new_token d u)) u
                  Hdec Htrim Hdot Htid Htsec) as (ts2 & us2 & Hout2 & _) end.
    + simpl.
      rewrite (find_update_by_id Prisma.Token.id _ (newId d)
                 (Prisma.Token.set_usedAt now') _ _ _ (λ _, eq_refl) Hts).
      by rewrite String.eqb_refl.
    + left. simpl. eauto.
    + fold token in Hout2. rewrite Hout2. done.
Qed.

(** X28.  The two request routes give nothing away and exclude each other.
    Whatever the email, the stored rows and the mailer do, each route
    answers its one fixed 200 message; for one email at most one of them
    stores a token or hands over a mail (the password reset only for an
    active account, the reactivation only for a soft-deleted one), and
    neither does for an email no stored account has in its lower-case,
    trimmed form. *)
Theorem token_requests_reveal_nothing_and_exclude_each_other
    (FRONTEND_URL : option string) (d d' : draw) (mail_ok mail_ok' : bool)
    (email : string) (s : state) :
  let a := password_reset FRONTEND_URL d mail_ok (Some email) s in
  let b := reactivate_request FRONTEND_URL d' mail_ok' (Some email) s in
  a.1 = Ret reset_requested
  ∧ b.1 = Ret reactivation_requested
  ∧ (a.2 = s ∨ b.2 = s)
  ∧ (Prisma.findUnique (by_email (toLowerCase (trim email)))
       (Prisma.users (db (world s))) = None → a.2 = s ∧ b.2 = s).
Proof.
  intros a b. subst a b.
  unfold password_reset, reactivate_request, requestPasswordReset, requestReactivation,
    on_world, sendMail.
  eff. simpl. rewrite !set_db_id, !set_world_id.
  destruct (Prisma.findUnique _ _) as [u|] eqn:Hu; simpl; [|by split_and!; auto].
  destruct (bool_decide (is_Some (Prisma.User.deletedAt u))); simpl.
  - destruct (Prisma.create _ _ _); simpl; rewrite ?set_db_id, ?set_world_id;
      [destruct mail_ok'|]; simpl; split_and!; auto; done.
  - destruct (Prisma.create _ _ _); simpl; rewrite ?set_db_id, ?set_world_id;
      [destruct mail_ok|]; simpl; split_and!; auto; done.
Qed.

End TokenRequestProperties.

Section TokenRequestWitnesses.
Import World Tokens TokenRequests JsString.

Lemma password_reset_link_is_accepted_once_witness :
  let enc : UriEncoder := {| encodeURIComponent := λ t, t |} in
  let d := {| secret := "c0ffee"; tokenHash := "c0ffee"; newId := "t2"; now := 1000 |} in
  let k := {| KeycloakAdmin.logout_ok := true; KeycloakAdmin.disable_ok := true;
              KeycloakAdmin.enable_ok := true; KeycloakAdmin.reset_ok := false |} in
  let s := {| world := Sample.world_with (Sample.alice 3 None); outbox := [] |} in
  let s1 := (requestPasswordReset (H := enc) None d true " Alice@Example.com " s).2 in
  let out := confirmPasswordReset (H := Sample.externals) k 2000 "t2.c0ffee" "hunter22"
               (world s1) in
  link <$> outbox s1 = ["http://localhost:3000/reset-password?token=t2.c0ffee"%string]
  ∧ out.1 = Throw UpstreamError
  ∧ (confirmPasswordReset (H := Sample.externals) k 2001 "t2.c0ffee" "hunter22" out.2).1
    = Throw INVALID_TOKEN.
Proof.
  intros enc d k s s1 out.
  destruct (password_reset_link_is_accepted_once (ext := Sample.externals) (enc := enc)
              None d true " Alice@Example.com " "hunter22" k 2000
              (Sample.alice 3 None) s)
    as (H1 & H2 & _ & _ & H5); try reflexivity.
  - vm_compute. discriminate.
  - fold s1 in H1. fold s1 out in H2, H5. rewrite H1.
    split_and!; [reflexivity|exact H2|]. by rewrite H5.
Defined.

Lemma reactivation_link_restores_the_account_witness :
  let enc : UriEncoder := {| encodeURIComponent := λ t, t |} in
  let d := {| secret := "c0ffee"; tokenHash := "c0ffee"; newId := "t2"; now := 3000 |} in
  let k := {| KeycloakAdmin.logout_ok := true; KeycloakAdmin.disable_ok := true;
              KeycloakAdmin.enable_ok := true; KeycloakAdmin.reset_ok := true |} in
  let s := {| world := Sample.world_with (Sample.alice 3 (Some 2000)); outbox := [] |} in
  let s1 := (requestReactivation (H := enc) None d true "alice@example.com" s).2 in
  let out := confirmReactivation (H := Sample.externals) k true 4000 "t2.c0ffee"
               (world s1) in
  out.1 = Ret tt ∧ Prisma.users (db out.2) = [Sample.alice 3 None].
Proof.
  intros enc d k s s1 out.
  destruct (reactivation_link_restores_the_account (ext := Sample.externals) (enc := enc)
              None d true "alice@example.com" k 4000
              (Sample.alice 3 (Some 2000)) s)
    as (_ & H2 & _ & _ & _); try reflexivity.
  - by eexists.
  - vm_compute. discriminate.
  - split; [exact H2|reflexivity].
Defined.

End TokenRequestWitnesses.

(** ** Subscriptions are never created *)

Section Frame.
Import World Backend.
Context {S T : Type} (K : S → T).

Lemma keeps_ret {A} (a : A) : keeps K (mret a).
Proof. done. Qed.

Lemma keeps_throw {A} (e : error) : keeps K (throw e : Eff S A).
Proof. done. Qed.

Lemma keeps_pure {A} (r : res A) : keeps K (λ s, (r, s)).
Proof. done. Qed.

Lemma keeps_get_state : keeps K get_state.
Proof. done. Qed.

Lemma keeps_bind {A B} (m : Eff S A) (f : A → Eff S B) :
  keeps K m → (∀ a, keeps K (f a)) → keeps K (m ≫= f).
Proof.
  intros Hm Hf s. unfold mbind, Eff_bind. specialize (Hm s).
  destruct (m s) as [[a|e] s']; simpl in *; [|done].
  by rewrite Hf.
Qed.

Lemma keeps_try_catch {A} (m : Eff S A) (h : error → Eff S A) :
  keeps K m → (∀ e, keeps K (h e)) → keeps K (try_catch m h).
Proof.
  intros Hm Hh s. unfold try_catch. specialize (Hm s).
  destruct (m s) as [[a|e] s']; simpl in *; [done|].
  by rewrite Hh.
Qed.

Lemma keeps_modify (f : S → S) : (∀ s, K (f s) = K s) → keeps K (modify f).
Proof. intros Hf s. apply Hf. Qed.

End Frame.

Section SubscriptionRows.
Import World Backend.
Context {ext : Externals}.

Abbreviation Kdb := subscription_keys.
Abbreviation Kw := (λ w : world, subscription_keys (db w)).

Lemma keeps_on_db {A} (m : Eff Prisma.db A) : keeps Kdb m → keeps Kw (on_db m).
Proof.
  intros Hm w. unfold on_db, zoom. specialize (Hm (db w)).
  by destruct (m (db w)) as [r d].
Qed.

Lemma keeps_on_redis {A} (m : Eff Redis.redis A) : keeps Kw (on_redis m).
Proof. intros w. unfold on_redis, zoom. by destruct (m (redis w)). Qed.

Lemma keeps_transaction commits (m : Eff Prisma.db unit) :
  keeps Kdb m → keeps Kw (Tokens.transaction commits m).
Proof.
  intros Hm w. unfold Tokens.transaction. destruct commits; [|done].
  specialize (Hm (db w)). by destruct (m (db w)) as [[a|e] d].
Qed.

Lemma keeps_request c ok : keeps Kw (request c ok).
Proof. done. Qed.

Lemma keeps_request_value {A} c (a : option A) : keeps Kw (request_value c a).
Proof. done. Qed.

Lemma keeps_fire_and_forget c : keeps Kw (fire_and_forget c).
Proof. done. Qed.

Lemma keeps_find {A} (tbl : Prisma.db → list A) p : keeps Kdb (Prisma.find tbl p).
Proof. done. Qed.

(** Writes to the other tables. *)
Lemma keeps_update_other {A} (tbl : Prisma.db → list A) set_tbl p f :
  (∀ t d, Prisma.subscriptions (set_tbl t d) = Prisma.subscriptions d) →
  keeps Kdb (Prisma.update_row tbl set_tbl p f).
Proof.
  intros Hset d. unfold Prisma.update_row.
  destruct (Prisma.update p f (tbl d)) as [[y t']|]; simpl; [|done].
  unfold subscription_keys. by rewrite Hset.
Qed.

Lemma keeps_create_other {A} (tbl : Prisma.db → list A) set_tbl clash x :
  (∀ t d, Prisma.subscriptions (set_tbl t d) = Prisma.subscriptions d) →
  keeps Kdb (Prisma.create_row tbl set_tbl clash x).
Proof.
  intros Hset d. unfold Prisma.create_row.
  destruct (Prisma.create clash x (tbl d)) as [t'|]; simpl; [|done].
  unfold subscription_keys. by rewrite Hset.
Qed.

(** Writes to the subscriptions that keep the key columns. *)
Lemma keeps_update_subscription p f :
  (∀ s, subscription_key (f s) = subscription_key s) →
  keeps Kdb (Prisma.update_row Prisma.subscriptions Prisma.set_subscriptions p f).
Proof.
  intros Hf d. unfold Prisma.update_row.
  destruct (Prisma.update p f (Prisma.subscriptions d)) as [[y t']|] eqn:Hup;
    simpl; [|done].
  unfold subscription_keys. simpl. by apply (update_fmap subscription_key p f _ y).
Qed.

Lemma keeps_update_subscriptions p f :
  (∀ s, subscription_key (f s) = subscription_key s) →
  keeps Kdb (Prisma.update_rows Prisma.subscriptions Prisma.set_subscriptions p f).
Proof.
  intros Hf d. unfold Prisma.update_rows, modify, subscription_keys,
    Prisma.updateMany. simpl.
  rewrite <-list_fmap_compose. apply list_fmap_ext. intros ? s _. simpl.
  by destruct (p s).
Qed.

Ltac frame :=
  repeat first
    [ apply keeps_ret | apply keeps_throw | apply keeps_pure | apply keeps_get_state
    | apply keeps_request | apply keeps_request_value | apply keeps_fire_and_forget
    | apply keeps_on_redis
    | apply keeps_on_db | apply keeps_transaction
    | apply keeps_find
    | apply keeps_update_subscription; done
    | apply keeps_update_subscriptions; done
    | apply keeps_update_other; done
    | apply keeps_create_other; done
    | apply keeps_modify; done
    | apply keeps_bind; [|intros ?]
    | apply keeps_try_catch; [|intros ?]
    | match goal with
      | |- keeps _ (match ?x with _ => _ end) => destruct x
      | |- keeps _ (if ?b then _ else _) => destruct b
      | |- keeps _ (let _ := _ in _) => cbv zeta
      end ].

Lemma keeps_get_me req newId now : keeps Kw (Users.get_me req newId now).
Proof. unfold Users.get_me. frame. Qed.

Lemma keeps_delete_me k req now : keeps Kw (Users.delete_me k req now).
Proof.
  unfold Users.delete_me, KeycloakAdmin.keycloakDisableAndLogoutUser,
    KeycloakAdmin.keycloakLogoutUser, KeycloakAdmin.keycloakDisableUser. frame.
Qed.

Lemma keeps_start req jobId : keeps Kw (Transform.start req jobId).
Proof. unfold Transform.start, Transform.parse_style. frame. Qed.

Lemma keeps_purchase req orderId payment :
  keeps Kw (Payment.purchase req orderId payment).
Proof. unfold Payment.purchase, Payment.parse_purchase. frame. Qed.

Lemma keeps_complete_order orderId : keeps Kw (Webhook.complete_order orderId).
Proof. unfold Webhook.complete_order. frame. Qed.

Lemma keeps_stripe e payload sig : keeps Kw (Webhook.stripe e payload sig).
Proof.
  unfold Webhook.stripe, Webhook.handleStripeCheckoutComplete,
    Webhook.handleStripeInvoicePaid, Webhook.handleStripeSubscriptionUpdated,
    Webhook.handleStripeSubscriptionDeleted.
  frame; apply keeps_complete_order.
Qed.

Lemma keeps_asaas e body token : keeps Kw (Webhook.asaas e body token).
Proof.
  unfold Webhook.asaas, Webhook.handleAsaasPaymentConfirmed,
    Webhook.handleAsaasPaymentFailed, Webhook.handleAsaasSubscriptionActive,
    Webhook.handleAsaasSubscriptionCancelled, Webhook.set_subscription_status,
    Webhook.externalReference.
  frame; apply keeps_complete_order.
Qed.

Lemma keeps_add_credits user userId amount :
  keeps Kw (Admin.add_credits user userId amount).
Proof. unfold Admin.add_credits. frame. Qed.

Lemma keeps_keycloakMiddleware authorization answer :
  keeps Kw (Keycloak.keycloakMiddleware authorization answer).
Proof. unfold Keycloak.keycloakMiddleware, Keycloak.introspectToken. frame. Qed.

Lemma keeps_get_status userId jobId : keeps Kw (TransformStatus.get_status userId jobId).
Proof. unfold TransformStatus.get_status. frame. Qed.

Lemma keeps_n8n e body signature now :
  keeps Kw (Webhook.n8n_transformation_complete e body signature now).
Proof. unfold Webhook.n8n_transformation_complete. frame. Qed.

Lemma keeps_n8n_json e payload signature now :
  keeps Kw (Server.n8n e payload signature now).
Proof. unfold Server.n8n, Webhook.n8n_route. frame. Qed.

Lemma keeps_start_check req : keeps Kw (Transform.start_check req).
Proof.
  unfold Transform.start_check, Transform.start_catch, Transform.parse_style. frame.
Qed.

Lemma keeps_start_finish req jobId p : keeps Kw (Transform.start_finish req jobId p).
Proof. unfold Transform.start_finish, Transform.start_catch. frame. Qed.

Lemma keeps_subscribe req provider : keeps Kw (Subscribe.subscribe req provider).
Proof. unfold Subscribe.subscribe, Subscribe.parse_subscribe. frame. Qed.

Lemma keeps_cancel user_id : keeps Kw (Subscriptions.cancel user_id).
Proof. unfold Subscriptions.cancel. frame. Qed.

Lemma keeps_reactivate k user keycloakId :
  keeps Kw (AdminUsers.reactivate k user keycloakId).
Proof. unfold AdminUsers.reactivate, KeycloakAdmin.keycloakEnableUser. frame. Qed.

Lemma keeps_confirmPasswordReset k now token newPassword :
  keeps Kw (Tokens.confirmPasswordReset k now token newPassword).
Proof.
  unfold Tokens.confirmPasswordReset, Tokens.check_row, Tokens.token_user,
    KeycloakAdmin.keycloakResetPassword. frame.
Qed.

Lemma keeps_confirmReactivation k commits now token :
  keeps Kw (Tokens.confirmReactivation k commits now token).
Proof.
  unfold Tokens.confirmReactivation, Tokens.check_row, Tokens.token_user,
    KeycloakAdmin.keycloakEnableUser, KeycloakAdmin.keycloakDisableUser. frame.
Qed.

Lemma serve_keeps_subscription_keys e r w :
  subscription_keys (db (serve e r w)) = subscription_keys (db w).
Proof.
  destruct r as [o| | | | | | | | | | |]; simpl.
  - destruct o; simpl.
    + apply keeps_get_me.
    + apply keeps_delete_me.
    + apply keeps_start.
    + apply keeps_purchase.
    + apply keeps_stripe.
    + apply keeps_asaas.
    + apply keeps_add_credits.
  - apply keeps_keycloakMiddleware.
  - apply keeps_get_status.
  - apply keeps_n8n.
  - apply keeps_n8n_json.
  - apply keeps_start_check.
  - apply keeps_start_finish.
  - apply keeps_subscribe.
  - apply keeps_cancel.
  - apply keeps_reactivate.
  - apply keeps_confirmPasswordReset.
  - apply keeps_confirmReactivation.
Qed.

(** X29.  No request creates, deletes or re-assigns a subscription: after
    any sequence of the modelled requests (profile, account deletion,
    start and status of a job, purchase and subscribe, cancel, the three
    webhooks, the workflow callback, the admin routes, the token
    confirmations, authentication) the subscriptions have the ids, owners
    and Stripe ids they started with, whatever the bodies of the webhook
    requests are and however the handlers of POST /start take turns.  So
    on a store that starts without subscriptions nobody ever counts as
    subscribed. *)
Theorem no_request_creates_a_subscription (e : Webhook.env) (rs : list incoming)
    (w : world) :
  let final := foldl (λ w r, serve e r w) w rs in
  subscription_keys (db final) = subscription_keys (db w)
  ∧ (Prisma.subscriptions (db w) = [] →
     Prisma.subscriptions (db final) = []
     ∧ ∀ userId,
         Transform.has_active_subscription
           (Prisma.findUnique (Prisma.by_id Prisma.Subscription.userId userId)
              (Prisma.subscriptions (db final))) = false).
Proof.
  intros final.
  assert (Hkeys : subscription_keys (db final) = subscription_keys (db w)).
  { subst final. revert w. induction rs as [|r rs IH]; intros w; simpl; [done|].
    by rewrite IH, serve_keeps_subscription_keys. }
  split; [done|]. intros Hempty.
  assert (Hnone : Prisma.subscriptions (db final) = []).
  { unfold subscription_keys in Hkeys. rewrite Hempty in Hkeys.
    by apply fmap_nil_inv in Hkeys. }
  by rewrite Hnone.
Qed.

End SubscriptionRows.

Lemma no_request_creates_a_subscription_witness :
  let rs := [Backend.Core (System.GetMe Sample.alice_req "u9" 1000);
             Backend.SubscribeTo
               {| Subscribe.body_plan := Some "pro"%string;
                  Subscribe.body_billingCycle := Some "monthly"%string;
                  Subscribe.body_region := Some "BR"%string;
                  Subscribe.user_id := "kc1" |}
               (λ _ _, Some ("sub_1", "https://pay")%string);
             Backend.WorkflowCallbackJson "{}" None 2000;
             Backend.CancelSubscription "kc1"] in
  let w := Sample.world_with (Sample.alice 3 None) in
  let final := foldl (λ w r, Backend.serve (H := Sample.externals) Sample.env r w) w rs in
  Prisma.subscriptions (World.db final) = [].
Proof.
  intros rs w final.
  destruct (no_request_creates_a_subscription (ext := Sample.externals) Sample.env rs w)
    as [_ H].
  destruct (H eq_refl) as [Hnone _]. exact Hnone.
Defined.
